(** * SU4MLC, models/rnn.py: encoder, decoder and stacked recurrent cells

    A shallow embedding of [rnn_encoder], [rnn_decoder], [StackedLSTM] and
    [StackedGRU], with the parts of torch they call, and the properties of
    the specification settled against it.

    Tensors are nested lists, time-major as the source has them; the element
    type [R] (a float in the source) and its arithmetic are abstract, so no
    law of real or floating-point arithmetic is used anywhere.  A learned
    parameter tensor is an index function read at the shape its layer
    declares.  Python exceptions are the [Err] results; the global random
    generator that the dropout layers draw from is threaded explicitly. *)

From Stdlib Require Import String ZArith.
From Stdlib Require QArith.
From Stdlib Require Import List Arith Lia Bool.
Import ListNotations.

Set Implicit Arguments.

(** ** Elements, errors and the computation monad *)

(** The element type with the arithmetic the layers use; [rlit] reads a
    decimal literal of the source. *)
Class Scalar (R : Type) := {
  rzero : R;
  radd : R -> R -> R;
  rmul : R -> R -> R;
  selu : R -> R;
  rlit : QArith_base.Q -> R
}.

(** The random generator of torch: one draw perturbs one element (given the
    drop probability) and advances the generator state. *)
Class Sampler (G R : Type) := {
  dropout_elem : R -> R -> G -> R * G;
  alpha_dropout_elem : R -> R -> G -> R * G
}.

Inductive error :=
| RuntimeError | IndexError | AttributeError | TypeError | ValueError.

Inductive result (A : Type) :=
| Ok (a : A)
| Err (e : error).
Arguments Err {A} e.

Definition rbind {A B} (r : result A) (k : A -> result B) : result B :=
  match r with
  | Ok a => k a
  | Err e => Err e
  end.

Fixpoint mapR {A B} (f : A -> result B) (l : list A) : result (list B) :=
  match l with
  | [] => Ok []
  | a :: l' => rbind (f a) (fun b => rbind (mapR f l') (fun bs => Ok (b :: bs)))
  end.

(** The world a forward pass runs in: the generator state, and a record of
    the tensors every [nn.Dropout] module was called on (oldest first). *)
Record world (R G : Type) := {
  gen : G;
  dropout_calls : list (list (list R))
}.

Definition M (R G A : Type) := world R G -> result (A * world R G).

Section Monad.
Context {R G : Type}.

Definition ret {A} (a : A) : M R G A := fun w => Ok (a, w).

Definition bind {A B} (c : M R G A) (k : A -> M R G B) : M R G B :=
  fun w => match c w with
           | Ok (a, w') => k a w'
           | Err e => Err e
           end.

Definition lift {A} (r : result A) : M R G A :=
  fun w => match r with
           | Ok a => Ok (a, w)
           | Err e => Err e
           end.

(** Run a generator-only computation. *)
Definition draw {A} (f : G -> A * G) : M R G A :=
  fun w => let (a, g) := f (gen w) in
           Ok (a, {| gen := g; dropout_calls := dropout_calls w |}).

Definition record_dropout (x : list (list R)) : M R G unit :=
  fun w => Ok (tt, {| gen := gen w; dropout_calls := dropout_calls w ++ [x] |}).

(** The value a computation returns, the final world forgotten. *)
Definition value {A} (r : result (A * world R G)) : result A :=
  match r with
  | Ok (a, _) => Ok a
  | Err e => Err e
  end.
End Monad.

Notation "x <- c ;; k" := (bind c (fun x => k))
  (at level 61, c at next level, right associativity).
Notation "' pat <- c ;; k" := (bind c (fun x => match x with pat => k end))
  (at level 61, pat pattern, c at next level, right associativity).

(** ** Lists as tensors *)

Section Lists.
Context {A B C : Type}.

Definition map2 (f : A -> B -> C) (l1 : list A) (l2 : list B) : list C :=
  map (fun p => f (fst p) (snd p)) (combine l1 l2).

(** A stateful elementwise map: the generator runs through the elements in
    order. *)
Fixpoint smap {G} (f : A -> G -> B * G) (l : list A) (g : G) : list B * G :=
  match l with
  | [] => ([], g)
  | a :: l' => let (b, g1) := f a g in
               let (bs, g2) := smap f l' g1 in
               (b :: bs, g2)
  end.
End Lists.

(** [x.transpose(0, 1)] on the two outer axes of a nested list; the width is
    read off the first row, [d] fills a ragged input. *)
Definition transpose {A} (d : A) (x : list (list A)) : list (list A) :=
  map (fun j => map (fun row => nth j row d) x) (seq 0 (length (hd [] x))).

(** [x[::2]] *)
Fixpoint slice_step2 {A} (l : list A) : list A :=
  match l with
  | [] => []
  | a :: l' => a :: match l' with
                    | [] => []
                    | _ :: l'' => slice_step2 l''
                    end
  end.

(** ** The layers of torch.nn that the source builds on

    Each layer is a record of its declared sizes and its learned parameters;
    the declared sizes fix the shape of what a layer returns, the parameters
    its values.  The arithmetic inside a recurrent cell is a parameter of the
    cell (its learned map), read component by component. *)

Module nn.
Section Layers.
Context {R G : Type} `{Scalar R} `{Sampler G R}.

(** *** nn.Embedding *)

Record Embedding := {
  num_embeddings : nat;
  embedding_dim : nat;
  emb_weight : nat -> nat -> R
}.

(** One row of the table.  An index beyond the table is an [IndexError];
    selecting from a table without rows is refused with [RuntimeError]
    whatever the index. *)
Definition Embedding_lookup (m : Embedding) (id : nat) : result (list R) :=
  if num_embeddings m =? 0 then Err RuntimeError
  else if id <? num_embeddings m
  then Ok (map (emb_weight m id) (seq 0 (embedding_dim m)))
  else Err IndexError.

(** *** nn.Dropout, and the functional dropout on a whole tensor *)

Definition dropout2 (p : R) (x : list (list R)) : G -> list (list R) * G :=
  smap (smap (dropout_elem p)) x.

Definition dropout3 (p : R) (x : list (list (list R)))
  : G -> list (list (list R)) * G :=
  smap (smap (smap (dropout_elem p))) x.

Definition alpha_dropout3 (p : R) (x : list (list (list R)))
  : G -> list (list (list R)) * G :=
  smap (smap (smap (alpha_dropout_elem p))) x.

Record Dropout := {
  drop_p : R;
  drop_training : bool
}.

Definition Dropout_forward (m : Dropout) (x : list (list R))
  : M R G (list (list R)) :=
  _ <- record_dropout x ;;
  if drop_training m then draw (dropout2 (drop_p m) x) else ret x.

(** *** nn.Linear, on a batch of row vectors *)

Record Linear := {
  in_features : nat;
  out_features : nat;
  lin_weight : nat -> nat -> R;
  lin_bias : nat -> R
}.

Definition Linear_row (m : Linear) (x : list R) (o : nat) : R :=
  fold_left radd
    (map (fun i => rmul (lin_weight m o i) (nth i x rzero)) (seq 0 (in_features m)))
    (lin_bias m o).

Definition Linear_forward (m : Linear) (x : list (list R)) : result (list (list R)) :=
  if forallb (fun row => length row =? in_features m) x
  then Ok (map (fun row => map (Linear_row m row) (seq 0 (out_features m))) x)
  else Err RuntimeError.

(** *** nn.GRUCell and nn.LSTMCell: one step on a batch *)

Record GRUCell := {
  gc_input_size : nat;
  gc_hidden_size : nat;
  gc_kernel : list R -> list R -> nat -> R
}.

Definition GRUCell_step (c : GRUCell) (x h : list R) : list R :=
  map (gc_kernel c x h) (seq 0 (gc_hidden_size c)).

Definition GRUCell_forward (c : GRUCell) (input hx : list (list R))
  : result (list (list R)) :=
  if (length input =? length hx)
     && forallb (fun x => length x =? gc_input_size c) input
     && forallb (fun h => length h =? gc_hidden_size c) hx
  then Ok (map2 (GRUCell_step c) input hx)
  else Err RuntimeError.

Record LSTMCell := {
  lc_input_size : nat;
  lc_hidden_size : nat;
  lc_kernel : list R -> list R * list R -> nat -> R * R
}.

Definition LSTMCell_step (c : LSTMCell) (x : list R) (hc : list R * list R)
  : list R * list R :=
  let r := map (lc_kernel c x hc) (seq 0 (lc_hidden_size c)) in
  (map fst r, map snd r).

Definition LSTMCell_forward (c : LSTMCell) (input : list (list R))
           (hx cx : list (list R)) : result (list (list R) * list (list R)) :=
  if (length input =? length hx) && (length input =? length cx)
     && forallb (fun x => length x =? lc_input_size c) input
     && forallb (fun h => length h =? lc_hidden_size c) hx
     && forallb (fun h => length h =? lc_hidden_size c) cx
  then
    let r := map2 (LSTMCell_step c) input (combine hx cx) in
    Ok (map fst r, map snd r)
  else Err RuntimeError.

(** What [nn.LSTMCell] answers a batch of inputs together with a state that
    is a single vector: [RuntimeError] when the inputs are not of the
    cell's width or their number is not the length of the vector, and
    [IndexError] otherwise, the vector having no second axis to read the
    hidden width from. *)
Definition LSTMCell_vector_state (c : LSTMCell) (input : list (list R))
           (hx : list R) : error :=
  if forallb (fun x => length x =? lc_input_size c) input
     && (length input =? length hx)
  then IndexError
  else RuntimeError.

(** *** nn.GRU and nn.LSTM over a padded, time-major sequence

    What the two share: every layer runs its cell over the time axis from
    a zero state, once forwards and, when bidirectional, once backwards;
    the two directions are concatenated along the feature axis; dropout
    (the sampler is handed the probability, zero included) sits between
    layers in training mode; the final states are listed layer by layer,
    forward before backward. *)

Section RNNBase.
Variable S : Type.
Variable step : nat -> bool -> list R -> S -> S.
Variable hid : S -> list R.
Variable s0 : S.
Variable p : R.
Variables bidirectional training : bool.

Fixpoint scan (f : list R -> S -> S) (xs : list (list (list R)))
         (s : list S) : list (list S) :=
  match xs with
  | [] => []
  | x :: r => let s' := map2 f x s in s' :: scan f r s'
  end.

Definition layer_forward (l : nat) (xs : list (list (list R)))
  : list (list (list R)) * list (list S) :=
  let init := repeat s0 (length (hd [] xs)) in
  let fw := scan (step l false) xs init in
  if bidirectional then
    let bw := scan (step l true) (rev xs) init in
    (map2 (map2 (fun a b => hid a ++ hid b)) fw (rev bw),
     [last fw init; last bw init])
  else (map (map hid) fw, [last fw init]).

Fixpoint layers_forward (ls : list nat) (xs : list (list (list R)))
  : M R G (list (list (list R)) * list (list S)) :=
  match ls with
  | [] => ret (xs, [])
  | l :: rest =>
      let (out, fin) := layer_forward l xs in
      out <- (match rest with
              | [] => ret out
              | _ :: _ => if training then draw (dropout3 p out) else ret out
              end) ;;
      ' (y, fins) <- layers_forward rest out ;;
      ret (y, fin ++ fins)
  end.

Definition rnn_forward (input_size num_layers : nat)
           (xs : list (list (list R)))
  : M R G (list (list (list R)) * list (list S)) :=
  if forallb (forallb (fun x => length x =? input_size)) xs
  then layers_forward (seq 0 num_layers) xs
  else lift (Err RuntimeError).
End RNNBase.

Record GRU := {
  gru_input_size : nat;
  gru_hidden_size : nat;
  gru_num_layers : nat;
  gru_dropout : R;
  gru_bidirectional : bool;
  gru_training : bool;
  gru_cell : nat -> bool -> list R -> list R -> nat -> R
}.

Definition GRU_step (m : GRU) (l : nat) (reverse : bool) (x h : list R) : list R :=
  map (gru_cell m l reverse x h) (seq 0 (gru_hidden_size m)).

(** [outputs, h_n = gru(input)] *)
Definition GRU_forward (m : GRU) (xs : list (list (list R)))
  : M R G (list (list (list R)) * list (list (list R))) :=
  rnn_forward (GRU_step m) (fun h => h) (repeat rzero (gru_hidden_size m))
              (gru_dropout m) (gru_bidirectional m) (gru_training m)
              (gru_input_size m) (gru_num_layers m) xs.

Record LSTM := {
  lstm_input_size : nat;
  lstm_hidden_size : nat;
  lstm_num_layers : nat;
  lstm_dropout : R;
  lstm_bidirectional : bool;
  lstm_training : bool;
  lstm_cell : nat -> bool -> list R -> list R * list R -> nat -> R * R
}.

Definition LSTM_step (m : LSTM) (l : nat) (reverse : bool) (x : list R)
           (hc : list R * list R) : list R * list R :=
  let r := map (lstm_cell m l reverse x hc) (seq 0 (lstm_hidden_size m)) in
  (map fst r, map snd r).

(** [outputs, (h_n, c_n) = lstm(input)] *)
Definition LSTM_forward (m : LSTM) (xs : list (list (list R)))
  : M R G (list (list (list R))
           * (list (list (list R)) * list (list (list R)))) :=
  ' (out, fins) <-
    rnn_forward (LSTM_step m) fst
                (repeat rzero (lstm_hidden_size m), repeat rzero (lstm_hidden_size m))
                (lstm_dropout m) (lstm_bidirectional m) (lstm_training m)
                (lstm_input_size m) (lstm_num_layers m) xs ;;
  ret (out, (map (map fst) fins, map (map snd) fins)).

(** *** nn.Conv1d (stride 1), nn.SELU, nn.AlphaDropout, nn.Sequential

    A convolution takes a batch of channel-major examples [C x L].  With
    padding [p], dilation [d] and kernel width [k] the kernel spans
    [d * (k - 1) + 1] positions of the padded input; torch refuses an input
    whose padded length is below that span, and otherwise returns
    [L + 2 * p - d * (k - 1)] positions. *)

Record Conv1d := {
  in_channels : nat;
  out_channels : nat;
  kernel_size : nat;
  padding : nat;
  dilation : nat;
  conv_weight : nat -> nat -> nat -> R;
  conv_bias : nat -> R
}.

Definition pad1d (n : nat) (x : list R) : list R :=
  repeat rzero n ++ x ++ repeat rzero n.

Definition conv_at (c : Conv1d) (xp : list (list R)) (o t : nat) : R :=
  fold_left radd
    (map (fun ci =>
            fold_left radd
              (map (fun j => rmul (conv_weight c o ci j)
                                  (nth (t + j * dilation c) (nth ci xp []) rzero))
                   (seq 0 (kernel_size c)))
              rzero)
         (seq 0 (in_channels c)))
    (conv_bias c o).

Definition conv_span (c : Conv1d) : nat := dilation c * (kernel_size c - 1) + 1.

Definition Conv1d_example (c : Conv1d) (x : list (list R)) : result (list (list R)) :=
  if negb (length x =? in_channels c) then Err RuntimeError
  else
    let l := length (hd [] x) in
    if l + 2 * padding c <? conv_span c then Err RuntimeError
    else
      let xp := map (pad1d (padding c)) x in
      Ok (map (fun o => map (conv_at c xp o)
                            (seq 0 (l + 2 * padding c - conv_span c + 1)))
              (seq 0 (out_channels c))).

Definition Conv1d_forward (c : Conv1d) (x : list (list (list R)))
  : result (list (list (list R))) :=
  mapR (Conv1d_example c) x.

Inductive layer :=
| Conv (c : Conv1d)
| SELU
| AlphaDropout (p : R) (training : bool).

Definition layer_apply (l : layer) (x : list (list (list R)))
  : M R G (list (list (list R))) :=
  match l with
  | Conv c => lift (Conv1d_forward c x)
  | SELU => ret (map (map (map selu)) x)
  | AlphaDropout p training =>
      if training then draw (alpha_dropout3 p x) else ret x
  end.

Fixpoint Sequential_forward (ls : list layer) (x : list (list (list R)))
  : M R G (list (list (list R))) :=
  match ls with
  | [] => ret x
  | l :: rest => y <- layer_apply l x ;; Sequential_forward rest y
  end.

(** [module.eval()] on the layers that carry a mode. *)
Definition layer_eval (l : layer) : layer :=
  match l with
  | AlphaDropout p _ => AlphaDropout p false
  | other => other
  end.

Definition Dropout_eval (m : Dropout) : Dropout :=
  {| drop_p := drop_p m; drop_training := false |}.

Definition GRU_eval (m : GRU) : GRU :=
  {| gru_input_size := gru_input_size m; gru_hidden_size := gru_hidden_size m;
     gru_num_layers := gru_num_layers m; gru_dropout := gru_dropout m;
     gru_bidirectional := gru_bidirectional m; gru_training := false;
     gru_cell := gru_cell m |}.

Definition LSTM_eval (m : LSTM) : LSTM :=
  {| lstm_input_size := lstm_input_size m; lstm_hidden_size := lstm_hidden_size m;
     lstm_num_layers := lstm_num_layers m; lstm_dropout := lstm_dropout m;
     lstm_bidirectional := lstm_bidirectional m; lstm_training := false;
     lstm_cell := lstm_cell m |}.
End Layers.

Arguments Embedding : clear implicits.
Arguments Dropout : clear implicits.
Arguments Linear : clear implicits.
Arguments GRUCell : clear implicits.
Arguments LSTMCell : clear implicits.
Arguments GRU : clear implicits.
Arguments LSTM : clear implicits.
Arguments Conv1d : clear implicits.
Arguments layer : clear implicits.

(** [nn.GLU(dim)] has no learned parameter. *)
Record GLU := { glu_dim : Z }.
End nn.

(** ** torch.nn.utils.rnn: pack_padded_sequence and pad_packed_sequence

    The source imports them as [pack] and [unpack] and calls both with their
    defaults: time-major input, lengths sorted in decreasing order, padding
    value zero. *)

Section Packing.
Context {R : Type} `{Scalar R}.

Record PackedSequence := {
  data : list (list R);
  batch_sizes : list nat
}.

Fixpoint sorted_decreasing (l : list nat) : bool :=
  match l with
  | [] => true
  | a :: r => match r with
              | [] => true
              | b :: _ => (b <=? a) && sorted_decreasing r
              end
  end.

(** How many examples are still running at time [t]. *)
Definition batch_size_at (lengths : list nat) (t : nat) : nat :=
  length (filter (fun l => t <? l) lengths).

(** [pack(input, lengths)]: at every time step below the longest length, the
    rows of the examples still running (a prefix of the batch, the lengths
    being sorted).  torch refuses an empty tensor, a lengths list of another
    size than the batch, a length of zero and an unsorted list; a length
    beyond the padded time axis makes the pack/unpack pair fail as well. *)
Definition pack (input : list (list (list R))) (lengths : list nat)
  : result PackedSequence :=
  let b := length (hd [] input) in
  if (length input =? 0) || (b =? 0) || (length (hd [] (hd [] input)) =? 0)
  then Err RuntimeError
  else if negb (length lengths =? b) then Err RuntimeError
  else if existsb (fun l => l =? 0) lengths then Err RuntimeError
  else if negb (sorted_decreasing lengths) then Err RuntimeError
  else if length input <? hd 0 lengths then Err RuntimeError
  else
    let steps := seq 0 (hd 0 lengths) in
    Ok {| data := flat_map (fun t => firstn (batch_size_at lengths t) (nth t input []))
                           steps;
          batch_sizes := map (batch_size_at lengths) steps |}.

Fixpoint unpack_steps (d : list (list R)) (sizes : list nat) (b : nat)
         (pad : list R) : list (list (list R)) :=
  match sizes with
  | [] => []
  | n :: rest =>
      (firstn n d ++ repeat pad (b - n)) :: unpack_steps (skipn n d) rest b pad
  end.

(** [unpack(sequence)]: the padded tensor, zero beyond every example's
    length and as long as the longest example, and the lengths. *)
Definition unpack (s : PackedSequence) : list (list (list R)) * list nat :=
  let b := hd 0 (batch_sizes s) in
  let pad := repeat rzero (length (hd [] (data s))) in
  (unpack_steps (data s) (batch_sizes s) b pad,
   map (fun i => length (filter (fun n => i <? n) (batch_sizes s))) (seq 0 b)).
End Packing.

Arguments PackedSequence : clear implicits.

(** ** The objects of the source *)

(** The [config] object, with the options the source reads. *)
Module Config.
Record t (R : Type) := {
  cell : string;
  emb_size : nat;
  hidden_size : nat;
  enc_num_layers : nat;
  dec_num_layers : nat;
  dropout : R;
  bidirectional : bool;
  src_vocab_size : nat;
  tgt_vocab_size : nat;
  attention : string;
  pool_size : nat
}.
End Config.

(** The recurrent state: one tensor [layers x batch x hidden] for a GRU, the
    pair [(h, c)] of such tensors for an LSTM. *)
Inductive State (R : Type) :=
| StGRU (h : list (list (list R)))
| StLSTM (h c : list (list (list R))).

(** [a + b] on two feature vectors, with torch's broadcasting of a width of
    one. *)
Definition vadd {R} `{Scalar R} (u v : list R) : result (list R) :=
  if length u =? length v then Ok (map2 radd u v)
  else match u, v with
       | [x], _ => Ok (map (radd x) v)
       | _, [y] => Ok (map (fun a => radd a y) u)
       | _, _ => Err RuntimeError
       end.

(** [x[i]] on a Python list or the leading axis of a tensor. *)
Definition index {A} (l : list A) (i : nat) : result A :=
  match nth_error l i with
  | Some a => Ok a
  | None => Err IndexError
  end.

Definition same_shape {R} (m m' : list (list R)) : bool :=
  (length m =? length m')
  && forallb (fun p => length (fst p) =? length (snd p)) (combine m m').

(** [torch.stack] of matrices along a new leading axis: it refuses an empty
    list and matrices of different shapes. *)
Definition stack {R} (l : list (list (list R))) : result (list (list (list R))) :=
  match l with
  | [] => Err RuntimeError
  | m :: _ => if forallb (same_shape m) l then Ok l else Err RuntimeError
  end.

(** *** class StackedLSTM *)

Module StackedLSTM.
Section Def.
Context {R G : Type} `{Scalar R} `{Sampler G R}.

Record t := {
  dropout : nn.Dropout R;
  num_layers : nat;
  layers : list (nn.LSTMCell R)
}.

(** The loop of [__init__]: layer [i] gets a fresh cell, the first one of
    width [input_size], the others of width [hidden_size]. *)
Fixpoint build_layers (kernels : nat -> list R -> list R * list R -> nat -> R * R)
         (idx : list nat) (input_size hidden_size : nat) : list (nn.LSTMCell R) :=
  match idx with
  | [] => []
  | i :: rest =>
      {| nn.lc_input_size := input_size; nn.lc_hidden_size := hidden_size;
         nn.lc_kernel := kernels i |}
      :: build_layers kernels rest hidden_size hidden_size
  end.

Definition __init__ (num_layers input_size hidden_size : nat) (dropout : R)
           (kernels : nat -> list R -> list R * list R -> nat -> R * R) : t :=
  {| dropout := {| nn.drop_p := dropout; nn.drop_training := true |};
     num_layers := num_layers;
     layers := build_layers kernels (seq 0 num_layers) input_size hidden_size |}.

(** The body of [for i, layer in enumerate(self.layers)]. *)
Fixpoint loop (self : t) (h_0 c_0 : list (list (list R)))
         (ls : list (nn.LSTMCell R)) (i : nat) (input : list (list R))
         (h_1 c_1 : list (list (list R)))
  : M R G (list (list R) * (list (list (list R)) * list (list (list R)))) :=
  match ls with
  | [] => ret (input, (h_1, c_1))
  | layer :: rest =>
      h_0_i <- lift (index h_0 i) ;;
      c_0_i <- lift (index c_0 i) ;;
      ' (h_1_i, c_1_i) <- lift (nn.LSTMCell_forward layer input h_0_i c_0_i) ;;
      input <- (if negb (i + 1 =? num_layers self)
                then nn.Dropout_forward (dropout self) h_1_i
                else ret h_1_i) ;;
      loop self h_0 c_0 rest (i + 1) input (h_1 ++ [h_1_i]) (c_1 ++ [c_1_i])
  end.

(** A GRU state tensor in place of the pair: [h_0, c_0 = hidden] unpacks a
    tensor of exactly two layers into its two matrices, and is a
    [ValueError] for any other number of layers.  The first layer is then
    handed the vectors [h_0[0]] and [c_0[0]] for its state, which the cell
    refuses; without layers the loop is skipped and [torch.stack] refuses
    the empty list. *)
Definition forward (self : t) (input : list (list R)) (hidden : State R)
  : M R G (list (list R) * State R) :=
  match hidden with
  | StLSTM h_0 c_0 =>
      ' (input, (h_1, c_1)) <- loop self h_0 c_0 (layers self) 0 input [] [] ;;
      h_1 <- lift (stack h_1) ;;
      c_1 <- lift (stack c_1) ;;
      ret (input, StLSTM h_1 c_1)
  | StGRU [h_0; c_0] =>
      match layers self with
      | [] => lift (Err RuntimeError)
      | layer :: _ =>
          hx <- lift (index h_0 0) ;;
          _ <- lift (index c_0 0) ;;
          lift (Err (nn.LSTMCell_vector_state layer input hx))
      end
  | StGRU _ => lift (Err ValueError)
  end.

Definition eval (self : t) : t :=
  {| dropout := nn.Dropout_eval (dropout self);
     num_layers := num_layers self;
     layers := layers self |}.
End Def.
Arguments t : clear implicits.
End StackedLSTM.

(** *** class StackedGRU *)

Module StackedGRU.
Section Def.
Context {R G : Type} `{Scalar R} `{Sampler G R}.

Record t := {
  dropout : nn.Dropout R;
  num_layers : nat;
  layers : list (nn.GRUCell R)
}.

Fixpoint build_layers (kernels : nat -> list R -> list R -> nat -> R)
         (idx : list nat) (input_size hidden_size : nat) : list (nn.GRUCell R) :=
  match idx with
  | [] => []
  | i :: rest =>
      {| nn.gc_input_size := input_size; nn.gc_hidden_size := hidden_size;
         nn.gc_kernel := kernels i |}
      :: build_layers kernels rest hidden_size hidden_size
  end.

Definition __init__ (num_layers input_size hidden_size : nat) (dropout : R)
           (kernels : nat -> list R -> list R -> nat -> R) : t :=
  {| dropout := {| nn.drop_p := dropout; nn.drop_training := true |};
     num_layers := num_layers;
     layers := build_layers kernels (seq 0 num_layers) input_size hidden_size |}.

Fixpoint loop (self : t) (h_0 : list (list (list R)))
         (ls : list (nn.GRUCell R)) (i : nat) (input : list (list R))
         (h_1 : list (list (list R)))
  : M R G (list (list R) * list (list (list R))) :=
  match ls with
  | [] => ret (input, h_1)
  | layer :: rest =>
      h_0_i <- lift (index h_0 i) ;;
      h_1_i <- lift (nn.GRUCell_forward layer input h_0_i) ;;
      input <- (if negb (i + 1 =? num_layers self)
                then nn.Dropout_forward (dropout self) h_1_i
                else ret h_1_i) ;;
      loop self h_0 rest (i + 1) input (h_1 ++ [h_1_i])
  end.

(** An LSTM pair in place of the state tensor: [h_0[0]] is then the whole
    hidden tensor of the pair, three-dimensional, which the first cell
    refuses with [ValueError]; without layers the loop is skipped and
    [torch.stack] refuses the empty list. *)
Definition forward (self : t) (input : list (list R)) (hidden : State R)
  : M R G (list (list R) * State R) :=
  match hidden with
  | StGRU h_0 =>
      ' (input, h_1) <- loop self h_0 (layers self) 0 input [] ;;
      h_1 <- lift (stack h_1) ;;
      ret (input, StGRU h_1)
  | StLSTM _ _ =>
      match layers self with
      | [] => lift (Err RuntimeError)
      | _ :: _ => lift (Err ValueError)
      end
  end.

Definition eval (self : t) : t :=
  {| dropout := nn.Dropout_eval (dropout self);
     num_layers := num_layers self;
     layers := layers self |}.
End Def.
Arguments t : clear implicits.
End StackedGRU.

(** *** The attention mechanisms of the [models] package *)

Module models.
Section Def.
Context {R : Type}.

(** What the decoder hands to an attention mechanism next to its own output:
    the embedded input tokens, or the encoder's convolutional context. *)
Inductive context :=
| CtxEmbs (embs : list (list R))
| CtxConv (conv : list (list (list R))).

(** Modelled from the spec: the classes [bahdanau_attention],
    [luong_attention] and [luong_gate_attention] are not in the source.  The
    specification gives their contract,
    [attend(decoder_output, context) -> (attended_output, attention_weights)],
    and treats them as opaque; a mechanism is a function of that type, which
    may fail. *)
Record Attention := {
  attend : list (list R) -> context -> result (list (list R) * list (list R))
}.

(** The three constructors, by the arguments the decoder calls them with. *)
Record t := {
  bahdanau_attention : nat -> nat -> nat -> Attention;
  luong_attention : nat -> nat -> nat -> Attention;
  luong_gate_attention : nat -> nat -> Attention
}.
End Def.
Arguments context : clear implicits.
Arguments Attention : clear implicits.
Arguments t : clear implicits.
End models.

(** *** class rnn_encoder *)

Module rnn_encoder.
Section Def.
Context {R G : Type} `{Scalar R} `{Sampler G R}.

(** [self.rnn] is an [nn.GRU] or an [nn.LSTM]. *)
Inductive RNN :=
| RnnGRU (g : nn.GRU R)
| RnnLSTM (l : nn.LSTM R).

Record t := {
  embedding : nn.Embedding R;
  hidden_size : nat;
  config : Config.t R;
  rnn : RNN;
  dconv : list (nn.layer R);
  linear : nn.Linear R;
  glu : nn.GLU
}.

(** The values the parameters of a new encoder start from (torch draws them
    at random; training replaces them). *)
Record weights := {
  w_embedding : nat -> nat -> R;
  w_gru : nat -> bool -> list R -> list R -> nat -> R;
  w_lstm : nat -> bool -> list R -> list R * list R -> nat -> R * R;
  w_conv : nat -> nat -> nat -> nat -> R;
  b_conv : nat -> nat -> R;
  w_linear : nat -> nat -> R;
  b_linear : nat -> R
}.

(** [nn.Conv1d(hidden_size, hidden_size, kernel_size=3, padding=1, dilation=d)] *)
Definition dconv_conv (config : Config.t R) (w : weights) (d : nat) : nn.Conv1d R :=
  {| nn.in_channels := Config.hidden_size config;
     nn.out_channels := Config.hidden_size config;
     nn.kernel_size := 3;
     nn.padding := 1;
     nn.dilation := d;
     nn.conv_weight := w_conv w d;
     nn.conv_bias := b_conv w d |}.

Definition __init__ (config : Config.t R) (embedding : option (nn.Embedding R))
           (w : weights) : t :=
  {| embedding :=
       match embedding with
       | Some e => e
       | None => {| nn.num_embeddings := Config.src_vocab_size config;
                    nn.embedding_dim := Config.emb_size config;
                    nn.emb_weight := w_embedding w |}
       end;
     hidden_size := Config.hidden_size config;
     config := config;
     rnn :=
       if String.eqb (Config.cell config) "gru"
       then RnnGRU {| nn.gru_input_size := Config.emb_size config;
                      nn.gru_hidden_size := Config.hidden_size config;
                      nn.gru_num_layers := Config.enc_num_layers config;
                      nn.gru_dropout := Config.dropout config;
                      nn.gru_bidirectional := Config.bidirectional config;
                      nn.gru_training := true;
                      nn.gru_cell := w_gru w |}
       else RnnLSTM {| nn.lstm_input_size := Config.emb_size config;
                       nn.lstm_hidden_size := Config.hidden_size config;
                       nn.lstm_num_layers := Config.enc_num_layers config;
                       nn.lstm_dropout := Config.dropout config;
                       nn.lstm_bidirectional := Config.bidirectional config;
                       nn.lstm_training := true;
                       nn.lstm_cell := w_lstm w |};
     dconv :=
       [ nn.Conv (dconv_conv config w 1); nn.SELU;
         nn.AlphaDropout (rlit (QArith_base.Qmake 5 100)) true;
         nn.Conv (dconv_conv config w 2); nn.SELU;
         nn.AlphaDropout (rlit (QArith_base.Qmake 5 100)) true;
         nn.Conv (dconv_conv config w 3); nn.SELU;
         nn.AlphaDropout (rlit (QArith_base.Qmake 5 100)) true ];
     linear := {| nn.in_features := 2 * Config.hidden_size config;
                  nn.out_features := 2 * Config.hidden_size config;
                  nn.lin_weight := w_linear w;
                  nn.lin_bias := b_linear w |};
     glu := {| nn.glu_dim := (-1)%Z |} |}.

(** [outputs, state = self.rnn(embeds)] *)
Definition rnn_forward (m : RNN) (xs : list (list (list R)))
  : M R G (list (list (list R)) * State R) :=
  match m with
  | RnnGRU g => ' (outputs, h_n) <- nn.GRU_forward g xs ;; ret (outputs, StGRU h_n)
  | RnnLSTM l =>
      ' (outputs, (h_n, c_n)) <- nn.LSTM_forward l xs ;; ret (outputs, StLSTM h_n c_n)
  end.

(** [outputs[:, :, :hidden_size] + outputs[:, :, hidden_size:]] *)
Definition fold_directions (hidden_size : nat) (outputs : list (list (list R)))
  : result (list (list (list R))) :=
  mapR (mapR (fun v => vadd (firstn hidden_size v) (skipn hidden_size v))) outputs.

(** The state handed to the decoder.  [__init__] makes [self.rnn] a GRU
    exactly when [config.cell] is ['gru']; the two other combinations of
    option and state are outside the model and reported as a [TypeError]. *)
Definition reduce_state (config : Config.t R) (state : State R) : result (State R) :=
  if String.eqb (Config.cell config) "gru"
  then match state with
       | StGRU h => Ok (StGRU (firstn (Config.dec_num_layers config) h))
       | StLSTM _ _ => Err TypeError
       end
  else match state with
       | StLSTM h c => Ok (StLSTM (slice_step2 h) (slice_step2 c))
       | StGRU _ => Err TypeError
       end.

Definition forward (self : t) (inputs : list (list nat)) (lengths : list nat)
  : M R G (list (list (list R)) * State R * list (list (list R))) :=
  e <- lift (mapR (mapR (nn.Embedding_lookup (embedding self))) inputs) ;;
  embs <- lift (pack e lengths) ;;
  let embeds := fst (unpack embs) in
  ' (outputs, state) <- rnn_forward (rnn self) embeds ;;
  outputs <- (if Config.bidirectional (config self)
              then lift (fold_directions (hidden_size self) outputs)
              else ret outputs) ;;
  let conv := map (transpose rzero) (transpose [] outputs) in
  conv <- nn.Sequential_forward (dconv self) conv ;;
  let conv := map (transpose rzero) conv in
  state <- lift (reduce_state (config self) state) ;;
  ret (outputs, state, conv).

(** [self.eval()]: every submodule that carries a mode leaves training. *)
Definition eval (self : t) : t :=
  {| embedding := embedding self;
     hidden_size := hidden_size self;
     config := config self;
     rnn := match rnn self with
            | RnnGRU g => RnnGRU (nn.GRU_eval g)
            | RnnLSTM l => RnnLSTM (nn.LSTM_eval l)
            end;
     dconv := map nn.layer_eval (dconv self);
     linear := linear self;
     glu := glu self |}.

(** The same encoder with other [linear] and [glu] submodules. *)
Definition with_linear_glu (self : t) (lin : nn.Linear R) (g : nn.GLU) : t :=
  {| embedding := embedding self;
     hidden_size := hidden_size self;
     config := config self;
     rnn := rnn self;
     dconv := dconv self;
     linear := lin;
     glu := g |}.
End Def.
Arguments t : clear implicits.
Arguments RNN : clear implicits.
Arguments weights : clear implicits.
End rnn_encoder.

(** *** class rnn_decoder *)

Module rnn_decoder.
Section Def.
Context {R G : Type} `{Scalar R} `{Sampler G R}.

(** An attribute of a Python object is bound to a value or missing. *)
Inductive attribute (A : Type) :=
| Missing
| Bound (v : A).
Arguments Missing {A}.

(** [self.rnn] is a [StackedGRU] or a [StackedLSTM]. *)
Inductive RNN :=
| RnnGRU (g : StackedGRU.t R)
| RnnLSTM (l : StackedLSTM.t R).

Record t := {
  embedding : nn.Embedding R;
  rnn : RNN;
  linear : nn.Linear R;
  attention : attribute (option (models.Attention R));
  hidden_size : nat;
  dropout : nn.Dropout R;
  config : Config.t R
}.

Record weights := {
  w_embedding : nat -> nat -> R;
  w_gru : nat -> list R -> list R -> nat -> R;
  w_lstm : nat -> list R -> list R * list R -> nat -> R * R;
  w_linear : nat -> nat -> R;
  b_linear : nat -> R
}.

Definition __init__ (pkg : models.t R) (config : Config.t R)
           (embedding : option (nn.Embedding R)) (use_attention : bool)
           (w : weights) : t :=
  {| embedding :=
       match embedding with
       | Some e => e
       | None => {| nn.num_embeddings := Config.tgt_vocab_size config;
                    nn.embedding_dim := Config.emb_size config;
                    nn.emb_weight := w_embedding w |}
       end;
     rnn :=
       if String.eqb (Config.cell config) "gru"
       then RnnGRU (StackedGRU.__init__ (Config.dec_num_layers config)
                      (Config.emb_size config) (Config.hidden_size config)
                      (Config.dropout config) (w_gru w))
       else RnnLSTM (StackedLSTM.__init__ (Config.dec_num_layers config)
                       (Config.emb_size config) (Config.hidden_size config)
                       (Config.dropout config) (w_lstm w));
     linear := {| nn.in_features := Config.hidden_size config;
                  nn.out_features := Config.tgt_vocab_size config;
                  nn.lin_weight := w_linear w;
                  nn.lin_bias := b_linear w |};
     attention :=
       if negb use_attention || String.eqb (Config.attention config) "None"
       then Bound None
       else if String.eqb (Config.attention config) "bahdanau"
       then Bound (Some (models.bahdanau_attention pkg (Config.hidden_size config)
                           (Config.emb_size config) (Config.pool_size config)))
       else if String.eqb (Config.attention config) "luong"
       then Bound (Some (models.luong_attention pkg (Config.hidden_size config)
                           (Config.emb_size config) (Config.pool_size config)))
       else if String.eqb (Config.attention config) "luong_gate"
       then Bound (Some (models.luong_gate_attention pkg (Config.hidden_size config)
                           (Config.emb_size config)))
       else Missing;
     hidden_size := Config.hidden_size config;
     dropout := {| nn.drop_p := Config.dropout config; nn.drop_training := true |};
     config := config |}.

Definition rnn_forward (m : RNN) (embs : list (list R)) (state : State R)
  : M R G (list (list R) * State R) :=
  match m with
  | RnnGRU g => StackedGRU.forward g embs state
  | RnnLSTM l => StackedLSTM.forward l embs state
  end.

Definition compute_score (self : t) (hiddens : list (list R))
  : result (list (list R)) :=
  nn.Linear_forward (linear self) hiddens.

Definition forward (self : t) (input : list nat) (state : State R)
           (conv : list (list (list R)))
  : M R G (list (list R) * State R * option (list (list R))) :=
  embs <- lift (mapR (nn.Embedding_lookup (embedding self)) input) ;;
  ' (output, state) <- rnn_forward (rnn self) embs state ;;
  ' (output, attn_weights) <-
    match attention self with
    | Missing => lift (Err AttributeError)
    | Bound (Some a) =>
        if String.eqb (Config.attention (config self)) "luong_gate"
        then ' (output, w) <- lift (models.attend a output (models.CtxConv conv)) ;;
             ret (output, Some w)
        else ' (output, w) <- lift (models.attend a output (models.CtxEmbs embs)) ;;
             ret (output, Some w)
    | Bound None => ret (output, None)
    end ;;
  output <- lift (compute_score self output) ;;
  ret (output, state, attn_weights).

Definition eval (self : t) : t :=
  {| embedding := embedding self;
     rnn := match rnn self with
            | RnnGRU g => RnnGRU (StackedGRU.eval g)
            | RnnLSTM l => RnnLSTM (StackedLSTM.eval l)
            end;
     linear := linear self;
     attention := attention self;
     hidden_size := hidden_size self;
     dropout := nn.Dropout_eval (dropout self);
     config := config self |}.
End Def.
Arguments t : clear implicits.
Arguments RNN : clear implicits.
Arguments weights : clear implicits.
Arguments Missing {A}.
End rnn_decoder.

(** ** What the specification adds to the source *)

Section Driver.
Context {R G : Type} `{Scalar R} `{Sampler G R}.

(** Modelled from the spec: the external driver is not in the source.  It
    "owns the per-timestep loop calling [decode_step] repeatedly" and threads
    the running state "from one decoder call to the next"; the context is
    shared by all steps.  [tokens] holds the input tokens of the successive
    steps. *)
Fixpoint decode_steps (d : rnn_decoder.t R) (tokens : list (list nat))
         (state : State R) (conv : list (list (list R)))
  : M R G (list (list (list R) * State R * option (list (list R)))) :=
  match tokens with
  | [] => ret []
  | tok :: rest =>
      ' (scores, state', attn) <- rnn_decoder.forward d tok state conv ;;
      more <- decode_steps d rest state' conv ;;
      ret ((scores, state', attn) :: more)
  end.

(** Modelled from the spec: "running [encode] then feeding its
    initial_decoder_state into N sequential [decode_step] calls". *)
Definition encode_then_decode (e : rnn_encoder.t R) (d : rnn_decoder.t R)
           (inputs : list (list nat)) (lengths : list nat)
           (tokens : list (list nat))
  : M R G (list (list (list R)) * State R * list (list (list R))
           * list (list (list R) * State R * option (list (list R)))) :=
  ' (outputs, state, conv) <- rnn_encoder.forward e inputs lengths ;;
  steps <- decode_steps d tokens state conv ;;
  ret (outputs, state, conv, steps).

End Driver.

(** ** Shapes *)

Definition shape2 {A} (r c : nat) (m : list (list A)) : bool :=
  (length m =? r) && forallb (fun row => length row =? c) m.

Definition shape3 {A} (a b c : nat) (x : list (list (list A))) : bool :=
  (length x =? a) && forallb (shape2 b c) x.

(** The shape of a recurrent state, as [layers x batch x hidden]. *)
Definition state_shape {R} (l b h : nat) (s : State R) : bool :=
  match s with
  | StGRU x => shape3 l b h x
  | StLSTM x c => shape3 l b h x && shape3 l b h c
  end.

(** Token ids within a vocabulary of [n] entries. *)
Definition ids_in_range (n : nat) (inputs : list (list nat)) : bool :=
  forallb (forallb (fun id => id <? n)) inputs.

(** A length list that [pack] accepts for a batch padded to [t] steps. *)
Definition valid_lengths (t b : nat) (lengths : list nat) : bool :=
  (length lengths =? b) && negb (b =? 0)
  && negb (existsb (fun l => l =? 0) lengths)
  && sorted_decreasing lengths
  && (hd 0 lengths <=? t).


(** Modelled from the spec: the attention mechanisms are not in the source.
    The specification has the attention weights be "a per-step distribution
    (or score vector) over input positions", and the attended output take
    the place of the decoder output before the projection to scores.  So a
    mechanism attends over the context, at a batch of [b] examples, the
    hidden width [h] it was built for and a context of [tc] positions per
    example, when on every decoder output [b x h] and context [b x tc x h]
    it returns an output [b x h] and weights [b x tc].  Nothing is asked of
    it at other sizes. *)
Definition attends_over_context {R} (a : models.Attention R) (b h tc : nat) : Prop :=
  forall output conv,
    shape2 b h output = true -> shape3 b tc h conv = true ->
    exists o wts,
      models.attend a output (models.CtxConv conv) = Ok (o, wts)
      /\ shape2 b h o = true /\ shape2 b tc wts = true.

(** The configuration of the end-to-end scenario of the specification:
    [hidden_size=8], [enc_num_layers=2], [dec_num_layers=2],
    [bidirectional=True], [cell=gru], [attention=luong_gate]; the options
    the scenario leaves open are parameters. *)
Definition scenario_config {R} (emb_size src_vocab_size tgt_vocab_size pool_size : nat)
           (dropout : R) : Config.t R :=
  {| Config.cell := "gru"; Config.emb_size := emb_size; Config.hidden_size := 8;
     Config.enc_num_layers := 2; Config.dec_num_layers := 2;
     Config.dropout := dropout; Config.bidirectional := true;
     Config.src_vocab_size := src_vocab_size;
     Config.tgt_vocab_size := tgt_vocab_size;
     Config.attention := "luong_gate"; Config.pool_size := pool_size |}.

(** ** A small concrete instance

    Integers for elements, so that runs can be evaluated; the generator is a
    counter and a draw zeroes every other element. *)

Module Sample.
#[export] Instance Z_scalar : Scalar Z :=
  {| rzero := 0%Z; radd := Z.add; rmul := Z.mul; selu := fun x => x;
     rlit := fun q => QArith_base.Qnum q |}.

#[export] Instance counter_sampler : Sampler nat Z :=
  {| dropout_elem := fun _ x g => (if Nat.even g then 0%Z else x, S g);
     alpha_dropout_elem := fun _ x g => (if Nat.even g then 0%Z else x, S g) |}.

Definition w0 : world Z nat := {| gen := 0; dropout_calls := [] |}.

Definition enc_weights : rnn_encoder.weights Z :=
  {| rnn_encoder.w_embedding := fun id j => Z.of_nat (id + j);
     rnn_encoder.w_gru := fun _ _ x h j => (nth j x 0 + nth j h 0 + 1)%Z;
     rnn_encoder.w_lstm := fun _ _ x hc j =>
        ((nth j x 0 + nth j (fst hc) 0 + 1)%Z, (nth j (snd hc) 0 + 1)%Z);
     rnn_encoder.w_conv := fun _ _ _ _ => 1%Z;
     rnn_encoder.b_conv := fun _ _ => 0%Z;
     rnn_encoder.w_linear := fun _ _ => 1%Z;
     rnn_encoder.b_linear := fun _ => 0%Z |}.

Definition dec_weights : rnn_decoder.weights Z :=
  {| rnn_decoder.w_embedding := fun id j => Z.of_nat (id + j);
     rnn_decoder.w_gru := fun _ x h j => (nth j x 0 + nth j h 0 + 1)%Z;
     rnn_decoder.w_lstm := fun _ x hc j =>
        ((nth j x 0 + nth j (fst hc) 0 + 1)%Z, (nth j (snd hc) 0 + 1)%Z);
     rnn_decoder.w_linear := fun _ _ => 1%Z;
     rnn_decoder.b_linear := fun _ => 0%Z |}.

(** An attention that averages nothing: the output passes through, every
    context position gets weight one. *)
Definition uniform_attention : models.Attention Z :=
  {| models.attend := fun output ctx =>
       match ctx with
       | models.CtxEmbs embs => Ok (output, map (fun _ => [1%Z]) output)
       | models.CtxConv conv => Ok (output, map (map (fun _ => 1%Z)) conv)
       end |}.

Definition pkg : models.t Z :=
  {| models.bahdanau_attention := fun _ _ _ => uniform_attention;
     models.luong_attention := fun _ _ _ => uniform_attention;
     models.luong_gate_attention := fun _ _ => uniform_attention |}.

(** An attention built for one hidden width, as a mechanism with learned
    layers of that width is: the output passes through and every context
    position gets weight one, but a decoder output or a context of another
    width, or a context for another number of examples, is refused. *)
Definition sized_attention (hidden : nat) : models.Attention Z :=
  {| models.attend := fun output ctx =>
       if forallb (fun v => length v =? hidden) output
       then match ctx with
            | models.CtxEmbs embs => Ok (output, map (fun _ => [1%Z]) output)
            | models.CtxConv conv =>
                if (length conv =? length output)
                   && forallb (forallb (fun v => length v =? hidden)) conv
                then Ok (output, map (map (fun _ => 1%Z)) conv)
                else Err RuntimeError
            end
       else Err RuntimeError |}.

Definition sized_pkg : models.t Z :=
  {| models.bahdanau_attention := fun hidden _ _ => sized_attention hidden;
     models.luong_attention := fun hidden _ _ => sized_attention hidden;
     models.luong_gate_attention := fun hidden _ => sized_attention hidden |}.

(** One layer, one direction, width one. *)
Definition tiny (cell attention : string) : Config.t Z :=
  {| Config.cell := cell; Config.emb_size := 1; Config.hidden_size := 1;
     Config.enc_num_layers := 1; Config.dec_num_layers := 1;
     Config.dropout := 0%Z; Config.bidirectional := false;
     Config.src_vocab_size := 10; Config.tgt_vocab_size := 5;
     Config.attention := attention; Config.pool_size := 1 |}.

(** The end-to-end scenario with three-feature embeddings and small
    vocabularies. *)
Definition scenario : Config.t Z := scenario_config 3 10 5 1 0%Z.

(** A batch of [b] examples padded to [t] steps, every token [tok]. *)
Definition batch (t b tok : nat) : list (list nat) := repeat (repeat tok b) t.

(** Two batches of 2 examples padded to 7 steps, of true lengths 7 and 1:
    they agree within the lengths and differ in the padding of the second
    example. *)
Definition ragged : list (list nat) :=
  [[1; 2]; [1; 9]; [1; 9]; [1; 9]; [1; 9]; [1; 9]; [1; 9]].


(** A one-layer, one-direction GRU encoder in evaluation mode, and the GRU
    inside it. *)
Definition tiny_encoder : rnn_encoder.t Z :=
  rnn_encoder.eval (rnn_encoder.__init__ (tiny "gru" "None") None enc_weights).


(** A one-layer bidirectional LSTM encoder, in training mode. *)
Definition bi_encoder : rnn_encoder.t Z :=
  rnn_encoder.__init__
    {| Config.cell := "lstm"; Config.emb_size := 1; Config.hidden_size := 1;
       Config.enc_num_layers := 1; Config.dec_num_layers := 1;
       Config.dropout := 0%Z; Config.bidirectional := true;
       Config.src_vocab_size := 10; Config.tgt_vocab_size := 5;
       Config.attention := "None"; Config.pool_size := 1 |}
    None enc_weights.

(** Two layers in the encoder and in the decoder, one direction, width
    one, no attention. *)
Definition deep (cell : string) : Config.t Z :=
  {| Config.cell := cell; Config.emb_size := 1; Config.hidden_size := 1;
     Config.enc_num_layers := 2; Config.dec_num_layers := 2;
     Config.dropout := 0%Z; Config.bidirectional := false;
     Config.src_vocab_size := 10; Config.tgt_vocab_size := 5;
     Config.attention := "None"; Config.pool_size := 1 |}.

(** Width one and no attention, with the cell, the layer counts and the
    directions as given. *)
Definition layered (cell : string) (enc dec : nat) (bidirectional : bool)
  : Config.t Z :=
  {| Config.cell := cell; Config.emb_size := 1; Config.hidden_size := 1;
     Config.enc_num_layers := enc; Config.dec_num_layers := dec;
     Config.dropout := 0%Z; Config.bidirectional := bidirectional;
     Config.src_vocab_size := 10; Config.tgt_vocab_size := 5;
     Config.attention := "None"; Config.pool_size := 1 |}.

(** The weights of [enc_weights] with other GRU cells above the first
    layer. *)
Definition enc_weights_deep : rnn_encoder.weights Z :=
  {| rnn_encoder.w_embedding := rnn_encoder.w_embedding enc_weights;
     rnn_encoder.w_gru := fun l reverse x h j =>
        match l with
        | 0 => rnn_encoder.w_gru enc_weights 0 reverse x h j
        | _ => (2 * nth j x 0 + 5)%Z
        end;
     rnn_encoder.w_lstm := rnn_encoder.w_lstm enc_weights;
     rnn_encoder.w_conv := rnn_encoder.w_conv enc_weights;
     rnn_encoder.b_conv := rnn_encoder.b_conv enc_weights;
     rnn_encoder.w_linear := rnn_encoder.w_linear enc_weights;
     rnn_encoder.b_linear := rnn_encoder.b_linear enc_weights |}.

(** The configuration [tiny "gru" "None"] with a decoder of no layer. *)
Definition layerless : Config.t Z :=
  {| Config.cell := "gru"; Config.emb_size := 1; Config.hidden_size := 1;
     Config.enc_num_layers := 1; Config.dec_num_layers := 0;
     Config.dropout := 0%Z; Config.bidirectional := false;
     Config.src_vocab_size := 10; Config.tgt_vocab_size := 5;
     Config.attention := "None"; Config.pool_size := 1 |}.

(** An embedding table of 10 entries of width 2. *)
Definition wide_table : nn.Embedding Z :=
  {| nn.num_embeddings := 10; nn.embedding_dim := 2;
     nn.emb_weight := fun id j => Z.of_nat (id + j) |}.

(** What a run returned, or [d] when it failed. *)
Definition got {A} (d : A) (r : result A) : A :=
  match r with
  | Ok a => a
  | Err _ => d
  end.

Definition tiny_run
  : list (list (list Z)) * State Z * list (list (list Z)) * world Z nat :=
  Eval vm_compute in
    got (([], StGRU [], []), w0) (rnn_encoder.forward tiny_encoder ragged [7; 1] w0).

Definition bi_run
  : list (list (list Z)) * State Z * list (list (list Z)) * world Z nat :=
  Eval vm_compute in
    got (([], StGRU [], []), w0) (rnn_encoder.forward bi_encoder ragged [7; 1] w0).
End Sample.

(** * Properties *)

(** ** The monad and the list helpers *)

Section MonadFacts.
Context {R G : Type}.

Lemma bind_ok A B (c : M R G A) (k : A -> M R G B) w r :
  bind c k w = Ok r -> exists a w1, c w = Ok (a, w1) /\ k a w1 = Ok r.
Proof.
  unfold bind. destruct (c w) as [[a w1]|e]; [|discriminate].
  intros Hk. exists a, w1. split; [reflexivity|exact Hk].
Qed.

Lemma bind_step A B (c : M R G A) (k : A -> M R G B) w a w1 :
  c w = Ok (a, w1) -> bind c k w = k a w1.
Proof. unfold bind. intros ->. reflexivity. Qed.

Lemma bind_err A B (c : M R G A) (k : A -> M R G B) w e :
  c w = Err e -> bind c k w = Err e.
Proof. unfold bind. intros ->. reflexivity. Qed.

Lemma lift_ok A (r : result A) (w w' : world R G) a :
  lift r w = Ok (a, w') -> r = Ok a /\ w' = w.
Proof.
  unfold lift. destruct r; [|discriminate].
  intros [= -> ->]. split; reflexivity.
Qed.

Lemma ret_ok A (a b : A) (w w' : world R G) :
  ret a w = Ok (b, w') -> b = a /\ w' = w.
Proof. unfold ret. intros [= -> ->]. split; reflexivity. Qed.
End MonadFacts.

(** Peel the outermost bind, lift or ret of a run known to succeed. *)
Ltac peel H :=
  match type of H with
  | bind _ _ _ = Ok _ =>
      let a := fresh "a" in
      let w := fresh "w" in
      let Hc := fresh "Hc" in
      apply bind_ok in H; destruct H as (a & w & Hc & H)
  | lift _ _ = Ok _ =>
      let E := fresh "E" in
      let Ew := fresh "Ew" in
      apply lift_ok in H; destruct H as [E Ew]
  | ret _ _ = Ok _ =>
      let E := fresh "E" in
      let Ew := fresh "Ew" in
      apply ret_ok in H; destruct H as [E Ew]
  end.

(** The final [ret] of a run known to succeed. *)
Ltac peel_ret H := unfold ret in H; inversion H; clear H; subst.

Lemma slice_step2_nth_error A (l : list A) :
  forall i, nth_error (slice_step2 l) i = nth_error l (2 * i).
Proof.
  assert (Hn : forall n (l : list A), length l <= n ->
                 forall i, nth_error (slice_step2 l) i = nth_error l (2 * i)).
  { induction n as [|n IH]; intros [|a [|b k]] Hlen [|i]; simpl in *;
      try reflexivity; try lia.
    - destruct i; reflexivity.
    - rewrite IH by lia.
      replace (i + S (i + 0)) with (S (i + (i + 0))) by lia. reflexivity. }
  exact (Hn (length l) l (le_n _)).
Qed.

Lemma slice_step2_length A (l : list A) :
  length (slice_step2 l) = Nat.div2 (S (length l)).
Proof.
  assert (Hn : forall n (l : list A), length l <= n ->
                 length (slice_step2 l) = Nat.div2 (S (length l))).
  { induction n as [|n IH]; intros [|a [|b k]] Hlen; simpl in *;
      try reflexivity; try lia.
    rewrite IH by lia. reflexivity. }
  exact (Hn (length l) l (le_n _)).
Qed.

Lemma div2_succ_double n : Nat.div2 (S (2 * n)) = n.
Proof.
  induction n as [|n IH]; [reflexivity|].
  replace (S (2 * S n)) with (S (S (S (2 * n)))) by lia.
  simpl Nat.div2 at 1. f_equal. exact IH.
Qed.

(** ** C10: the unused submodules of the encoder *)

Section EncoderUnused.
Context {R G : Type} `{Scalar R} `{Sampler G R}.

(** C10.  The encoder is built with a linear submodule from
    [2 * hidden_size] to [2 * hidden_size] features and a GLU submodule, and
    [forward] reads neither: two encoders that differ in nothing but those
    two submodules return the same outputs, state and context (and leave the
    same world) on every input. *)
Theorem encoder_forward_ignores_linear_glu :
  (forall (cfg : Config.t R) emb (w : rnn_encoder.weights R),
      nn.in_features (rnn_encoder.linear (rnn_encoder.__init__ cfg emb w))
      = 2 * Config.hidden_size cfg
      /\ nn.out_features (rnn_encoder.linear (rnn_encoder.__init__ cfg emb w))
         = 2 * Config.hidden_size cfg)
  /\ forall (e : rnn_encoder.t R) lin1 g1 lin2 g2 inputs lengths (w : world R G),
      rnn_encoder.forward (rnn_encoder.with_linear_glu e lin1 g1) inputs lengths w
      = rnn_encoder.forward (rnn_encoder.with_linear_glu e lin2 g2) inputs lengths w.
Proof.
  split.
  - intros cfg emb w. split; reflexivity.
  - intros e lin1 g1 lin2 g2 inputs lengths w. reflexivity.
Qed.
End EncoderUnused.

(** ** C8 and C4: the attention attribute of the decoder *)

Section DecoderAttention.
Context {R G : Type} `{Scalar R} `{Sampler G R}.

Lemma init_attention_none (pkg : models.t R) cfg emb use_attention
      (w : rnn_decoder.weights R) :
  use_attention = false \/ Config.attention cfg = "None"%string ->
  rnn_decoder.attention (rnn_decoder.__init__ pkg cfg emb use_attention w)
  = rnn_decoder.Bound None.
Proof.
  intros [-> | Hnone]; simpl; [reflexivity|].
  rewrite Hnone, orb_true_r. reflexivity.
Qed.

Lemma init_attention_missing (pkg : models.t R) cfg emb
      (w : rnn_decoder.weights R) :
  Config.attention cfg <> "None"%string ->
  Config.attention cfg <> "bahdanau"%string ->
  Config.attention cfg <> "luong"%string ->
  Config.attention cfg <> "luong_gate"%string ->
  rnn_decoder.attention (rnn_decoder.__init__ pkg cfg emb true w)
  = rnn_decoder.Missing.
Proof.
  intros H1 H2 H3 H4. simpl.
  apply String.eqb_neq in H1, H2, H3, H4.
  rewrite H1, H2, H3, H4. reflexivity.
Qed.

(** C8.  A decoder built without attention ([use_attention] false, or the
    option the source spells ['None']), in training or in evaluation mode:
    on every input token, state and world, a step returns the same result
    whatever the context argument is, and when it returns, the attention
    weights are the sentinel [None]. *)
Theorem decoder_without_attention (pkg : models.t R) cfg emb use_attention
        (w : rnn_decoder.weights R) (evaluating : bool) :
  use_attention = false \/ Config.attention cfg = "None"%string ->
  let d0 := rnn_decoder.__init__ pkg cfg emb use_attention w in
  let d := if evaluating then rnn_decoder.eval d0 else d0 in
  forall input state conv conv' (world : world R G),
    rnn_decoder.forward d input state conv world
    = rnn_decoder.forward d input state conv' world
    /\ forall scores state' attn world',
        rnn_decoder.forward d input state conv world
        = Ok ((scores, state', attn), world') ->
        attn = None.
Proof.
  intros Hcfg d0 d input state conv conv' world.
  assert (Hatt : rnn_decoder.attention d = rnn_decoder.Bound None).
  { subst d. destruct evaluating; apply (init_attention_none _ _ _ _ Hcfg). }
  unfold rnn_decoder.forward. rewrite Hatt. split; [reflexivity|].
  intros scores state' attn world' Hrun.
  peel Hrun. peel Hrun. destruct a0 as [output st].
  peel Hrun. destruct a0 as [output' attn'].
  peel Hc1. injection E as _ Eattn.
  peel Hrun. peel Hrun. congruence.
Qed.

(** C4.  With an attention option that is none of ['None'], ['bahdanau'],
    ['luong'] and ['luong_gate'] (and [use_attention] left true),
    [__init__], which raises nothing, returns a decoder whose [attention]
    attribute was never assigned: attention is not disabled, and no error
    surfaces at construction.  Every [forward] call on that decoder fails,
    with [AttributeError] as soon as the recurrent step went through. *)
Theorem unrecognized_attention_fails_in_forward (pkg : models.t R) cfg emb
        (w : rnn_decoder.weights R) :
  Config.attention cfg <> "None"%string ->
  Config.attention cfg <> "bahdanau"%string ->
  Config.attention cfg <> "luong"%string ->
  Config.attention cfg <> "luong_gate"%string ->
  let d := rnn_decoder.__init__ pkg cfg emb true w in
  rnn_decoder.attention d = rnn_decoder.Missing
  /\ forall input state conv (world : world R G),
      (forall r, rnn_decoder.forward d input state conv world <> Ok r)
      /\ forall embs output state' world',
          mapR (nn.Embedding_lookup (rnn_decoder.embedding d)) input = Ok embs ->
          rnn_decoder.rnn_forward (rnn_decoder.rnn d) embs state world
          = Ok ((output, state'), world') ->
          rnn_decoder.forward d input state conv world = Err AttributeError.
Proof.
  intros H1 H2 H3 H4 d.
  assert (Hatt : rnn_decoder.attention d = rnn_decoder.Missing)
    by (apply init_attention_missing; assumption).
  split; [exact Hatt|].
  intros input state conv world. unfold rnn_decoder.forward. rewrite Hatt. split.
  - intros r Hrun.
    peel Hrun. peel Hrun. destruct a0 as [output st].
    peel Hrun. peel Hc1. discriminate.
  - intros embs output state' world' Hembs Hrnn.
    erewrite bind_step by (unfold lift; rewrite Hembs; reflexivity).
    erewrite bind_step by exact Hrnn. reflexivity.
Qed.
End DecoderAttention.

(** ** The stages of the encoder's forward pass *)

Section EncoderStages.
Context {R G : Type} `{Scalar R} `{Sampler G R}.

(** A run of [forward] that returns went through every stage. *)
Lemma encoder_forward_inv (e : rnn_encoder.t R) inputs lengths
      (w w' : world R G) outputs state conv :
  rnn_encoder.forward e inputs lengths w = Ok ((outputs, state, conv), w') ->
  exists emb embs raw rawstate w1 conv0,
    mapR (mapR (nn.Embedding_lookup (rnn_encoder.embedding e))) inputs = Ok emb
    /\ pack emb lengths = Ok embs
    /\ rnn_encoder.rnn_forward (rnn_encoder.rnn e) (fst (unpack embs)) w
       = Ok ((raw, rawstate), w1)
    /\ (if Config.bidirectional (rnn_encoder.config e)
        then rnn_encoder.fold_directions (rnn_encoder.hidden_size e) raw = Ok outputs
        else outputs = raw)
    /\ nn.Sequential_forward (rnn_encoder.dconv e)
         (map (transpose rzero) (transpose [] outputs)) w1 = Ok (conv0, w')
    /\ conv = map (transpose rzero) conv0
    /\ rnn_encoder.reduce_state (rnn_encoder.config e) rawstate = Ok state.
Proof.
  unfold rnn_encoder.forward. intros Hrun.
  peel Hrun. peel Hc. subst. rename a into emb.
  peel Hrun. peel Hc. subst. rename a into embs.
  peel Hrun. destruct a as [raw rawstate].
  peel Hrun. rename a into outs.
  peel Hrun. rename a into conv0.
  peel Hrun. peel Hc2. subst. peel Hrun.
  match goal with
  | Ht : (outputs, state, conv) = _ |- _ => injection Ht as -> -> ->
  end. subst.
  match goal with
  | Hf : (if _ then _ else _) ?wa = Ok (outs, ?wb) |- _ =>
      assert (Hfold : (if Config.bidirectional (rnn_encoder.config e)
                       then rnn_encoder.fold_directions
                              (rnn_encoder.hidden_size e) raw = Ok outs
                       else outs = raw) /\ wb = wa)
        by (destruct (Config.bidirectional (rnn_encoder.config e));
            peel Hf; subst; auto)
  end.
  destruct Hfold as [Hfold ->].
  exists emb, embs, raw, rawstate, w0, conv0.
  repeat split; assumption.
Qed.

End EncoderStages.

(** ** The loops of the stacked cells *)

Section StackedCells.
Context {R G : Type} `{Scalar R} `{Sampler G R}.

Lemma Dropout_forward_calls (m : nn.Dropout R) x (w w' : world R G) y :
  nn.Dropout_forward m x w = Ok (y, w') ->
  dropout_calls w' = dropout_calls w ++ [x].
Proof.
  unfold nn.Dropout_forward, bind, record_dropout.
  destruct (nn.drop_training m).
  - unfold draw. simpl. destruct (nn.dropout2 (nn.drop_p m) x (gen w)).
    intros [= _ <-]. reflexivity.
  - unfold ret. intros [= _ <-]. reflexivity.
Qed.

Lemma stack_ok (l l' : list (list (list R))) :
  stack l = Ok l' -> l' = l /\ l <> [].
Proof.
  unfold stack. destruct l as [|m l]; [discriminate|].
  destruct (forallb _ _); [|discriminate].
  intros [= <-]. split; [reflexivity|discriminate].
Qed.

Lemma last_default A (d d' : A) (l : list A) :
  l <> [] -> last l d = last l d'.
Proof.
  induction l as [|b l IH]; intros Hne; [contradiction|].
  destruct l as [|c l]; [reflexivity|].
  change (last (c :: l) d = last (c :: l) d'). apply IH. discriminate.
Qed.

Lemma last_cons_nonempty A (a d d' : A) (l : list A) :
  l <> [] -> last (a :: l) d = last l d'.
Proof.
  intros Hne. destruct l as [|b l]; [contradiction|].
  change (last (b :: l) d = last (b :: l) d'). apply last_default. discriminate.
Qed.

Lemma gru_build_layers_length kernels idx input_size hidden_size :
  length (StackedGRU.build_layers (R := R) kernels idx input_size hidden_size)
  = length idx.
Proof.
  revert input_size. induction idx as [|i idx IH]; intros input_size; simpl;
    [reflexivity | rewrite IH; reflexivity].
Qed.

Lemma lstm_build_layers_length kernels idx input_size hidden_size :
  length (StackedLSTM.build_layers (R := R) kernels idx input_size hidden_size)
  = length idx.
Proof.
  revert input_size. induction idx as [|i idx IH]; intros input_size; simpl;
    [reflexivity | rewrite IH; reflexivity].
Qed.

(** A state of the other kind never goes through. *)
Lemma StackedGRU_wrong_kind (self : StackedGRU.t R) input h c (w : world R G) r :
  StackedGRU.forward self input (StLSTM h c) w <> Ok r.
Proof.
  unfold StackedGRU.forward. destruct (StackedGRU.layers self); discriminate.
Qed.

Lemma StackedLSTM_wrong_kind (self : StackedLSTM.t R) input h (w : world R G) r :
  StackedLSTM.forward self input (StGRU h) w <> Ok r.
Proof.
  unfold StackedLSTM.forward.
  destruct h as [|h_0 [|c_0 [|x y]]]; try discriminate.
  destruct (StackedLSTM.layers self); [discriminate|].
  unfold bind, lift.
  destruct (index h_0 0); [|discriminate].
  destruct (index c_0 0); discriminate.
Qed.

(** The loop of [StackedGRU.forward], from layer [i] to the last one. *)
Lemma gru_loop_inv (self : StackedGRU.t R) h_0 :
  forall ls i input acc (w w' : world R G) out acc',
    i + length ls = StackedGRU.num_layers self ->
    StackedGRU.loop self h_0 ls i input acc w = Ok ((out, acc'), w') ->
    exists new,
      acc' = acc ++ new
      /\ length new = length ls
      /\ out = last new input
      /\ dropout_calls w' = dropout_calls w ++ removelast new
      /\ (forall layer, nth_error ls 0 = Some layer ->
          exists h0 h, nth_error h_0 i = Some h0 /\ nth_error new 0 = Some h
                       /\ nn.GRUCell_forward layer input h0 = Ok h)
      /\ (forall j layer, nth_error ls (S j) = Some layer ->
          exists hj x wa wb h0 h,
            nth_error new j = Some hj
            /\ nn.Dropout_forward (StackedGRU.dropout self) hj wa = Ok (x, wb)
            /\ nth_error h_0 (i + S j) = Some h0
            /\ nth_error new (S j) = Some h
            /\ nn.GRUCell_forward layer x h0 = Ok h).
Proof.
  induction ls as [|layer rest IH]; intros i input acc w w' out acc' Hn Hrun.
  - simpl in Hrun. peel Hrun. injection E as -> ->. subst.
    exists []. rewrite !app_nil_r.
    repeat split; try reflexivity; intros; discriminate.
  - simpl in Hrun, Hn.
    peel Hrun. peel Hc. rename a into h_0_i.
    peel Hrun. peel Hc. rename a into h_1_i. subst.
    peel Hrun. rename a into input'.
    assert (Hidx : nth_error h_0 i = Some h_0_i).
    { unfold index in E. destruct (nth_error h_0 i); [|discriminate].
      injection E as ->. reflexivity. }
    clear E. rename E0 into Hcell.
    destruct rest as [|layer2 rest2].
    + assert (Hlast : (i + 1 =? StackedGRU.num_layers self) = true)
        by (apply Nat.eqb_eq; simpl in Hn; lia).
      rewrite Hlast in Hc. simpl in Hc. peel Hc. subst.
      simpl in Hrun. peel Hrun. injection E as -> ->. subst.
      exists [h_1_i]. simpl.
      repeat split; try reflexivity.
      * rewrite app_nil_r. reflexivity.
      * intros l [= <-]. exists h_0_i, h_1_i. auto.
      * intros j l Hj. destruct j; discriminate.
    + assert (Hlast : (i + 1 =? StackedGRU.num_layers self) = false)
        by (apply Nat.eqb_neq; simpl in Hn; lia).
      rewrite Hlast in Hc. simpl in Hc.
      pose proof (Dropout_forward_calls _ _ _ Hc) as Hlog.
      apply IH in Hrun; [|simpl in *; lia].
      destruct Hrun as (new & -> & Hlen & -> & Hlog' & Hfirst & Hnext).
      exists (h_1_i :: new).
      assert (Hne : new <> []) by (destruct new; discriminate).
      repeat split.
      * rewrite <- app_assoc. reflexivity.
      * simpl. rewrite Hlen. reflexivity.
      * symmetry. apply last_cons_nonempty, Hne.
      * rewrite Hlog', Hlog, <- app_assoc. simpl.
        destruct new; [contradiction|reflexivity].
      * intros l [= <-]. exists h_0_i, h_1_i. auto.
      * intros j l Hj. destruct j as [|j].
        -- destruct (Hfirst _ Hj) as (h0' & h' & Hh0 & Hh & Hcell').
           exists h_1_i, input', w, w0, h0', h'.
           repeat split; simpl; try assumption; reflexivity.
        -- destruct (Hnext _ _ Hj) as (hj & x & wa & wb & h0' & h' & A1 & A2 & A3 & A4 & A5).
           exists hj, x, wa, wb, h0', h'.
           replace (i + S (S j)) with (i + 1 + S j) by lia.
           repeat split; simpl; assumption.
Qed.
(** The loop of [StackedLSTM.forward], from layer [i] to the last one. *)
Lemma lstm_loop_inv (self : StackedLSTM.t R) h_0 c_0 :
  forall ls i input acc accc (w w' : world R G) out acc' accc',
    i + length ls = StackedLSTM.num_layers self ->
    StackedLSTM.loop self h_0 c_0 ls i input acc accc w
    = Ok ((out, (acc', accc')), w') ->
    exists new newc,
      acc' = acc ++ new /\ accc' = accc ++ newc
      /\ length new = length ls /\ length newc = length ls
      /\ out = last new input
      /\ dropout_calls w' = dropout_calls w ++ removelast new
      /\ (forall layer, nth_error ls 0 = Some layer ->
          exists h0 c0 h c,
            nth_error h_0 i = Some h0 /\ nth_error c_0 i = Some c0
            /\ nth_error new 0 = Some h /\ nth_error newc 0 = Some c
            /\ nn.LSTMCell_forward layer input h0 c0 = Ok (h, c))
      /\ (forall j layer, nth_error ls (S j) = Some layer ->
          exists hj x wa wb h0 c0 h c,
            nth_error new j = Some hj
            /\ nn.Dropout_forward (StackedLSTM.dropout self) hj wa = Ok (x, wb)
            /\ nth_error h_0 (i + S j) = Some h0
            /\ nth_error c_0 (i + S j) = Some c0
            /\ nth_error new (S j) = Some h /\ nth_error newc (S j) = Some c
            /\ nn.LSTMCell_forward layer x h0 c0 = Ok (h, c)).
Proof.
  induction ls as [|layer rest IH];
    intros i input acc accc w w' out acc' accc' Hn Hrun.
  - simpl in Hrun. peel Hrun. injection E as -> -> ->. subst.
    exists [], []. rewrite !app_nil_r.
    repeat split; try reflexivity; intros; discriminate.
  - simpl in Hrun, Hn.
    peel Hrun. peel Hc. rename a into h_0_i.
    peel Hrun. peel Hc. rename a into c_0_i.
    peel Hrun. peel Hc. destruct a as [h_1_i c_1_i]. subst.
    peel Hrun. rename a into input'.
    assert (Hidx : nth_error h_0 i = Some h_0_i).
    { unfold index in E. destruct (nth_error h_0 i); [|discriminate].
      injection E as ->. reflexivity. }
    assert (Hidxc : nth_error c_0 i = Some c_0_i).
    { unfold index in E0. destruct (nth_error c_0 i); [|discriminate].
      injection E0 as ->. reflexivity. }
    clear E E0. rename E1 into Hcell.
    destruct rest as [|layer2 rest2].
    + assert (Hlast : (i + 1 =? StackedLSTM.num_layers self) = true)
        by (apply Nat.eqb_eq; simpl in Hn; lia).
      rewrite Hlast in Hc. simpl in Hc. peel Hc. subst.
      simpl in Hrun. peel Hrun. injection E as -> -> ->. subst.
      exists [h_1_i], [c_1_i]. simpl.
      repeat split; try reflexivity.
      * rewrite app_nil_r. reflexivity.
      * intros l [= <-]. exists h_0_i, c_0_i, h_1_i, c_1_i. auto.
      * intros j l Hj. destruct j; discriminate.
    + assert (Hlast : (i + 1 =? StackedLSTM.num_layers self) = false)
        by (apply Nat.eqb_neq; simpl in Hn; lia).
      rewrite Hlast in Hc. simpl in Hc.
      pose proof (Dropout_forward_calls _ _ _ Hc) as Hlog.
      apply IH in Hrun; [|simpl in *; lia].
      destruct Hrun
        as (new & newc & -> & -> & Hlen & Hlenc & -> & Hlog' & Hfirst & Hnext).
      exists (h_1_i :: new), (c_1_i :: newc).
      assert (Hne : new <> []) by (destruct new; discriminate).
      repeat split.
      * rewrite <- app_assoc. reflexivity.
      * rewrite <- app_assoc. reflexivity.
      * simpl. rewrite Hlen. reflexivity.
      * simpl. rewrite Hlenc. reflexivity.
      * symmetry. apply last_cons_nonempty, Hne.
      * rewrite Hlog', Hlog, <- app_assoc. simpl.
        destruct new; [contradiction|reflexivity].
      * intros l [= <-]. exists h_0_i, c_0_i, h_1_i, c_1_i. auto.
      * intros j l Hj. destruct j as [|j].
        -- destruct (Hfirst _ Hj) as (h0' & c0' & h' & c' & B1 & B2 & B3 & B4 & B5).
           exists h_1_i, input', w, w0, h0', c0', h', c'.
           repeat split; simpl; try assumption; reflexivity.
        -- destruct (Hnext _ _ Hj)
             as (hj & x & wa & wb & h0' & c0' & h' & c' & A1 & A2 & A3 & A4 & A5 & A6 & A7).
           exists hj, x, wa, wb, h0', c0', h', c'.
           replace (i + S (S j)) with (i + 1 + S j) by lia.
           repeat split; simpl; assumption.
Qed.

End StackedCells.

(** ** Shapes of nested lists *)

(** A matrix of [r] rows of width [c], a tensor of [a] matrices [b x c]. *)
Abbreviation Mat r c m :=
  (length m = r /\ Forall (fun v => length v = c) m).
Abbreviation Ten a b c x :=
  (length x = a
   /\ Forall (fun m => length m = b /\ Forall (fun v => length v = c) m) x).

Section ShapeFacts.
Context {A B C : Type}.

Lemma shape2_true (r c : nat) (m : list (list A)) :
  shape2 r c m = true <-> Mat r c m.
Proof.
  unfold shape2. rewrite andb_true_iff, Nat.eqb_eq, forallb_forall, Forall_forall.
  split; intros [H1 H2]; (split; [exact H1|]); intros v Hv;
    specialize (H2 v Hv); apply Nat.eqb_eq; exact H2.
Qed.

Lemma shape3_true (a b c : nat) (x : list (list (list A))) :
  shape3 a b c x = true <-> Ten a b c x.
Proof.
  unfold shape3. rewrite andb_true_iff, Nat.eqb_eq, forallb_forall, Forall_forall.
  split; intros [H1 H2]; (split; [exact H1|]); intros m Hm;
    specialize (H2 m Hm); apply shape2_true; exact H2.
Qed.

Lemma Forall_nth_default (P : A -> Prop) (l : list A) (d : A) i :
  Forall P l -> i < length l -> P (nth i l d).
Proof.
  intros HP Hi. rewrite Forall_forall in HP. apply HP, nth_In, Hi.
Qed.

Lemma Forall_firstn_keep (P : A -> Prop) n (l : list A) :
  Forall P l -> Forall P (firstn n l).
Proof.
  intros HP. revert n. induction HP as [|a l Ha HP IH]; intros [|n]; simpl;
    constructor; auto.
Qed.

Lemma Forall_repeat (P : A -> Prop) (a : A) n : P a -> Forall P (repeat a n).
Proof. intros Ha. induction n; simpl; constructor; assumption. Qed.

Lemma Forall_seq_map (P : B -> Prop) (f : nat -> B) s n :
  (forall i, s <= i < s + n -> P (f i)) -> Forall P (map f (seq s n)).
Proof.
  intros Hf. apply Forall_forall. intros b Hb.
  apply in_map_iff in Hb. destruct Hb as (i & <- & Hi).
  apply in_seq in Hi. apply Hf, Hi.
Qed.

Lemma map2_length (f : A -> B -> C) l1 l2 :
  length (map2 f l1 l2) = Nat.min (length l1) (length l2).
Proof. unfold map2. rewrite length_map, length_combine. reflexivity. Qed.

Lemma map2_Forall (Q : C -> Prop) (f : A -> B -> C) l1 l2 :
  (forall a b, In a l1 -> In b l2 -> Q (f a b)) -> Forall Q (map2 f l1 l2).
Proof.
  intros Hf. unfold map2. apply Forall_forall. intros c Hc.
  apply in_map_iff in Hc. destruct Hc as ([a b] & <- & Hab).
  simpl. apply Hf; [eapply in_combine_l | eapply in_combine_r]; exact Hab.
Qed.

Lemma smap_length G (f : A -> G -> B * G) l g :
  length (fst (smap f l g)) = length l.
Proof.
  revert g. induction l as [|a l IH]; intros g; simpl; [reflexivity|].
  destruct (f a g) as [b g1]. specialize (IH g1).
  destruct (smap f l g1) as [bs g2]. simpl in *. rewrite IH. reflexivity.
Qed.

Lemma smap_Forall G (P : A -> Prop) (Q : B -> Prop) (f : A -> G -> B * G) l g :
  Forall P l -> (forall a g', P a -> Q (fst (f a g'))) ->
  Forall Q (fst (smap f l g)).
Proof.
  intros HP Hf. revert g. induction HP as [|a l Ha HP IH]; intros g; simpl;
    [constructor|].
  pose proof (Hf a g Ha) as Hq. destruct (f a g) as [b g1]. specialize (IH g1).
  destruct (smap f l g1) as [bs g2]. simpl in *. constructor; assumption.
Qed.

Lemma mapR_Forall2 (f : A -> result B) l l' :
  mapR f l = Ok l' <-> Forall2 (fun a b => f a = Ok b) l l'.
Proof.
  revert l'. induction l as [|a l IH]; intros l'; simpl.
  - split; [intros [= <-]; constructor | intros Hl; inversion Hl; reflexivity].
  - split.
    + destruct (f a) as [b|] eqn:Hfa; [|discriminate]. simpl.
      destruct (mapR f l) as [bs|] eqn:Hl; [|discriminate]. simpl.
      intros [= <-]. constructor; [exact Hfa | apply IH; reflexivity].
    + intros Hl. inversion Hl as [|a' b l1 bs Hfa Hrest]; subst.
      rewrite Hfa. simpl. apply IH in Hrest. rewrite Hrest. reflexivity.
Qed.

Lemma mapR_map (f : A -> result B) (g : A -> B) l :
  (forall a, In a l -> f a = Ok (g a)) -> mapR f l = Ok (map g l).
Proof.
  intros Hf. apply mapR_Forall2. induction l as [|a l IH]; simpl; constructor.
  - apply Hf. left. reflexivity.
  - apply IH. intros a' Ha'. apply Hf. right. exact Ha'.
Qed.

Lemma mapR_length (f : A -> result B) l l' :
  mapR f l = Ok l' -> length l' = length l.
Proof.
  intros Hl. apply mapR_Forall2 in Hl. symmetry. eapply Forall2_length, Hl.
Qed.

Lemma mapR_Forall (P : A -> Prop) (Q : B -> Prop) (f : A -> result B) l l' :
  mapR f l = Ok l' -> Forall P l -> (forall a b, P a -> f a = Ok b -> Q b) ->
  Forall Q l'.
Proof.
  intros Hl HP Hf. apply mapR_Forall2 in Hl.
  induction Hl as [|a b l l' Hab Hl IH]; [constructor|].
  inversion HP; subst. constructor; [eapply Hf; eassumption | apply IH; assumption].
Qed.
End ShapeFacts.

Lemma transpose_shape A (d : A) (x : list (list A)) r c :
  1 <= r -> Mat r c x -> Mat c r (transpose d x).
Proof.
  intros Hr [Hlen Hrows]. unfold transpose.
  assert (Hhd : length (hd [] x) = c).
  { destruct x as [|v x]; [simpl in Hlen; lia|]. inversion Hrows; assumption. }
  rewrite Hhd. split.
  - rewrite length_map, length_seq. reflexivity.
  - apply Forall_seq_map. intros i _. rewrite length_map. exact Hlen.
Qed.

(** Swapping the two outer axes of a tensor keeps the vectors whole. *)
Lemma transpose_outer_shape A (x : list (list (list A))) a b c :
  1 <= a -> Ten a b c x -> Ten b a c (transpose [] x).
Proof.
  intros Ha [Hlen Hmats]. unfold transpose.
  assert (Hhd : length (hd [] x) = b).
  { destruct x as [|m x]; [simpl in Hlen; lia|].
    inversion Hmats as [|? ? [Hm _] ?]; assumption. }
  rewrite Hhd. split.
  - rewrite length_map, length_seq. reflexivity.
  - apply Forall_seq_map. intros j Hj. split.
    + rewrite length_map. exact Hlen.
    + apply Forall_forall. intros v Hv.
      apply in_map_iff in Hv. destruct Hv as (m & <- & Hm).
      rewrite Forall_forall in Hmats. destruct (Hmats m Hm) as [Hmb Hmv].
      apply Forall_nth_default; [exact Hmv | lia].
Qed.

(** ** Embedding, packing and unpacking keep the batch rectangular *)

Section InputStages.
Context {R : Type} `{Scalar R}.

Lemma Embedding_lookup_known (m : nn.Embedding R) id :
  (id <? nn.num_embeddings m) = true ->
  nn.Embedding_lookup m id
  = Ok (map (nn.emb_weight m id) (seq 0 (nn.embedding_dim m))).
Proof.
  intros Hid. unfold nn.Embedding_lookup. rewrite Hid.
  apply Nat.ltb_lt in Hid.
  replace (nn.num_embeddings m =? 0) with false
    by (symmetry; apply Nat.eqb_neq; lia).
  reflexivity.
Qed.


Lemma ids_in_range_lookup (m : nn.Embedding R) inputs :
  ids_in_range (nn.num_embeddings m) inputs = true ->
  mapR (mapR (nn.Embedding_lookup m)) inputs
  = Ok (map (map (fun id => map (nn.emb_weight m id) (seq 0 (nn.embedding_dim m))))
            inputs).
Proof.
  unfold ids_in_range. rewrite forallb_forall. intros Hin.
  apply mapR_map. intros row Hrow. apply mapR_map. intros id Hid.
  specialize (Hin row Hrow). rewrite forallb_forall in Hin.
  apply Embedding_lookup_known, Hin, Hid.
Qed.

Lemma embedded_shape (m : nn.Embedding R) (inputs : list (list nat)) t b :
  Mat t b inputs ->
  Ten t b (nn.embedding_dim m)
      (map (map (fun id => map (nn.emb_weight m id) (seq 0 (nn.embedding_dim m))))
           inputs).
Proof.
  intros [Hlen Hrows]. split; [rewrite length_map; exact Hlen|].
  apply Forall_forall. intros mat Hmat.
  apply in_map_iff in Hmat. destruct Hmat as (row & <- & Hrow).
  rewrite Forall_forall in Hrows. split.
  - rewrite length_map. apply Hrows, Hrow.
  - apply Forall_forall. intros v Hv.
    apply in_map_iff in Hv. destruct Hv as (id & <- & _).
    rewrite length_map, length_seq. reflexivity.
Qed.

Lemma batch_size_at_le lengths t : batch_size_at lengths t <= length lengths.
Proof. unfold batch_size_at. apply filter_length_le. Qed.

Lemma batch_size_at_0 lengths :
  existsb (fun l => l =? 0) lengths = false ->
  batch_size_at lengths 0 = length lengths.
Proof.
  unfold batch_size_at. induction lengths as [|l ls IH]; simpl; [reflexivity|].
  rewrite orb_false_iff. intros [Hl Hls]. apply Nat.eqb_neq in Hl.
  destruct l as [|l]; [contradiction|]. simpl. rewrite IH by exact Hls. reflexivity.
Qed.

Lemma valid_lengths_facts t b lengths :
  valid_lengths t b lengths = true ->
  length lengths = b /\ 1 <= b
  /\ existsb (fun l => l =? 0) lengths = false
  /\ sorted_decreasing lengths = true
  /\ 1 <= hd 0 lengths <= t.
Proof.
  unfold valid_lengths. rewrite !andb_true_iff, !negb_true_iff.
  intros [[[[Hlen Hb] Hz] Hs] Hhd].
  apply Nat.eqb_eq in Hlen. apply Nat.eqb_neq in Hb. apply Nat.leb_le in Hhd.
  repeat split; try assumption; try lia.
  destruct lengths as [|l ls]; [simpl in Hlen; lia|].
  simpl in Hz. apply orb_false_iff in Hz. destruct Hz as [Hl _].
  apply Nat.eqb_neq in Hl. simpl. lia.
Qed.

Lemma unpack_steps_shape (rows : nat -> list (list R)) (bs : nat -> nat)
      b e pad steps :
  length pad = e ->
  (forall t, In t steps ->
             length (rows t) = bs t /\ bs t <= b
             /\ Forall (fun v => length v = e) (rows t)) ->
  Ten (length steps) b e (unpack_steps (flat_map rows steps) (map bs steps) b pad).
Proof.
  intros Hpad. induction steps as [|t steps IH]; intros Hrows; simpl.
  - split; [reflexivity|constructor].
  - destruct (Hrows t (or_introl eq_refl)) as (Hlen & Hle & Hw).
    rewrite firstn_app, skipn_app, <- Hlen, Nat.sub_diag.
    rewrite firstn_all, skipn_all. simpl. rewrite app_nil_r.
    destruct IH as [IHlen IHrows].
    { intros t' Ht'. apply Hrows. right. exact Ht'. }
    split; [simpl; rewrite IHlen; reflexivity|].
    constructor; [|exact IHrows]. split.
    + rewrite length_app, repeat_length. lia.
    + apply Forall_app. split; [exact Hw|]. apply Forall_repeat, Hpad.
Qed.

Lemma pack_unpack_shape (x : list (list (list R))) lengths t b e :
  1 <= e -> Ten t b e x -> valid_lengths t b lengths = true ->
  exists p, pack x lengths = Ok p /\ Ten (hd 0 lengths) b e (fst (unpack p)).
Proof.
  intros He [Hlen Hmats] Hvalid.
  destruct (valid_lengths_facts _ _ _ Hvalid) as (Hl & Hb & Hz & Hs & Hhd).
  assert (Hstep : forall i, i < t ->
            length (nth i x []) = b /\ Forall (fun v => length v = e) (nth i x [])).
  { intros i Hi. apply (Forall_nth_default [] (i := i) Hmats). lia. }
  destruct (Hstep 0) as [Hb0 Hw0]; [lia|].
  assert (Hhd0 : hd [] x = nth 0 x []) by (destruct x; reflexivity).
  assert (Hhd1 : length (hd [] (hd [] x)) = e).
  { rewrite Hhd0. destruct (nth 0 x []) as [|v m]; [simpl in Hb0; lia|].
    inversion Hw0; assumption. }
  unfold pack. rewrite Hhd1, Hhd0, Hb0, Hlen.
  replace (t =? 0) with false by (symmetry; apply Nat.eqb_neq; lia).
  replace (b =? 0) with false by (symmetry; apply Nat.eqb_neq; lia).
  replace (e =? 0) with false by (symmetry; apply Nat.eqb_neq; lia).
  rewrite Hl, Nat.eqb_refl, Hz, Hs. simpl.
  replace (t <? hd 0 lengths) with false by (symmetry; apply Nat.ltb_ge; lia).
  eexists. split; [reflexivity|].
  unfold unpack. simpl.
  set (rows := fun i => firstn (batch_size_at lengths i) (nth i x [])).
  assert (Hsz : hd 0 (map (batch_size_at lengths) (seq 0 (hd 0 lengths))) = b).
  { destruct (hd 0 lengths) as [|n]; [lia|]. simpl.
    rewrite batch_size_at_0 by exact Hz. exact Hl. }
  assert (Hpad : length (hd [] (flat_map rows (seq 0 (hd 0 lengths)))) = e).
  { destruct (hd 0 lengths) as [|n]; [lia|]. simpl. unfold rows at 1.
    rewrite batch_size_at_0, Hl by exact Hz.
    destruct (nth 0 x []) as [|v m]; [simpl in Hb0; lia|].
    destruct b; [lia|]. simpl. inversion Hw0; assumption. }
  rewrite Hsz, Hpad.
  pose proof (unpack_steps_shape rows (batch_size_at lengths) (b := b) (e := e)
                (repeat rzero e) (seq 0 (hd 0 lengths))) as Hshape.
  rewrite length_seq in Hshape. apply Hshape; [apply repeat_length|].
  intros i Hi. apply in_seq in Hi. destruct (Hstep i) as [Hbi Hwi]; [lia|].
  pose proof (batch_size_at_le lengths i) as Hle. rewrite Hl in Hle.
  unfold rows. repeat split.
  - rewrite length_firstn. lia.
  - exact Hle.
  - apply Forall_firstn_keep. exact Hwi.
Qed.
End InputStages.

(** ** The recurrent networks: widths and shapes *)

Section RecurrentShapes.
Context {R G : Type} `{Scalar R} `{Sampler G R}.

Lemma dropout3_shape (p : R) (x : list (list (list R))) (g : G) a b c :
  Ten a b c x -> Ten a b c (fst (nn.dropout3 p x g)).
Proof.
  intros [Hlen Hmats]. unfold nn.dropout3. split.
  - rewrite smap_length. exact Hlen.
  - eapply smap_Forall; [exact Hmats|]. intros m g1 [Hm Hv]. split.
    + rewrite smap_length. exact Hm.
    + eapply smap_Forall; [exact Hv|]. intros v g2 Hlenv.
      rewrite smap_length. exact Hlenv.
Qed.

Lemma alpha_dropout3_shape (p : R) (x : list (list (list R))) (g : G) a b c :
  Ten a b c x -> Ten a b c (fst (nn.alpha_dropout3 p x g)).
Proof.
  intros [Hlen Hmats]. unfold nn.alpha_dropout3. split.
  - rewrite smap_length. exact Hlen.
  - eapply smap_Forall; [exact Hmats|]. intros m g1 [Hm Hv]. split.
    + rewrite smap_length. exact Hm.
    + eapply smap_Forall; [exact Hv|]. intros v g2 Hlenv.
      rewrite smap_length. exact Hlenv.
Qed.

Lemma dropout2_shape (p : R) (x : list (list R)) (g : G) a b :
  Mat a b x -> Mat a b (fst (nn.dropout2 p x g)).
Proof.
  intros [Hlen Hv]. unfold nn.dropout2. split.
  - rewrite smap_length. exact Hlen.
  - eapply smap_Forall; [exact Hv|]. intros v g2 Hlenv.
    rewrite smap_length. exact Hlenv.
Qed.

Lemma draw_ok A (f : G -> A * G) (w : world R G) :
  draw f w = Ok (fst (f (gen w)),
                 {| gen := snd (f (gen w)); dropout_calls := dropout_calls w |}).
Proof. unfold draw. destruct (f (gen w)). reflexivity. Qed.

Variable S : Type.
Variable step : nat -> bool -> list R -> S -> S.
Variable hid : S -> list R.
Variable s0 : S.
Variable p : R.
Variables bidirectional training : bool.
Variable okS : S -> Prop.
Variable h : nat.
Hypothesis okS_step : forall l d x s, okS (step l d x s).
Hypothesis okS_s0 : okS s0.
Hypothesis okS_hid : forall s, okS s -> length (hid s) = h.

(** The number of directions. *)
Local Abbreviation dirs := (if bidirectional then 2 else 1).

Lemma scan_length (f : list R -> S -> S) xs s :
  length (nn.scan f xs s) = length xs.
Proof.
  revert s. induction xs as [|x xs IH]; intros s; simpl;
    [reflexivity | rewrite IH; reflexivity].
Qed.

Lemma scan_okS l d xs s : Forall (Forall okS) (nn.scan (step l d) xs s).
Proof.
  revert s. induction xs as [|x xs IH]; intros s; simpl; constructor.
  - apply map2_Forall. intros; apply okS_step.
  - apply IH.
Qed.

Lemma scan_rows l d xs s b :
  length s = b -> Forall (fun x => length x = b) xs ->
  Forall (fun row => length row = b) (nn.scan (step l d) xs s).
Proof.
  intros Hs Hxs. revert s Hs.
  induction Hxs as [|x xs Hx Hxs IH]; intros s Hs; simpl; constructor.
  - rewrite map2_length. lia.
  - apply IH. rewrite map2_length. lia.
Qed.

Lemma Forall_last_default A (P : A -> Prop) (l : list A) d :
  Forall P l -> P d -> P (last l d).
Proof.
  intros HP Hd. induction HP as [|a l Ha HP IH]; [exact Hd|].
  destruct l as [|b l]; [exact Ha | exact IH].
Qed.

(** Whatever a layer is given, its output vectors have [dirs * h]
    features. *)
Lemma layer_forward_width l xs :
  Forall (Forall (fun v => length v = dirs * h))
         (fst (nn.layer_forward step hid s0 bidirectional l xs)).
Proof.
  unfold nn.layer_forward. destruct bidirectional; simpl.
  - pose proof (scan_okS l false xs (repeat s0 (length (hd [] xs)))) as Hf.
    pose proof (scan_okS l true (rev xs) (repeat s0 (length (hd [] xs)))) as Hb.
    apply Forall_rev in Hb. rewrite Forall_forall in Hf, Hb.
    apply map2_Forall. intros rf rb Hrf Hrb.
    specialize (Hf rf Hrf). specialize (Hb rb Hrb).
    rewrite Forall_forall in Hf, Hb.
    apply map2_Forall. intros a b Ha Hb'.
    rewrite length_app, (okS_hid (Hf a Ha)), (okS_hid (Hb b Hb')). lia.
  - pose proof (scan_okS l false xs (repeat s0 (length (hd [] xs)))) as Hf.
    rewrite Forall_forall in Hf.
    apply Forall_forall. intros row Hrow.
    apply in_map_iff in Hrow. destruct Hrow as (rf & <- & Hrf).
    apply Forall_forall. intros v Hv.
    apply in_map_iff in Hv. destruct Hv as (a & <- & Ha).
    specialize (Hf rf Hrf). rewrite Forall_forall in Hf.
    rewrite (okS_hid (Hf a Ha)). lia.
Qed.

(** On a rectangular input of [t >= 1] steps and [b] examples, a layer
    returns [t x b x (dirs * h)] outputs and [dirs] final states of [b]
    examples each. *)
Lemma layer_forward_shape l xs t b e :
  1 <= t -> Ten t b e xs ->
  Ten t b (dirs * h) (fst (nn.layer_forward step hid s0 bidirectional l xs))
  /\ length (snd (nn.layer_forward step hid s0 bidirectional l xs)) = dirs
  /\ Forall (fun f => length f = b /\ Forall okS f)
            (snd (nn.layer_forward step hid s0 bidirectional l xs)).
Proof.
  intros Ht [Hlen Hmats].
  assert (Hrows : Forall (fun x => length x = b) xs)
    by (eapply Forall_impl; [|exact Hmats]; intros m [Hm _]; exact Hm).
  assert (Hhd : length (hd [] xs) = b).
  { destruct xs as [|x xs]; [simpl in Hlen; lia|]. inversion Hrows; assumption. }
  pose proof (layer_forward_width l xs) as Hwidth.
  set (init := repeat s0 (length (hd [] xs))).
  assert (Hinit : length init = b) by (unfold init; rewrite repeat_length; exact Hhd).
  assert (Hinit_ok : Forall okS init) by (apply Forall_repeat, okS_s0).
  pose proof (scan_rows l false init Hinit Hrows) as Hfr.
  pose proof (scan_rows l true init Hinit (Forall_rev Hrows)) as Hbr.
  pose proof (scan_okS l false xs init) as Hfo.
  pose proof (scan_okS l true (rev xs) init) as Hbo.
  assert (Hfin : forall d ys, Forall (fun row => length row = b) (nn.scan (step l d) ys init) ->
                              length (last (nn.scan (step l d) ys init) init) = b
                              /\ Forall okS (last (nn.scan (step l d) ys init) init)).
  { intros d ys Hr. split.
    - apply (Forall_last_default (P := fun row => length row = b)); assumption.
    - apply (Forall_last_default (P := Forall okS)); [apply scan_okS | assumption]. }
  revert Hwidth. unfold nn.layer_forward. fold init.
  destruct bidirectional; simpl; intros Hwidth.
  - repeat split.
    + rewrite map2_length, length_rev, !scan_length, length_rev. lia.
    + assert (Hlens : Forall (fun m => length m = b)
                (map2 (map2 (fun a b0 => hid a ++ hid b0))
                      (nn.scan (step l false) xs init)
                      (rev (nn.scan (step l true) (rev xs) init)))).
      { apply map2_Forall. intros rf rb Hrf Hrb.
        rewrite Forall_forall in Hfr. apply Forall_rev in Hbr.
        rewrite Forall_forall in Hbr.
        rewrite map2_length, (Hfr rf Hrf), (Hbr rb Hrb). lia. }
      rewrite Forall_forall in Hlens, Hwidth |- *.
      intros m Hm. split; [apply Hlens, Hm | apply Hwidth, Hm].
    + repeat constructor; apply Hfin; assumption.
  - repeat split.
    + rewrite length_map, scan_length. exact Hlen.
    + rewrite Forall_forall in Hwidth, Hfr |- *. intros m Hm. split.
      * apply in_map_iff in Hm. destruct Hm as (rf & <- & Hrf).
        rewrite length_map. apply Hfr, Hrf.
      * apply Hwidth, Hm.
    + repeat constructor; apply Hfin; assumption.
Qed.
Lemma dropout3_width (x : list (list (list R))) (g : G) c :
  Forall (Forall (fun v => length v = c)) x ->
  Forall (Forall (fun v => length v = c)) (fst (nn.dropout3 p x g)).
Proof.
  intros Hx. unfold nn.dropout3.
  eapply smap_Forall; [exact Hx|]. intros m g1 Hm.
  eapply smap_Forall; [exact Hm|]. intros v g2 Hv.
  rewrite smap_length. exact Hv.
Qed.

(** The dropout between two layers, as [layers_forward] applies it. *)
Lemma between_layers_ok (rest : list nat) (out : list (list (list R)))
      (w : world R G) :
  exists out' w',
    match rest with
    | [] => ret out
    | _ :: _ => if training then draw (nn.dropout3 p out) else ret out
    end w = Ok (out', w')
    /\ (forall a b c, Ten a b c out -> Ten a b c out')
    /\ (forall c, Forall (Forall (fun v => length v = c)) out ->
                  Forall (Forall (fun v => length v = c)) out').
Proof.
  destruct rest as [|r rest]; [|destruct training].
  - exists out, w. split; [reflexivity|]. split; auto.
  - eexists _, _. split; [apply draw_ok|]. split.
    + intros a b c. apply dropout3_shape.
    + intros c. apply dropout3_width.
  - exists out, w. split; [reflexivity|]. split; auto.
Qed.

Lemma layers_forward_width ls :
  forall xs (w w' : world R G) y fins,
    ls <> [] ->
    nn.layers_forward step hid s0 p bidirectional training ls xs w
    = Ok ((y, fins), w') ->
    Forall (Forall (fun v => length v = dirs * h)) y.
Proof.
  induction ls as [|l rest IH]; intros xs w w' y fins Hne Hrun; [contradiction|].
  simpl in Hrun.
  pose proof (layer_forward_width l xs) as Hwidth.
  destruct (nn.layer_forward step hid s0 bidirectional l xs) as [out fin].
  simpl in Hwidth.
  destruct (between_layers_ok rest out w) as (out' & w1 & Hdrop & _ & Hkeep).
  erewrite bind_step in Hrun by exact Hdrop.
  specialize (Hkeep _ Hwidth).
  peel Hrun. destruct a as [y' fins'].
  destruct rest as [|r rest].
  - simpl in Hc. peel_ret Hc. peel_ret Hrun. exact Hkeep.
  - peel_ret Hrun. eapply IH; [discriminate | exact Hc].
Qed.

Lemma layers_forward_shape ls :
  forall xs (w : world R G) t b e,
    1 <= t -> Ten t b e xs ->
    exists y fins w',
      nn.layers_forward step hid s0 p bidirectional training ls xs w
      = Ok ((y, fins), w')
      /\ (ls <> [] -> Ten t b (dirs * h) y)
      /\ (ls = [] -> y = xs)
      /\ length fins = dirs * length ls
      /\ Forall (fun f => length f = b /\ Forall okS f) fins.
Proof.
  induction ls as [|l rest IH]; intros xs w t b e Ht Hxs.
  - exists xs, [], w. simpl. repeat split; auto; try lia. contradiction.
  - simpl.
    destruct (layer_forward_shape l Ht Hxs) as (Hout & Hfinlen & Hfin).
    destruct (nn.layer_forward step hid s0 bidirectional l xs) as [out fin].
    simpl in Hout, Hfinlen, Hfin.
    destruct (between_layers_ok rest out w) as (out' & w1 & Hdrop & Hkeep & _).
    erewrite bind_step by exact Hdrop.
    specialize (Hkeep _ _ _ Hout).
    destruct (IH out' w1 t b (dirs * h) Ht Hkeep)
      as (y & fins & w' & Hrun & Hy & Hnil & Hlen & Hfins).
    erewrite bind_step by exact Hrun. exists y, (fin ++ fins), w'.
    split; [reflexivity|]. repeat split.
    + destruct rest as [|r rest]; [rewrite Hnil by reflexivity; apply Hkeep|].
      apply Hy. discriminate.
    + destruct rest as [|r rest]; [rewrite Hnil by reflexivity; apply Hkeep|].
      apply Hy. discriminate.
    + discriminate.
    + rewrite length_app, Hfinlen, Hlen. simpl. lia.
    + apply Forall_app. split; assumption.
Qed.

Lemma rnn_forward_shape input_size num_layers xs (w : world R G) t b :
  1 <= t -> Ten t b input_size xs ->
  exists y fins w',
    nn.rnn_forward step hid s0 p bidirectional training input_size num_layers xs w
    = Ok ((y, fins), w')
    /\ (1 <= num_layers -> Ten t b (dirs * h) y)
    /\ length fins = dirs * num_layers
    /\ Forall (fun f => length f = b /\ Forall okS f) fins.
Proof.
  intros Ht Hxs. unfold nn.rnn_forward.
  assert (Hcheck : forallb (forallb (fun x => length x =? input_size)) xs = true).
  { destruct Hxs as [_ Hmats]. rewrite Forall_forall in Hmats.
    apply forallb_forall. intros m Hm. destruct (Hmats m Hm) as [_ Hv].
    rewrite Forall_forall in Hv.
    apply forallb_forall. intros v Hin. apply Nat.eqb_eq, Hv, Hin. }
  rewrite Hcheck.
  destruct (layers_forward_shape (seq 0 num_layers) w Ht Hxs)
    as (y & fins & w' & Hrun & Hy & _ & Hlen & Hfins).
  exists y, fins, w'. rewrite length_seq in Hlen. repeat split; try assumption.
  - apply Hy. destruct num_layers; [lia|discriminate].
  - apply Hy. destruct num_layers; [lia|discriminate].
Qed.

Lemma rnn_forward_width input_size num_layers xs (w w' : world R G) y fins :
  1 <= num_layers ->
  nn.rnn_forward step hid s0 p bidirectional training input_size num_layers xs w
  = Ok ((y, fins), w') ->
  Forall (Forall (fun v => length v = dirs * h)) y.
Proof.
  intros Hn. unfold nn.rnn_forward.
  destruct (forallb _ xs); [|discriminate].
  apply layers_forward_width. destruct num_layers; [lia|discriminate].
Qed.
End RecurrentShapes.

Section EncoderRnnShapes.
Context {R G : Type} `{Scalar R} `{Sampler G R}.

Lemma GRU_step_length (m : nn.GRU R) l d x h :
  length (nn.GRU_step m l d x h) = nn.gru_hidden_size m.
Proof. unfold nn.GRU_step. rewrite length_map, length_seq. reflexivity. Qed.

Lemma LSTM_step_length (m : nn.LSTM R) l d x hc :
  length (fst (nn.LSTM_step m l d x hc)) = nn.lstm_hidden_size m
  /\ length (snd (nn.LSTM_step m l d x hc)) = nn.lstm_hidden_size m.
Proof.
  unfold nn.LSTM_step. simpl. rewrite !length_map, length_seq. split; reflexivity.
Qed.

Lemma GRU_forward_shape (m : nn.GRU R) xs (w : world R G) t b :
  1 <= t -> Ten t b (nn.gru_input_size m) xs ->
  exists y h_n w',
    nn.GRU_forward m xs w = Ok ((y, h_n), w')
    /\ (1 <= nn.gru_num_layers m ->
        Ten t b ((if nn.gru_bidirectional m then 2 else 1) * nn.gru_hidden_size m) y)
    /\ Ten ((if nn.gru_bidirectional m then 2 else 1) * nn.gru_num_layers m)
           b (nn.gru_hidden_size m) h_n.
Proof.
  intros Ht Hxs. unfold nn.GRU_forward.
  destruct (rnn_forward_shape (nn.GRU_step m) (fun h => h)
              (repeat rzero (nn.gru_hidden_size m)) (nn.gru_dropout m)
              (nn.gru_bidirectional m) (nn.gru_training m)
              (fun v => length v = nn.gru_hidden_size m)
              (GRU_step_length m) (repeat_length _ _) (fun s Hs => Hs)
              (nn.gru_num_layers m) w Ht Hxs)
    as (y & fins & w' & Hrun & Hy & Hlen & Hfins).
  exists y, fins, w'. repeat split; try assumption; apply Hy; assumption.
Qed.

Lemma GRU_forward_width (m : nn.GRU R) xs (w w' : world R G) y h_n :
  1 <= nn.gru_num_layers m ->
  nn.GRU_forward m xs w = Ok ((y, h_n), w') ->
  Forall (Forall (fun v => length v
                           = (if nn.gru_bidirectional m then 2 else 1)
                             * nn.gru_hidden_size m)) y.
Proof.
  intros Hn. unfold nn.GRU_forward.
  apply (rnn_forward_width (nn.GRU_step m) (fun h => h)
           (repeat rzero (nn.gru_hidden_size m)) (nn.gru_dropout m)
           (nn.gru_bidirectional m) (nn.gru_training m)
           (fun v => length v = nn.gru_hidden_size m)
           (GRU_step_length m) (fun s Hs => Hs)); exact Hn.
Qed.

Lemma LSTM_forward_shape (m : nn.LSTM R) xs (w : world R G) t b :
  1 <= t -> Ten t b (nn.lstm_input_size m) xs ->
  exists y h_n c_n w',
    nn.LSTM_forward m xs w = Ok ((y, (h_n, c_n)), w')
    /\ (1 <= nn.lstm_num_layers m ->
        Ten t b ((if nn.lstm_bidirectional m then 2 else 1) * nn.lstm_hidden_size m) y)
    /\ Ten ((if nn.lstm_bidirectional m then 2 else 1) * nn.lstm_num_layers m)
           b (nn.lstm_hidden_size m) h_n
    /\ Ten ((if nn.lstm_bidirectional m then 2 else 1) * nn.lstm_num_layers m)
           b (nn.lstm_hidden_size m) c_n.
Proof.
  intros Ht Hxs. unfold nn.LSTM_forward.
  destruct (rnn_forward_shape (nn.LSTM_step m) fst
              (repeat rzero (nn.lstm_hidden_size m), repeat rzero (nn.lstm_hidden_size m))
              (nn.lstm_dropout m)
              (nn.lstm_bidirectional m) (nn.lstm_training m)
              (fun hc => length (fst hc) = nn.lstm_hidden_size m
                         /\ length (snd hc) = nn.lstm_hidden_size m)
              (LSTM_step_length m)
              (conj (repeat_length _ _) (repeat_length _ _))
              (fun s Hs => proj1 Hs)
              (nn.lstm_num_layers m) w Ht Hxs)
    as (y & fins & w' & Hrun & Hy & Hlen & Hfins).
  erewrite bind_step by exact Hrun.
  exists y, (map (map fst) fins), (map (map snd) fins), w'.
  split; [reflexivity|]. split; [exact Hy|].
  rewrite Forall_forall in Hfins.
  split; (split; [rewrite length_map; exact Hlen|]);
    apply Forall_forall; intros mat Hmat;
    apply in_map_iff in Hmat; destruct Hmat as (f & <- & Hf);
    destruct (Hfins f Hf) as [Hfb Hfo]; rewrite Forall_forall in Hfo;
    (split; [rewrite length_map; exact Hfb|]);
    apply Forall_forall; intros v Hv;
    apply in_map_iff in Hv; destruct Hv as (hc & <- & Hhc);
    apply (Hfo hc Hhc).
Qed.

Lemma LSTM_forward_width (m : nn.LSTM R) xs (w w' : world R G) y st :
  1 <= nn.lstm_num_layers m ->
  nn.LSTM_forward m xs w = Ok ((y, st), w') ->
  Forall (Forall (fun v => length v
                           = (if nn.lstm_bidirectional m then 2 else 1)
                             * nn.lstm_hidden_size m)) y.
Proof.
  intros Hn. unfold nn.LSTM_forward. intros Hrun.
  peel Hrun. destruct a as [y' fins]. peel_ret Hrun.
  eapply (rnn_forward_width (nn.LSTM_step m) fst
           (repeat rzero (nn.lstm_hidden_size m), repeat rzero (nn.lstm_hidden_size m))
           (nn.lstm_dropout m)
           (nn.lstm_bidirectional m) (nn.lstm_training m)
           (fun hc => length (fst hc) = nn.lstm_hidden_size m
                      /\ length (snd hc) = nn.lstm_hidden_size m)
           (LSTM_step_length m) (fun s Hs => proj1 Hs)); [exact Hn | exact Hc].
Qed.

Lemma slice_step2_Forall A (P : A -> Prop) (l : list A) :
  Forall P l -> Forall P (slice_step2 l).
Proof.
  assert (Hn : forall n (l : list A), length l <= n ->
                 Forall P l -> Forall P (slice_step2 l)).
  { induction n as [|n IH]; intros [|a [|b k]] Hlen HP; simpl in *;
      try constructor; try lia;
      try (inversion HP; assumption).
    inversion HP as [|? ? _ HP']. inversion HP'. apply IH; [lia|assumption]. }
  intros HP. exact (Hn (length l) l (le_n _) HP).
Qed.
End EncoderRnnShapes.

(** ** Folding the directions, and the convolution stack *)

Section ConvShapes.
Context {R G : Type} `{Scalar R} `{Sampler G R}.

Lemma vadd_halves (h : nat) (v : list R) :
  length v = 2 * h ->
  vadd (firstn h v) (skipn h v) = Ok (map2 radd (firstn h v) (skipn h v))
  /\ length (map2 radd (firstn h v) (skipn h v)) = h.
Proof.
  intros Hv. unfold vadd.
  assert (Hf : length (firstn h v) = h) by (rewrite length_firstn; lia).
  assert (Hs : length (skipn h v) = h) by (rewrite length_skipn; lia).
  rewrite Hf, Hs, Nat.eqb_refl. split; [reflexivity|].
  rewrite map2_length, Hf, Hs. lia.
Qed.

Lemma fold_directions_ok (h : nat) (raw : list (list (list R))) :
  Forall (Forall (fun v => length v = 2 * h)) raw ->
  rnn_encoder.fold_directions h raw
  = Ok (map (map (fun v => map2 radd (firstn h v) (skipn h v))) raw).
Proof.
  intros Hraw. unfold rnn_encoder.fold_directions.
  rewrite Forall_forall in Hraw.
  apply mapR_map. intros m Hm. apply mapR_map. intros v Hv.
  specialize (Hraw m Hm). rewrite Forall_forall in Hraw.
  apply vadd_halves, Hraw, Hv.
Qed.

Lemma folded_width (h : nat) (raw : list (list (list R))) :
  Forall (Forall (fun v => length v = 2 * h)) raw ->
  Forall (Forall (fun v => length v = h))
         (map (map (fun v => map2 radd (firstn h v) (skipn h v))) raw).
Proof.
  intros Hraw. rewrite Forall_forall in Hraw.
  apply Forall_forall. intros m' Hm'.
  apply in_map_iff in Hm'. destruct Hm' as (m & <- & Hm).
  specialize (Hraw m Hm). rewrite Forall_forall in Hraw.
  apply Forall_forall. intros v' Hv'.
  apply in_map_iff in Hv'. destruct Hv' as (v & <- & Hv).
  apply vadd_halves, Hraw, Hv.
Qed.

Lemma folded_shape (h t b : nat) (raw : list (list (list R))) :
  Ten t b (2 * h) raw ->
  Ten t b h (map (map (fun v => map2 radd (firstn h v) (skipn h v))) raw).
Proof.
  intros [Hlen Hmats]. split; [rewrite length_map; exact Hlen|].
  assert (Hw : Forall (Forall (fun v => length v = 2 * h)) raw)
    by (eapply Forall_impl; [|exact Hmats]; intros m [_ Hm]; exact Hm).
  apply folded_width in Hw.
  rewrite Forall_forall in Hw, Hmats |- *. intros m' Hm'. split.
  - apply in_map_iff in Hm'. destruct Hm' as (m & <- & Hm).
    rewrite length_map. apply Hmats, Hm.
  - apply Hw, Hm'.
Qed.

Lemma Conv1d_example_ok (c : nn.Conv1d R) (m : list (list R)) l :
  1 <= nn.in_channels c -> Mat (nn.in_channels c) l m ->
  nn.conv_span c <= l + 2 * nn.padding c ->
  exists y, nn.Conv1d_example c m = Ok y
            /\ Mat (nn.out_channels c) (l + 2 * nn.padding c - nn.conv_span c + 1) y.
Proof.
  intros Hc [Hlen Hrows] Hspan. unfold nn.Conv1d_example.
  assert (Hhd : length (hd [] m) = l).
  { destruct m as [|v m]; [simpl in Hlen; lia|]. inversion Hrows; assumption. }
  rewrite Hlen, Nat.eqb_refl, Hhd. simpl.
  replace (l + (nn.padding c + (nn.padding c + 0)) <? nn.conv_span c) with false
    by (symmetry; apply Nat.ltb_ge; lia).
  eexists. split; [reflexivity|]. split.
  - rewrite length_map, length_seq. reflexivity.
  - apply Forall_seq_map. intros o _. rewrite length_map, length_seq. lia.
Qed.

Lemma Conv1d_example_short (c : nn.Conv1d R) (m : list (list R)) l :
  1 <= nn.in_channels c -> Mat (nn.in_channels c) l m ->
  l + 2 * nn.padding c < nn.conv_span c ->
  nn.Conv1d_example c m = Err RuntimeError.
Proof.
  intros Hc [Hlen Hrows] Hspan. unfold nn.Conv1d_example.
  assert (Hhd : length (hd [] m) = l).
  { destruct m as [|v m]; [simpl in Hlen; lia|]. inversion Hrows; assumption. }
  rewrite Hlen, Nat.eqb_refl, Hhd. simpl.
  replace (l + (nn.padding c + (nn.padding c + 0)) <? nn.conv_span c) with true
    by (symmetry; apply Nat.ltb_lt; lia).
  reflexivity.
Qed.

Lemma Conv1d_forward_ok (c : nn.Conv1d R) (x : list (list (list R))) b l :
  1 <= nn.in_channels c -> Ten b (nn.in_channels c) l x ->
  nn.conv_span c <= l + 2 * nn.padding c ->
  exists y, nn.Conv1d_forward c x = Ok y
            /\ Ten b (nn.out_channels c)
                   (l + 2 * nn.padding c - nn.conv_span c + 1) y.
Proof.
  intros Hc [Hlen Hmats] Hspan. unfold nn.Conv1d_forward.
  destruct (mapR (nn.Conv1d_example c) x) as [y|e] eqn:Hy.
  - exists y. split; [reflexivity|]. split.
    + rewrite (mapR_length _ _ Hy). exact Hlen.
    + eapply mapR_Forall; [exact Hy | exact Hmats |].
      intros m y' Hm Hex.
      destruct (Conv1d_example_ok c Hc Hm Hspan) as (y'' & Hex' & Hshape).
      congruence.
  - exfalso. clear Hlen. induction Hmats as [|m x Hm Hmats IH]; [discriminate|].
    simpl in Hy.
    destruct (Conv1d_example_ok c Hc Hm Hspan) as (y' & Hex & _).
    rewrite Hex in Hy. simpl in Hy.
    destruct (mapR (nn.Conv1d_example c) x); [discriminate|].
    apply IH. simpl in Hy. exact Hy.
Qed.

Lemma Conv1d_forward_short (c : nn.Conv1d R) (x : list (list (list R))) b l :
  1 <= b -> 1 <= nn.in_channels c -> Ten b (nn.in_channels c) l x ->
  l + 2 * nn.padding c < nn.conv_span c ->
  nn.Conv1d_forward c x = Err RuntimeError.
Proof.
  intros Hb Hc [Hlen Hmats] Hspan. unfold nn.Conv1d_forward.
  destruct x as [|m x]; [simpl in Hlen; lia|].
  inversion Hmats as [|? ? Hm _]; subst. simpl.
  rewrite (Conv1d_example_short c Hc Hm Hspan). reflexivity.
Qed.

Lemma selu_shape (x : list (list (list R))) a b c :
  Ten a b c x -> Ten a b c (map (map (map selu)) x).
Proof.
  intros [Hlen Hmats]. split; [rewrite length_map; exact Hlen|].
  rewrite Forall_forall in Hmats.
  apply Forall_forall. intros m' Hm'.
  apply in_map_iff in Hm'. destruct Hm' as (m & <- & Hm).
  destruct (Hmats m Hm) as [Hmb Hmv]. rewrite Forall_forall in Hmv. split.
  - rewrite length_map. exact Hmb.
  - apply Forall_forall. intros v' Hv'.
    apply in_map_iff in Hv'. destruct Hv' as (v & <- & Hv).
    rewrite length_map. apply Hmv, Hv.
Qed.

(** One block of the stack: convolution, SELU, AlphaDropout. *)
Lemma dconv_block_ok (c : nn.Conv1d R) p training rest
      (x : list (list (list R))) (w : world R G) b l :
  1 <= nn.in_channels c -> Ten b (nn.in_channels c) l x ->
  nn.conv_span c <= l + 2 * nn.padding c ->
  exists y w',
    nn.Sequential_forward (nn.Conv c :: nn.SELU :: nn.AlphaDropout p training :: rest) x w
    = nn.Sequential_forward rest y w'
    /\ Ten b (nn.out_channels c) (l + 2 * nn.padding c - nn.conv_span c + 1) y.
Proof.
  intros Hc Hx Hspan.
  destruct (Conv1d_forward_ok c Hc Hx Hspan) as (y & Hy & Hshape).
  apply selu_shape in Hshape.
  simpl. unfold bind at 1. unfold lift at 1. rewrite Hy.
  unfold bind at 1. unfold ret at 1. unfold bind at 1.
  destruct training.
  - rewrite draw_ok. eexists _, _. split; [reflexivity|].
    apply alpha_dropout3_shape. exact Hshape.
  - unfold ret at 1. eexists _, _. split; [reflexivity|]. exact Hshape.
Qed.

Lemma dconv_block_short (c : nn.Conv1d R) rest
      (x : list (list (list R))) (w : world R G) b l :
  1 <= b -> 1 <= nn.in_channels c -> Ten b (nn.in_channels c) l x ->
  l + 2 * nn.padding c < nn.conv_span c ->
  nn.Sequential_forward (nn.Conv c :: rest) x w = Err RuntimeError.
Proof.
  intros Hb Hc Hx Hspan. simpl. unfold bind, lift.
  rewrite (Conv1d_forward_short c Hb Hc Hx Hspan). reflexivity.
Qed.

(** The stack [__init__] builds, in either mode: on [b] examples of
    [hidden_size] channels and [l] positions it returns [l - 6] positions
    when [l >= 7] and fails otherwise. *)
Lemma dconv_forward_shape (cfg : Config.t R) (w : rnn_encoder.weights R)
      p1 p2 p3 t1 t2 t3 (x : list (list (list R))) (world : world R G) b l :
  1 <= Config.hidden_size cfg -> Ten b (Config.hidden_size cfg) l x ->
  (7 <= l ->
   exists y world',
     nn.Sequential_forward
       [ nn.Conv (rnn_encoder.dconv_conv cfg w 1); nn.SELU; nn.AlphaDropout p1 t1;
         nn.Conv (rnn_encoder.dconv_conv cfg w 2); nn.SELU; nn.AlphaDropout p2 t2;
         nn.Conv (rnn_encoder.dconv_conv cfg w 3); nn.SELU; nn.AlphaDropout p3 t3 ]
       x world = Ok (y, world')
     /\ Ten b (Config.hidden_size cfg) (l - 6) y)
  /\ (1 <= b -> 1 <= l < 7 ->
      nn.Sequential_forward
        [ nn.Conv (rnn_encoder.dconv_conv cfg w 1); nn.SELU; nn.AlphaDropout p1 t1;
          nn.Conv (rnn_encoder.dconv_conv cfg w 2); nn.SELU; nn.AlphaDropout p2 t2;
          nn.Conv (rnn_encoder.dconv_conv cfg w 3); nn.SELU; nn.AlphaDropout p3 t3 ]
        x world = Err RuntimeError).
Proof.
  intros Hh Hx. split.
  - intros Hl.
    edestruct (dconv_block_ok (rnn_encoder.dconv_conv cfg w 1) p1 t1) with (l := l)
      as (y1 & w1 & -> & Hy1); [exact Hh | exact Hx | cbn; lia |].
    edestruct (dconv_block_ok (rnn_encoder.dconv_conv cfg w 2) p2 t2)
      as (y2 & w2 & -> & Hy2); [exact Hh | exact Hy1 | cbn; lia |].
    edestruct (dconv_block_ok (rnn_encoder.dconv_conv cfg w 3) p3 t3)
      as (y3 & w3 & -> & Hy3); [exact Hh | exact Hy2 | cbn; lia |].
    exists y3, w3. split; [reflexivity|].
    cbn in Hy3. replace (l - 6) with (l + 2 - 3 + 1 + 2 - 5 + 1 + 2 - 7 + 1) by lia.
    exact Hy3.
  - intros Hb Hl.
    edestruct (dconv_block_ok (rnn_encoder.dconv_conv cfg w 1) p1 t1) with (l := l)
      as (y1 & w1 & -> & Hy1); [exact Hh | exact Hx | cbn; lia |].
    destruct (Nat.lt_ge_cases l 3) as [Hl3 | Hl3].
    + eapply dconv_block_short; [exact Hb | exact Hh | exact Hy1 | cbn; lia].
    + edestruct (dconv_block_ok (rnn_encoder.dconv_conv cfg w 2) p2 t2)
        as (y2 & w2 & -> & Hy2); [exact Hh | exact Hy1 | cbn; lia |].
      eapply dconv_block_short; [exact Hb | exact Hh | exact Hy2 | cbn; lia].
Qed.
End ConvShapes.

(** ** The encoder end to end *)

Section EncoderShapes.
Context {R G : Type} `{Scalar R} `{Sampler G R}.

(** How many state entries the encoder hands over, by the cell option:
    the first [dec_num_layers] of the [dirs * enc_num_layers] final states
    of a GRU, every other one of those of an LSTM. *)
Local Abbreviation handed_over cfg :=
  (if String.eqb (Config.cell cfg) "gru"
   then Nat.min (Config.dec_num_layers cfg)
                ((if Config.bidirectional cfg then 2 else 1)
                 * Config.enc_num_layers cfg)
   else Nat.div2 (S ((if Config.bidirectional cfg then 2 else 1)
                     * Config.enc_num_layers cfg))).

Lemma init_rnn_forward_shape (cfg : Config.t R) emb (wts : rnn_encoder.weights R)
      (evaluating : bool) xs (w : world R G) t b :
  let e0 := rnn_encoder.__init__ cfg emb wts in
  let e := if evaluating then rnn_encoder.eval e0 else e0 in
  1 <= t -> 1 <= Config.enc_num_layers cfg ->
  Ten t b (Config.emb_size cfg) xs ->
  exists raw rawstate w' state,
    rnn_encoder.rnn_forward (rnn_encoder.rnn e) xs w = Ok ((raw, rawstate), w')
    /\ Ten t b ((if Config.bidirectional cfg then 2 else 1) * Config.hidden_size cfg) raw
    /\ rnn_encoder.reduce_state cfg rawstate = Ok state
    /\ state_shape (handed_over cfg) b (Config.hidden_size cfg) state = true
    /\ (if String.eqb (Config.cell cfg) "gru"
        then exists s, state = StGRU s
        else exists s c, state = StLSTM s c).
Proof.
  intros e0 e Ht Hl Hxs. unfold rnn_encoder.reduce_state.
  assert (Hrnn : rnn_encoder.rnn e
                 = if String.eqb (Config.cell cfg) "gru"
                   then rnn_encoder.RnnGRU
                          {| nn.gru_input_size := Config.emb_size cfg;
                             nn.gru_hidden_size := Config.hidden_size cfg;
                             nn.gru_num_layers := Config.enc_num_layers cfg;
                             nn.gru_dropout := Config.dropout cfg;
                             nn.gru_bidirectional := Config.bidirectional cfg;
                             nn.gru_training := negb evaluating;
                             nn.gru_cell := rnn_encoder.w_gru wts |}
                   else rnn_encoder.RnnLSTM
                          {| nn.lstm_input_size := Config.emb_size cfg;
                             nn.lstm_hidden_size := Config.hidden_size cfg;
                             nn.lstm_num_layers := Config.enc_num_layers cfg;
                             nn.lstm_dropout := Config.dropout cfg;
                             nn.lstm_bidirectional := Config.bidirectional cfg;
                             nn.lstm_training := negb evaluating;
                             nn.lstm_cell := rnn_encoder.w_lstm wts |}).
  { unfold e, e0. destruct evaluating; simpl;
      destruct (String.eqb (Config.cell cfg) "gru"); reflexivity. }
  rewrite Hrnn. clear Hrnn.
  destruct (String.eqb (Config.cell cfg) "gru").
  - match goal with
    | |- context [rnn_encoder.RnnGRU ?g] =>
        destruct (GRU_forward_shape g (xs := xs) w Ht Hxs)
          as (y & h_n & w' & Hrun & Hy & Hhn)
    end.
    cbn in Hy, Hhn. specialize (Hy Hl).
    exists y, (StGRU h_n), w', (StGRU (firstn (Config.dec_num_layers cfg) h_n)).
    simpl. erewrite bind_step by exact Hrun.
    repeat split; try apply Hy; [|eexists; reflexivity].
    apply shape3_true. destruct Hhn as [Hlen Hmats]. split.
    + rewrite length_firstn, Hlen. reflexivity.
    + apply Forall_firstn_keep, Hmats.
  - match goal with
    | |- context [rnn_encoder.RnnLSTM ?g] =>
        destruct (LSTM_forward_shape g (xs := xs) w Ht Hxs)
          as (y & h_n & c_n & w' & Hrun & Hy & Hhn & Hcn)
    end.
    cbn in Hy, Hhn, Hcn. specialize (Hy Hl).
    exists y, (StLSTM h_n c_n), w', (StLSTM (slice_step2 h_n) (slice_step2 c_n)).
    simpl. erewrite bind_step by exact Hrun.
    repeat split; try apply Hy; [|eexists _, _; reflexivity].
    destruct Hhn as [Hlen Hmats]. destruct Hcn as [Hlenc Hmatsc].
    apply andb_true_iff. split; apply shape3_true;
      (split; [rewrite slice_step2_length, ?Hlen, ?Hlenc; reflexivity
              | apply slice_step2_Forall; assumption]).
Qed.

(** The master statement on shapes: on a rectangular batch of token ids
    that the embedding knows, with lengths [pack] accepts, an encoder built
    by [__init__] fails when the longest length is below 7 and otherwise
    returns outputs [T x B x hidden], a context [B x (T - 6) x hidden] and
    the reduced state, [T] being the longest length. *)
Lemma encoder_forward_shapes (cfg : Config.t R) emb (wts : rnn_encoder.weights R)
      (evaluating : bool) inputs lengths t b (world : world R G) :
  let e0 := rnn_encoder.__init__ cfg emb wts in
  let e := if evaluating then rnn_encoder.eval e0 else e0 in
  nn.embedding_dim (rnn_encoder.embedding e) = Config.emb_size cfg ->
  1 <= Config.emb_size cfg -> 1 <= Config.hidden_size cfg ->
  1 <= Config.enc_num_layers cfg ->
  shape2 t b inputs = true ->
  ids_in_range (nn.num_embeddings (rnn_encoder.embedding e)) inputs = true ->
  valid_lengths t b lengths = true ->
  (hd 0 lengths < 7 ->
   rnn_encoder.forward e inputs lengths world = Err RuntimeError)
  /\ (7 <= hd 0 lengths ->
      exists outputs state conv world',
        rnn_encoder.forward e inputs lengths world
        = Ok ((outputs, state, conv), world')
        /\ Ten (hd 0 lengths) b (Config.hidden_size cfg) outputs
        /\ Ten b (hd 0 lengths - 6) (Config.hidden_size cfg) conv
        /\ state_shape (handed_over cfg) b (Config.hidden_size cfg) state = true
        /\ (if String.eqb (Config.cell cfg) "gru"
            then exists s, state = StGRU s
            else exists s c, state = StLSTM s c)).
Proof.
  intros e0 e Hdim He Hh Hl Hin Hids Hvalid.
  apply shape2_true in Hin.
  destruct (valid_lengths_facts _ _ _ Hvalid) as (_ & Hb & _ & _ & Hhd).
  set (T := hd 0 lengths) in *.
  (* the stages before the convolutions *)
  pose proof (ids_in_range_lookup _ _ Hids) as Hemb.
  pose proof (embedded_shape (rnn_encoder.embedding e) Hin) as Hembs.
  rewrite Hdim in Hembs, Hemb.
  destruct (pack_unpack_shape lengths He Hembs Hvalid) as (p & Hpack & Hunp).
  fold T in Hunp.
  destruct (init_rnn_forward_shape cfg emb wts evaluating world
              (proj1 Hhd) Hl Hunp)
    as (raw & rawstate & w1 & state & Hrnn & Hraw & Hred & Hstate & Hkind).
  fold e0 in Hrnn. fold e in Hrnn.
  assert (Hcfg : rnn_encoder.config e = cfg)
    by (unfold e, e0; destruct evaluating; reflexivity).
  assert (Hhs : rnn_encoder.hidden_size e = Config.hidden_size cfg)
    by (unfold e, e0; destruct evaluating; reflexivity).
  assert (Hfold : exists outputs,
             (if Config.bidirectional cfg
              then lift (rnn_encoder.fold_directions (Config.hidden_size cfg) raw)
              else ret raw) w1 = Ok (outputs, w1)
             /\ Ten T b (Config.hidden_size cfg) outputs).
  { destruct (Config.bidirectional cfg).
    - eexists. split.
      + unfold lift. rewrite fold_directions_ok; [reflexivity|].
        destruct Hraw as [_ Hm]. eapply Forall_impl; [|exact Hm].
        intros m [_ Hv]. exact Hv.
      + apply folded_shape. exact Hraw.
    - exists raw. split; [reflexivity|].
      replace (Config.hidden_size cfg) with (1 * Config.hidden_size cfg) by lia.
      exact Hraw. }
  destruct Hfold as (outputs & Hfold & Hout).
  assert (Hconv_in : Ten b (Config.hidden_size cfg) T
                         (map (transpose rzero) (transpose [] outputs))).
  { pose proof (transpose_outer_shape (proj1 Hhd) Hout) as [Hlen Hmats].
    split; [rewrite length_map; exact Hlen|].
    rewrite Forall_forall in Hmats.
    apply Forall_forall. intros m' Hm'.
    apply in_map_iff in Hm'. destruct Hm' as (m & <- & Hm).
    apply transpose_shape; [exact (proj1 Hhd) | apply Hmats, Hm]. }
  assert (Hdconv : exists p1 p2 p3 t1 t2 t3,
             rnn_encoder.dconv e
             = [ nn.Conv (rnn_encoder.dconv_conv cfg wts 1); nn.SELU;
                 nn.AlphaDropout p1 t1;
                 nn.Conv (rnn_encoder.dconv_conv cfg wts 2); nn.SELU;
                 nn.AlphaDropout p2 t2;
                 nn.Conv (rnn_encoder.dconv_conv cfg wts 3); nn.SELU;
                 nn.AlphaDropout p3 t3 ]).
  { unfold e, e0. destruct evaluating; simpl; repeat eexists. }
  destruct Hdconv as (p1 & p2 & p3 & t1 & t2 & t3 & Hdconv).
  destruct (dconv_forward_shape cfg wts p1 p2 p3 t1 t2 t3 w1 Hh Hconv_in)
    as [Hlong Hshort].
  (* run forward up to the convolutions *)
  assert (Hrun : rnn_encoder.forward e inputs lengths world
                 = (conv <- nn.Sequential_forward (rnn_encoder.dconv e)
                             (map (transpose rzero) (transpose [] outputs)) ;;
                    state <- lift (rnn_encoder.reduce_state cfg rawstate) ;;
                    ret (outputs, state, map (transpose rzero) conv)) w1).
  { unfold rnn_encoder.forward.
    erewrite bind_step by (unfold lift; rewrite Hemb; reflexivity).
    erewrite bind_step by (unfold lift; rewrite Hpack; reflexivity).
    erewrite bind_step by exact Hrnn.
    rewrite Hcfg, Hhs.
    erewrite bind_step by exact Hfold. reflexivity. }
  rewrite Hrun, Hdconv. split.
  - intros Hlt. apply bind_err. apply Hshort; [exact Hb | fold T; lia].
  - intros Hge. destruct (Hlong Hge) as (y & w2 & Hy & Hyshape).
    erewrite bind_step by exact Hy.
    erewrite bind_step by (unfold lift; rewrite Hred; reflexivity).
    exists outputs, state, (map (transpose rzero) y), w2.
    split; [reflexivity|]. split; [exact Hout|]. split; [|split; assumption].
    destruct Hyshape as [Hlen Hmats].
    split; [rewrite length_map; exact Hlen|].
    rewrite Forall_forall in Hmats.
    apply Forall_forall. intros m' Hm'.
    apply in_map_iff in Hm'. destruct Hm' as (m & <- & Hm).
    apply transpose_shape; [exact Hh | apply Hmats, Hm].
Qed.
End EncoderShapes.

(** ** C2 and C7: the encoder's outputs and its convolutional context *)

Section EncoderClaims.
Context {R G : Type} `{Scalar R} `{Sampler G R}.

Lemma init_rnn_forward_width (cfg : Config.t R) emb (wts : rnn_encoder.weights R)
      (evaluating : bool) xs (w w' : world R G) raw rawstate :
  let e0 := rnn_encoder.__init__ cfg emb wts in
  let e := if evaluating then rnn_encoder.eval e0 else e0 in
  1 <= Config.enc_num_layers cfg ->
  rnn_encoder.rnn_forward (rnn_encoder.rnn e) xs w = Ok ((raw, rawstate), w') ->
  Forall (Forall (fun v => length v
                           = (if Config.bidirectional cfg then 2 else 1)
                             * Config.hidden_size cfg)) raw.
Proof.
  intros e0 e Hl. unfold e, e0.
  destruct evaluating; simpl; destruct (String.eqb (Config.cell cfg) "gru");
    simpl; intros Hrun; peel Hrun; destruct a as [y st];
    try destruct st as [h_n c_n]; peel_ret Hrun;
    first [ apply GRU_forward_width in Hc; [exact Hc | exact Hl]
          | apply LSTM_forward_width in Hc; [exact Hc | exact Hl] ].
Qed.

(** C2.  For an encoder built by [__init__] (either mode), on a rectangular
    batch of known token ids whose longest true length [L] is at least 7:
    [forward] returns; the outputs keep [L] time steps; the convolutional
    context has [L - 6] positions for every example, six fewer than the
    outputs, because the convolutions of dilation 2 and 3 are padded by 1
    like the first; the feature width of both is [hidden_size]. *)
Theorem conv_context_six_positions_shorter
        (cfg : Config.t R) emb (wts : rnn_encoder.weights R) (evaluating : bool)
        inputs lengths t b (world : world R G) :
  let e0 := rnn_encoder.__init__ cfg emb wts in
  let e := if evaluating then rnn_encoder.eval e0 else e0 in
  nn.embedding_dim (rnn_encoder.embedding e) = Config.emb_size cfg ->
  1 <= Config.emb_size cfg -> 1 <= Config.hidden_size cfg ->
  1 <= Config.enc_num_layers cfg ->
  shape2 t b inputs = true ->
  ids_in_range (nn.num_embeddings (rnn_encoder.embedding e)) inputs = true ->
  valid_lengths t b lengths = true ->
  7 <= hd 0 lengths ->
  exists outputs state conv world',
    rnn_encoder.forward e inputs lengths world = Ok ((outputs, state, conv), world')
    /\ length outputs = hd 0 lengths
    /\ Forall (Forall (fun v => length v = Config.hidden_size cfg)) outputs
    /\ length conv = b
    /\ Forall (fun example =>
                 length example + 6 = length outputs
                 /\ Forall (fun v => length v = Config.hidden_size cfg) example)
              conv.
Proof.
  intros e0 e Hdim He Hh Hl Hin Hids Hvalid Hlong.
  destruct (encoder_forward_shapes cfg emb wts evaluating inputs lengths t b world
              Hdim He Hh Hl Hin Hids Hvalid) as [_ Hok].
  destruct (Hok Hlong)
    as (outputs & state & conv & world' & Hrun & [Holen Hout] & [Hclen Hconv] & _).
  exists outputs, state, conv, world'.
  split; [exact Hrun|]. split; [exact Holen|]. split; [|split; [exact Hclen|]].
  - eapply Forall_impl; [|exact Hout]. intros m [_ Hv]. exact Hv.
  - eapply Forall_impl; [|exact Hconv]. intros m [Hm Hv].
    split; [rewrite Hm, Holen; lia | exact Hv].
Qed.

(** C7.  For an encoder built by [__init__] with at least one layer, whenever
    [forward] returns: every output vector has [hidden_size] features,
    bidirectional or not; and when the encoder is bidirectional, the
    recurrent network returned vectors of [2 * hidden_size] features (the
    forward half followed by the backward half) and each output vector is
    the elementwise sum of the first and the second half of the
    corresponding one. *)
Theorem bidirectional_halves_are_summed
        (cfg : Config.t R) emb (wts : rnn_encoder.weights R) (evaluating : bool)
        inputs lengths (world world' : world R G) outputs state conv :
  let e0 := rnn_encoder.__init__ cfg emb wts in
  let e := if evaluating then rnn_encoder.eval e0 else e0 in
  1 <= Config.enc_num_layers cfg ->
  rnn_encoder.forward e inputs lengths world = Ok ((outputs, state, conv), world') ->
  Forall (Forall (fun v => length v = Config.hidden_size cfg)) outputs
  /\ (Config.bidirectional cfg = true ->
      exists embedded embs raw rawstate w1,
        mapR (mapR (nn.Embedding_lookup (rnn_encoder.embedding e))) inputs
        = Ok embedded
        /\ pack embedded lengths = Ok embs
        /\ rnn_encoder.rnn_forward (rnn_encoder.rnn e) (fst (unpack embs)) world
           = Ok ((raw, rawstate), w1)
        /\ Forall (Forall (fun v => length v = 2 * Config.hidden_size cfg)) raw
        /\ outputs
           = map (map (fun v => map2 radd (firstn (Config.hidden_size cfg) v)
                                          (skipn (Config.hidden_size cfg) v)))
                 raw).
Proof.
  intros e0 e Hl Hrun.
  destruct (encoder_forward_inv _ _ _ _ Hrun)
    as (embedded & embs & raw & rawstate & w1 & conv0
        & Hemb & Hpack & Hrnn & Hfold & _ & _ & _).
  pose proof (init_rnn_forward_width cfg emb wts evaluating _ _ Hl Hrnn) as Hw.
  assert (Hcfg : rnn_encoder.config e = cfg)
    by (unfold e, e0; destruct evaluating; reflexivity).
  assert (Hhs : rnn_encoder.hidden_size e = Config.hidden_size cfg)
    by (unfold e, e0; destruct evaluating; reflexivity).
  rewrite Hcfg, Hhs in Hfold.
  destruct (Config.bidirectional cfg).
  - rewrite (fold_directions_ok _ Hw) in Hfold. injection Hfold as <-.
    split; [apply folded_width, Hw|].
    intros _. exists embedded, embs, raw, rawstate, w1.
    repeat split; assumption.
  - subst outputs. split; [|discriminate].
    eapply Forall_impl; [|exact Hw]. intros m Hm.
    eapply Forall_impl; [|exact Hm]. intros v Hv. simpl in Hv. lia.
Qed.
End EncoderClaims.

(** ** C5: the state handed to the decoder *)

Section StateHandoff.
Context {R G : Type} `{Scalar R} `{Sampler G R}.

Lemma layer_forward_final_count S (step : nat -> bool -> list R -> S -> S) hid s0
      bidirectional l xs :
  length (snd (nn.layer_forward step hid s0 bidirectional l xs))
  = if bidirectional then 2 else 1.
Proof. unfold nn.layer_forward. destruct bidirectional; reflexivity. Qed.

(** Every layer adds one final state per direction. *)
Lemma layers_forward_final_count S (step : nat -> bool -> list R -> S -> S) hid s0
      p bidirectional training ls :
  forall xs (w w' : world R G) y fins,
    nn.layers_forward step hid s0 p bidirectional training ls xs w
    = Ok ((y, fins), w') ->
    length fins = (if bidirectional then 2 else 1) * length ls.
Proof.
  induction ls as [|l rest IH]; intros xs w w' y fins Hrun.
  - simpl in Hrun. unfold ret in Hrun. injection Hrun as _ <- _.
    destruct bidirectional; reflexivity.
  - simpl in Hrun.
    pose proof (layer_forward_final_count step hid s0 bidirectional l xs) as Hfin.
    destruct (nn.layer_forward step hid s0 bidirectional l xs) as [out fin].
    apply bind_ok in Hrun. destruct Hrun as (out' & w1 & _ & Hrun).
    apply bind_ok in Hrun. destruct Hrun as ([y' fins'] & w2 & Hrest & Hrun).
    unfold ret in Hrun. injection Hrun as _ <- _.
    apply IH in Hrest. simpl in Hfin. rewrite length_app, Hrest, Hfin.
    simpl. destruct bidirectional; lia.
Qed.

(** The final state of the recurrent network of an encoder built by
    [__init__]: its kind follows the cell option, and it has one entry per
    layer and direction. *)
Lemma init_rnn_final_count (cfg : Config.t R) emb (wts : rnn_encoder.weights R)
      (evaluating : bool) xs (w w' : world R G) raw rawstate :
  let e0 := rnn_encoder.__init__ cfg emb wts in
  let e := if evaluating then rnn_encoder.eval e0 else e0 in
  let dirs := if Config.bidirectional cfg then 2 else 1 in
  rnn_encoder.rnn_forward (rnn_encoder.rnn e) xs w = Ok ((raw, rawstate), w') ->
  if String.eqb (Config.cell cfg) "gru"
  then exists h_n,
      rawstate = StGRU h_n /\ length h_n = dirs * Config.enc_num_layers cfg
  else exists h_n c_n,
      rawstate = StLSTM h_n c_n
      /\ length h_n = dirs * Config.enc_num_layers cfg
      /\ length c_n = dirs * Config.enc_num_layers cfg.
Proof.
  intros e0 e dirs.
  assert (Hinit : rnn_encoder.rnn e
                  = if String.eqb (Config.cell cfg) "gru"
                    then rnn_encoder.RnnGRU
                           {| nn.gru_input_size := Config.emb_size cfg;
                              nn.gru_hidden_size := Config.hidden_size cfg;
                              nn.gru_num_layers := Config.enc_num_layers cfg;
                              nn.gru_dropout := Config.dropout cfg;
                              nn.gru_bidirectional := Config.bidirectional cfg;
                              nn.gru_training := negb evaluating;
                              nn.gru_cell := rnn_encoder.w_gru wts |}
                    else rnn_encoder.RnnLSTM
                           {| nn.lstm_input_size := Config.emb_size cfg;
                              nn.lstm_hidden_size := Config.hidden_size cfg;
                              nn.lstm_num_layers := Config.enc_num_layers cfg;
                              nn.lstm_dropout := Config.dropout cfg;
                              nn.lstm_bidirectional := Config.bidirectional cfg;
                              nn.lstm_training := negb evaluating;
                              nn.lstm_cell := rnn_encoder.w_lstm wts |}).
  { unfold e, e0. destruct evaluating; simpl;
      destruct (String.eqb (Config.cell cfg) "gru"); reflexivity. }
  rewrite Hinit. clear Hinit.
  destruct (String.eqb (Config.cell cfg) "gru");
    unfold rnn_encoder.rnn_forward; intros Hrun.
  - apply bind_ok in Hrun. destruct Hrun as ([outputs h_n] & w1 & Hrnn & Hret).
    unfold ret in Hret. injection Hret as _ <- _.
    exists h_n. split; [reflexivity|].
    unfold nn.GRU_forward, nn.rnn_forward in Hrnn.
    destruct (forallb _ xs); [|discriminate].
    apply layers_forward_final_count in Hrnn.
    rewrite length_seq in Hrnn. exact Hrnn.
  - apply bind_ok in Hrun.
    destruct Hrun as ([outputs [h_n c_n]] & w1 & Hrnn & Hret).
    unfold ret in Hret. injection Hret as _ <- _.
    exists h_n, c_n. split; [reflexivity|].
    unfold nn.LSTM_forward in Hrnn.
    apply bind_ok in Hrnn. destruct Hrnn as ([out fins] & w2 & Hrnn & Hret).
    unfold ret in Hret. injection Hret as _ <- <- _.
    unfold nn.rnn_forward in Hrnn.
    destruct (forallb _ xs); [|discriminate].
    apply layers_forward_final_count in Hrnn.
    rewrite length_seq in Hrnn. rewrite !length_map. split; exact Hrnn.
Qed.

(** C5, as the code has it.  For an encoder built by [__init__], in either
    mode, with [dirs] directions.  On every well-formed batch whose longest
    length is at least 7, [forward] returns.  Whenever it returns, the final
    state of the recurrent network has [dirs * enc_num_layers] entries (in
    each component, for an LSTM) and the state handed over is that state
    reduced as follows.  With [cell] equal to ['gru']: its first
    [dec_num_layers] entries, which are
    [min dec_num_layers (dirs * enc_num_layers)] entries.  With any other
    [cell], an LSTM: entry [i] of the returned hidden component is entry
    [2 * i] of [h_n] and entry [i] of the returned cell component is entry
    [2 * i] of [c_n], every other entry of each component taken separately,
    which are half of [dirs * enc_num_layers] entries, rounded up.  The
    number of entries handed over is the decoder's layer count for some
    configurations only. *)
Theorem state_handoff_policy
        (cfg : Config.t R) emb (wts : rnn_encoder.weights R) (evaluating : bool) :
  let e0 := rnn_encoder.__init__ cfg emb wts in
  let e := if evaluating then rnn_encoder.eval e0 else e0 in
  let dirs := if Config.bidirectional cfg then 2 else 1 in
  (forall inputs lengths t b (world : world R G),
      nn.embedding_dim (rnn_encoder.embedding e) = Config.emb_size cfg ->
      1 <= Config.emb_size cfg -> 1 <= Config.hidden_size cfg ->
      1 <= Config.enc_num_layers cfg ->
      shape2 t b inputs = true ->
      ids_in_range (nn.num_embeddings (rnn_encoder.embedding e)) inputs = true ->
      valid_lengths t b lengths = true ->
      7 <= hd 0 lengths ->
      exists outputs state conv world',
        rnn_encoder.forward e inputs lengths world
        = Ok ((outputs, state, conv), world'))
  /\ (forall inputs lengths (w w' : world R G) outputs state conv,
         rnn_encoder.forward e inputs lengths w = Ok ((outputs, state, conv), w') ->
         exists embedded embs raw rawstate w1,
           mapR (mapR (nn.Embedding_lookup (rnn_encoder.embedding e))) inputs
           = Ok embedded
           /\ pack embedded lengths = Ok embs
           /\ rnn_encoder.rnn_forward (rnn_encoder.rnn e) (fst (unpack embs)) w
              = Ok ((raw, rawstate), w1)
           /\ (Config.cell cfg = "gru"%string ->
               exists h_n,
                 rawstate = StGRU h_n
                 /\ length h_n = dirs * Config.enc_num_layers cfg
                 /\ state = StGRU (firstn (Config.dec_num_layers cfg) h_n)
                 /\ length (firstn (Config.dec_num_layers cfg) h_n)
                    = Nat.min (Config.dec_num_layers cfg)
                              (dirs * Config.enc_num_layers cfg))
           /\ (Config.cell cfg <> "gru"%string ->
               exists h_n c_n h c,
                 rawstate = StLSTM h_n c_n
                 /\ length h_n = dirs * Config.enc_num_layers cfg
                 /\ length c_n = dirs * Config.enc_num_layers cfg
                 /\ state = StLSTM h c
                 /\ (forall i, nth_error h i = nth_error h_n (2 * i))
                 /\ (forall i, nth_error c i = nth_error c_n (2 * i))
                 /\ length h = Nat.div2 (S (dirs * Config.enc_num_layers cfg))
                 /\ length c = Nat.div2 (S (dirs * Config.enc_num_layers cfg)))).
Proof.
  intros e0 e dirs. split.
  - intros inputs lengths t b world Hdim He Hh Hl Hin Hids Hvalid Hlong.
    destruct (encoder_forward_shapes cfg emb wts evaluating inputs lengths t b world
                Hdim He Hh Hl Hin Hids Hvalid) as [_ Hok].
    destruct (Hok Hlong) as (outputs & state & conv & world' & Hrun & _).
    exists outputs, state, conv, world'. exact Hrun.
  - intros inputs lengths w w' outputs state conv Hrun.
    destruct (encoder_forward_inv _ _ _ _ Hrun)
      as (emb' & embs & raw & rawstate & w1 & conv0
          & Hemb & Hpack & Hrnn & _ & _ & _ & Hred).
    exists emb', embs, raw, rawstate, w1.
    split; [exact Hemb|]. split; [exact Hpack|]. split; [exact Hrnn|].
    assert (Hcfg : rnn_encoder.config e = cfg)
      by (unfold e, e0; destruct evaluating; reflexivity).
    rewrite Hcfg in Hred. unfold rnn_encoder.reduce_state in Hred.
    pose proof (init_rnn_final_count cfg emb wts evaluating _ _ Hrnn) as Hcount.
    cbv zeta in Hcount. fold dirs in Hcount.
    split.
    + intros Hgru. rewrite Hgru in Hred, Hcount. simpl in Hred, Hcount.
      destruct Hcount as (h_n & -> & Hlen). injection Hred as <-.
      exists h_n. split; [reflexivity|]. split; [exact Hlen|].
      split; [reflexivity|]. rewrite length_firstn, Hlen. reflexivity.
    + intros Hlstm. apply String.eqb_neq in Hlstm. rewrite Hlstm in Hred, Hcount.
      destruct Hcount as (h_n & c_n & -> & Hlen & Hlenc). injection Hred as <-.
      exists h_n, c_n, (slice_step2 h_n), (slice_step2 c_n).
      split; [reflexivity|]. split; [exact Hlen|]. split; [exact Hlenc|].
      split; [reflexivity|].
      split; [apply slice_step2_nth_error|].
      split; [apply slice_step2_nth_error|].
      rewrite !slice_step2_length, Hlen, Hlenc. split; reflexivity.
Qed.
End StateHandoff.

(** ** C1: what the padding can and cannot change *)

Section PaddingContent.
Context {R G : Type} `{Scalar R} `{Sampler G R}.

Lemma sorted_decreasing_head l ls :
  sorted_decreasing (l :: ls) = true -> Forall (fun x => x <= l) ls.
Proof.
  revert l. induction ls as [|a ls IH]; intros l Hs; [constructor|].
  simpl in Hs. apply andb_true_iff in Hs. destruct Hs as [Hal Hs].
  apply Nat.leb_le in Hal. constructor; [exact Hal|].
  eapply Forall_impl; [|apply IH; exact Hs]. simpl. intros x Hx. lia.
Qed.

Lemma sorted_decreasing_tail l ls :
  sorted_decreasing (l :: ls) = true -> sorted_decreasing ls = true.
Proof.
  destruct ls as [|a ls]; [reflexivity|].
  simpl. intros Hs. apply andb_true_iff in Hs. apply Hs.
Qed.

(** The lengths being sorted, the examples still running at step [i] are
    the first [batch_size_at lengths i] ones. *)
Lemma running_examples_prefix lengths i j :
  sorted_decreasing lengths = true ->
  j < batch_size_at lengths i -> i < nth j lengths 0.
Proof.
  revert j. induction lengths as [|l ls IH]; intros j Hs Hj.
  - unfold batch_size_at in Hj. simpl in Hj. lia.
  - unfold batch_size_at in Hj. simpl in Hj.
    destruct (i <? l) eqn:Hil.
    + apply Nat.ltb_lt in Hil. destruct j as [|j]; [exact Hil|].
      simpl in *. apply IH; [eapply sorted_decreasing_tail, Hs|].
      unfold batch_size_at. lia.
    + apply Nat.ltb_ge in Hil. exfalso.
      pose proof (sorted_decreasing_head _ _ Hs) as Hall.
      assert (Hnone : filter (fun l0 => i <? l0) ls = []).
      { clear -Hall Hil. induction Hall as [|a ls Ha Hall IH]; [reflexivity|].
        simpl. replace (i <? a) with false by (symmetry; apply Nat.ltb_ge; lia).
        exact IH. }
      rewrite Hnone in Hj. simpl in Hj. lia.
Qed.




Lemma running_examples_complete lengths i j :
  sorted_decreasing lengths = true ->
  j < length lengths -> i < nth j lengths 0 -> j < batch_size_at lengths i.
Proof.
  revert j. induction lengths as [|l ls IH]; intros j Hs Hj Hij.
  - simpl in Hj. lia.
  - unfold batch_size_at. simpl.
    pose proof (sorted_decreasing_head _ _ Hs) as Hall.
    assert (Hil : i < l).
    { destruct j as [|j]; [exact Hij|]. simpl in Hij, Hj.
      pose proof (Forall_nth_default 0 (i := j) Hall) as Hle.
      simpl in Hle. specialize (Hle ltac:(lia)). lia. }
    apply Nat.ltb_lt in Hil. rewrite Hil. simpl.
    destruct j as [|j]; [lia|].
    simpl in Hij, Hj.
    specialize (IH j (sorted_decreasing_tail _ _ Hs) ltac:(lia) Hij).
    unfold batch_size_at in IH. lia.
Qed.

Lemma unpack_steps_map (rows : nat -> list (list R)) (bs : nat -> nat) b pad steps :
  (forall i, In i steps -> length (rows i) = bs i) ->
  unpack_steps (flat_map rows steps) (map bs steps) b pad
  = map (fun i => rows i ++ repeat pad (b - bs i)) steps.
Proof.
  induction steps as [|i steps IH]; intros Hrows; [reflexivity|].
  simpl. rewrite firstn_app, skipn_app, <- (Hrows i (or_introl eq_refl)).
  rewrite Nat.sub_diag, firstn_all, skipn_all. simpl. rewrite app_nil_r.
  rewrite IH; [reflexivity|]. intros i' Hi'. apply Hrows. right. exact Hi'.
Qed.

(** What the recurrent network is given: at step [i] below the longest
    length, example [j] keeps its own row while it is within its length and
    gets a row of zeros afterwards. *)
Lemma unpack_pack_nth (x : list (list (list R))) lengths t b e p i j :
  1 <= e -> Ten t b e x -> valid_lengths t b lengths = true ->
  pack x lengths = Ok p ->
  i < hd 0 lengths -> j < b ->
  nth j (nth i (fst (unpack p)) []) []
  = if i <? nth j lengths 0 then nth j (nth i x []) [] else repeat rzero e.
Proof.
  intros He [Hlen Hmats] Hvalid Hpack Hi Hj.
  destruct (valid_lengths_facts _ _ _ Hvalid) as (Hl & Hb & Hz & Hs & Hhd).
  assert (Hstep : forall k, k < t ->
            length (nth k x []) = b /\ Forall (fun v => length v = e) (nth k x [])).
  { intros k Hk. apply (Forall_nth_default [] (i := k) Hmats). lia. }
  destruct (Hstep 0) as [Hb0 Hw0]; [lia|].
  assert (Hhd0 : hd [] x = nth 0 x []) by (destruct x; reflexivity).
  assert (Hhd1 : length (hd [] (hd [] x)) = e).
  { rewrite Hhd0. destruct (nth 0 x []) as [|v m]; [simpl in Hb0; lia|].
    inversion Hw0; assumption. }
  unfold pack in Hpack. rewrite Hhd1, Hhd0, Hb0, Hlen in Hpack.
  replace (t =? 0) with false in Hpack by (symmetry; apply Nat.eqb_neq; lia).
  replace (b =? 0) with false in Hpack by (symmetry; apply Nat.eqb_neq; lia).
  replace (e =? 0) with false in Hpack by (symmetry; apply Nat.eqb_neq; lia).
  rewrite Hl, Nat.eqb_refl, Hz, Hs in Hpack. simpl in Hpack.
  replace (t <? hd 0 lengths) with false in Hpack
    by (symmetry; apply Nat.ltb_ge; lia).
  injection Hpack as <-. unfold unpack. simpl.
  set (rows := fun k => firstn (batch_size_at lengths k) (nth k x [])).
  assert (Hsz : hd 0 (map (batch_size_at lengths) (seq 0 (hd 0 lengths))) = b).
  { destruct (hd 0 lengths) as [|n]; [lia|]. simpl.
    rewrite batch_size_at_0 by exact Hz. exact Hl. }
  assert (Hpad : length (hd [] (flat_map rows (seq 0 (hd 0 lengths)))) = e).
  { destruct (hd 0 lengths) as [|n]; [lia|]. simpl. unfold rows at 1.
    rewrite batch_size_at_0, Hl by exact Hz.
    destruct (nth 0 x []) as [|v m]; [simpl in Hb0; lia|].
    destruct b; [lia|]. simpl. inversion Hw0; assumption. }
  rewrite Hsz, Hpad.
  assert (Hrowlen : forall k, In k (seq 0 (hd 0 lengths)) ->
                              length (rows k) = batch_size_at lengths k).
  { intros k Hk. apply in_seq in Hk. destruct (Hstep k) as [Hbk _]; [lia|].
    pose proof (batch_size_at_le lengths k). unfold rows.
    rewrite length_firstn. lia. }
  rewrite (unpack_steps_map rows (batch_size_at lengths) b (repeat rzero e) _ Hrowlen).
  set (f := fun k => rows k ++ repeat (repeat rzero e) (b - batch_size_at lengths k)).
  replace (nth i (map f (seq 0 (hd 0 lengths))) []) with (f i).
  2:{ rewrite (nth_indep _ [] (f 0)) by (rewrite length_map, length_seq; exact Hi).
      rewrite map_nth, seq_nth by exact Hi. reflexivity. }
  unfold f. pose proof (Hrowlen i ltac:(apply in_seq; lia)) as Hri.
  destruct (i <? nth j lengths 0) eqn:Hij.
  - apply Nat.ltb_lt in Hij.
    assert (Hjb : j < batch_size_at lengths i)
      by (apply running_examples_complete; [exact Hs | lia | exact Hij]).
    rewrite app_nth1 by lia. unfold rows.
    rewrite nth_firstn. apply Nat.ltb_lt in Hjb. rewrite Hjb. reflexivity.
  - apply Nat.ltb_ge in Hij.
    assert (Hjb : batch_size_at lengths i <= j).
    { destruct (Nat.le_gt_cases (batch_size_at lengths i) j) as [Hle|Hgt];
        [exact Hle|].
      apply running_examples_prefix in Hgt; [lia | exact Hs]. }
    rewrite app_nth2 by lia. rewrite Hri.
    apply nth_repeat_lt. lia.
Qed.



End PaddingContent.

(** ** C9: evaluation mode does not consult the generator *)

Section Determinism.
Context {R G : Type} `{Scalar R} `{Sampler G R}.

(** A computation whose returned value is the same in every world. *)
Abbreviation steady c := (forall w1 w2 : world R G, value (c w1) = value (c w2)).

Lemma steady_ret A (a : A) : steady (ret a).
Proof. reflexivity. Qed.

Lemma steady_lift A (r : result A) : steady (lift r).
Proof. intros w1 w2. unfold lift. destruct r; reflexivity. Qed.

Lemma steady_bind A B (c : M R G A) (k : A -> M R G B) :
  steady c -> (forall a, steady (k a)) -> steady (bind c k).
Proof.
  intros Hc Hk w1 w2. specialize (Hc w1 w2). unfold bind.
  destruct (c w1) as [[a1 w1']|e1], (c w2) as [[a2 w2']|e2]; simpl in Hc;
    try discriminate.
  - injection Hc as ->. apply Hk.
  - injection Hc as ->. reflexivity.
Qed.

Lemma steady_record_dropout x : steady (record_dropout (G := G) x).
Proof. reflexivity. Qed.

Lemma steady_Dropout_eval (m : nn.Dropout R) x :
  steady (nn.Dropout_forward (nn.Dropout_eval m) x).
Proof.
  unfold nn.Dropout_forward. apply steady_bind; [apply steady_record_dropout|].
  intros _. simpl. apply steady_ret.
Qed.

Lemma steady_layers_forward S (step : nat -> bool -> list R -> S -> S) hid s0 p
      bidirectional ls :
  forall xs, steady (nn.layers_forward step hid s0 p bidirectional false ls xs).
Proof.
  induction ls as [|l rest IH]; intros xs; simpl; [apply steady_ret|].
  destruct (nn.layer_forward step hid s0 bidirectional l xs) as [out fin].
  apply steady_bind.
  - destruct rest; apply steady_ret.
  - intros out'. apply steady_bind; [apply IH|].
    intros [y fins]. apply steady_ret.
Qed.

Lemma steady_rnn_forward S (step : nat -> bool -> list R -> S -> S) hid s0 p
      bidirectional input_size num_layers xs :
  steady (nn.rnn_forward step hid s0 p bidirectional false input_size num_layers xs).
Proof.
  unfold nn.rnn_forward. destruct (forallb _ xs);
    [apply steady_layers_forward | apply steady_lift].
Qed.

Lemma steady_Sequential_eval (ls : list (nn.layer R)) :
  forall x, steady (nn.Sequential_forward (map nn.layer_eval ls) x).
Proof.
  induction ls as [|l rest IH]; intros x; simpl; [apply steady_ret|].
  apply steady_bind; [|intros y; apply IH].
  destruct l; simpl; [apply steady_lift | apply steady_ret | apply steady_ret].
Qed.

Lemma steady_encoder_eval (e : rnn_encoder.t R) inputs lengths :
  steady (rnn_encoder.forward (rnn_encoder.eval e) inputs lengths).
Proof.
  unfold rnn_encoder.forward.
  apply steady_bind; [apply steady_lift|]. intros embedded.
  apply steady_bind; [apply steady_lift|]. intros embs.
  apply steady_bind.
  { simpl. destruct (rnn_encoder.rnn e) as [g | l]; simpl.
    - apply steady_bind; [apply steady_rnn_forward|].
      intros [outputs h_n]. apply steady_ret.
    - apply steady_bind.
      + unfold nn.LSTM_forward. apply steady_bind; [apply steady_rnn_forward|].
        intros [out fins]. apply steady_ret.
      + intros [outputs [h_n c_n]]. apply steady_ret. }
  intros [outputs state].
  apply steady_bind.
  { destruct (Config.bidirectional _); [apply steady_lift | apply steady_ret]. }
  intros outputs'.
  apply steady_bind; [apply steady_Sequential_eval|]. intros conv.
  apply steady_bind; [apply steady_lift|]. intros state'. apply steady_ret.
Qed.

Lemma steady_StackedGRU_loop (g : StackedGRU.t R) h_0 ls :
  forall i input acc,
    steady (StackedGRU.loop (StackedGRU.eval g) h_0 ls i input acc).
Proof.
  induction ls as [|layer rest IH]; intros i input acc; simpl;
    [apply steady_ret|].
  apply steady_bind; [apply steady_lift|]. intros h_0_i.
  apply steady_bind; [apply steady_lift|]. intros h_1_i.
  apply steady_bind; [|intros input'; apply IH].
  destruct (negb _); [apply steady_Dropout_eval | apply steady_ret].
Qed.

Lemma steady_StackedLSTM_loop (l : StackedLSTM.t R) h_0 c_0 ls :
  forall i input acc accc,
    steady (StackedLSTM.loop (StackedLSTM.eval l) h_0 c_0 ls i input acc accc).
Proof.
  induction ls as [|layer rest IH]; intros i input acc accc; simpl;
    [apply steady_ret|].
  apply steady_bind; [apply steady_lift|]. intros h_0_i.
  apply steady_bind; [apply steady_lift|]. intros c_0_i.
  apply steady_bind; [apply steady_lift|]. intros [h_1_i c_1_i].
  apply steady_bind; [|intros input'; apply IH].
  destruct (negb _); [apply steady_Dropout_eval | apply steady_ret].
Qed.

Lemma steady_decoder_eval (d : rnn_decoder.t R) input state conv :
  steady (rnn_decoder.forward (rnn_decoder.eval d) input state conv).
Proof.
  unfold rnn_decoder.forward.
  apply steady_bind; [apply steady_lift|]. intros embs.
  apply steady_bind.
  { simpl. destruct (rnn_decoder.rnn d) as [g | l]; simpl.
    - unfold StackedGRU.forward.
      destruct state; [|destruct (StackedGRU.layers _); apply steady_lift].
      apply steady_bind; [apply steady_StackedGRU_loop|]. intros [input' h_1].
      apply steady_bind; [apply steady_lift|]. intros h_1'. apply steady_ret.
    - unfold StackedLSTM.forward.
      destruct state as [[|h_0 [|c_0 [|x y]]] | h_0 c_0];
        try apply steady_lift;
        [destruct (StackedLSTM.layers _); [apply steady_lift|];
         apply steady_bind; [apply steady_lift|]; intros hx;
         apply steady_bind; [apply steady_lift|]; intros cx; apply steady_lift|].
      apply steady_bind; [apply steady_StackedLSTM_loop|].
      intros [input' [h_1 c_1]].
      apply steady_bind; [apply steady_lift|]. intros h_1'.
      apply steady_bind; [apply steady_lift|]. intros c_1'. apply steady_ret. }
  intros [output state'].
  apply steady_bind.
  { simpl. destruct (rnn_decoder.attention d) as [|[a|]];
      [apply steady_lift | | apply steady_ret].
    destruct (String.eqb _ _);
      (apply steady_bind; [apply steady_lift|]; intros [o wts]; apply steady_ret). }
  intros [output' attn].
  apply steady_bind; [apply steady_lift|]. intros scores. apply steady_ret.
Qed.

Lemma steady_decode_steps (d : rnn_decoder.t R) tokens :
  forall state conv,
    steady (decode_steps (rnn_decoder.eval d) tokens state conv).
Proof.
  induction tokens as [|tok rest IH]; intros state conv; simpl;
    [apply steady_ret|].
  apply steady_bind; [apply steady_decoder_eval|]. intros [[scores state'] attn].
  apply steady_bind; [apply IH|]. intros more. apply steady_ret.
Qed.

(** C9.  With both modules in evaluation mode, whatever their parameters:
    encoding a batch and running any number of decoder steps from the state
    the encoder handed over returns the same outputs, state, context and
    per-step scores, states and attention weights (or the same failure)
    from every generator state; so two runs in a row on the same inputs
    return the same, however many draws lie between them. *)
Theorem evaluation_mode_is_deterministic
        (e : rnn_encoder.t R) (d : rnn_decoder.t R)
        (inputs : list (list nat)) (lengths : list nat)
        (tokens : list (list nat)) (w1 w2 : world R G) :
  value (encode_then_decode (rnn_encoder.eval e) (rnn_decoder.eval d)
                            inputs lengths tokens w1)
  = value (encode_then_decode (rnn_encoder.eval e) (rnn_decoder.eval d)
                              inputs lengths tokens w2).
Proof.
  revert w1 w2. unfold encode_then_decode.
  apply steady_bind; [apply steady_encoder_eval|]. intros [[outputs state] conv].
  apply steady_bind; [apply steady_decode_steps|]. intros steps. apply steady_ret.
Qed.
End Determinism.

(** ** The decoder step: shapes *)

Section DecoderShapes.
Context {R G : Type} `{Scalar R} `{Sampler G R}.

Lemma forallb_width (m : list (list R)) n :
  Forall (fun v => length v = n) m ->
  forallb (fun v => length v =? n) m = true.
Proof.
  intros Hm. apply forallb_forall. rewrite Forall_forall in Hm.
  intros v Hv. apply Nat.eqb_eq, Hm, Hv.
Qed.

Lemma GRUCell_forward_ok (c : nn.GRUCell R) input hx b :
  Mat b (nn.gc_input_size c) input -> Mat b (nn.gc_hidden_size c) hx ->
  exists y, nn.GRUCell_forward c input hx = Ok y
            /\ Mat b (nn.gc_hidden_size c) y.
Proof.
  intros [Hil Hiw] [Hhl Hhw]. unfold nn.GRUCell_forward.
  rewrite Hil, Hhl, Nat.eqb_refl, (forallb_width Hiw), (forallb_width Hhw).
  eexists. split; [reflexivity|]. split.
  - rewrite map2_length. lia.
  - apply map2_Forall. intros x h _ _. unfold nn.GRUCell_step.
    rewrite length_map, length_seq. reflexivity.
Qed.

Lemma Dropout_forward_ok (m : nn.Dropout R) x (w : world R G) :
  exists y w', nn.Dropout_forward m x w = Ok (y, w')
               /\ forall a b, Mat a b x -> Mat a b y.
Proof.
  unfold nn.Dropout_forward, bind, record_dropout.
  destruct (nn.drop_training m).
  - rewrite draw_ok. eexists _, _. split; [reflexivity|].
    intros a b. simpl. apply dropout2_shape.
  - eexists _, _. split; [reflexivity|]. auto.
Qed.

Lemma same_shape_Mat (m m' : list (list R)) b h :
  Mat b h m -> Mat b h m' -> same_shape m m' = true.
Proof.
  intros [Hl Hw] [Hl' Hw']. unfold same_shape.
  rewrite Hl, Hl', Nat.eqb_refl. simpl.
  apply forallb_forall. intros [u v] Huv. simpl.
  rewrite Forall_forall in Hw, Hw'.
  rewrite (Hw u (in_combine_l _ _ _ _ Huv)), (Hw' v (in_combine_r _ _ _ _ Huv)).
  apply Nat.eqb_refl.
Qed.

Lemma stack_Mat (l : list (list (list R))) b h :
  l <> [] -> Forall (fun m => Mat b h m) l -> stack l = Ok l.
Proof.
  intros Hne Hl. unfold stack. destruct l as [|m l]; [contradiction|].
  replace (forallb (same_shape m) (m :: l)) with true; [reflexivity|].
  symmetry. apply forallb_forall. intros m' Hm'.
  rewrite Forall_forall in Hl.
  eapply same_shape_Mat; apply Hl; [left; reflexivity | exact Hm'].
Qed.

(** From layer [i] on, the loop of [StackedGRU.forward] goes through when
    the input and the state fit the cells. *)
Lemma gru_loop_total (self : StackedGRU.t R) kernels h_0 b hidden idx :
  forall i input_size input acc (w : world R G),
    Mat b input_size input ->
    i + length idx <= length h_0 ->
    Forall (fun m => Mat b hidden m) h_0 ->
    Forall (fun m => Mat b hidden m) acc ->
    exists out acc' w',
      StackedGRU.loop self h_0
        (StackedGRU.build_layers kernels idx input_size hidden) i input acc w
      = Ok ((out, acc'), w')
      /\ Forall (fun m => Mat b hidden m) acc'
      /\ length acc' = length acc + length idx
      /\ (idx <> [] -> Mat b hidden out).
Proof.
  induction idx as [|k idx IH]; intros i input_size input acc w Hin Hlen Hh0 Hacc.
  - exists input, acc, w. simpl.
    split; [reflexivity|]. split; [exact Hacc|]. split; [lia|].
    intros Hne. contradiction.
  - simpl in Hlen |- *.
    destruct (nth_error h_0 i) as [h0|] eqn:Hidx;
      [|apply nth_error_None in Hidx; lia].
    assert (Hh0i : Mat b hidden h0).
    { rewrite Forall_forall in Hh0. apply Hh0. eapply nth_error_In, Hidx. }
    set (layer := {| nn.gc_input_size := input_size; nn.gc_hidden_size := hidden;
                     nn.gc_kernel := kernels k |}).
    destruct (GRUCell_forward_ok layer Hin Hh0i) as (h1 & Hcell & Hh1).
    simpl in Hh1.
    assert (Hdrop : exists input' w1,
               (if negb (i + 1 =? StackedGRU.num_layers self)
                then nn.Dropout_forward (StackedGRU.dropout self) h1
                else ret h1) w = Ok (input', w1)
               /\ Mat b hidden input').
    { destruct (negb _).
      - destruct (Dropout_forward_ok (StackedGRU.dropout self) h1 w)
          as (y & w1 & Hy & Hkeep).
        exists y, w1. split; [exact Hy | apply Hkeep, Hh1].
      - exists h1, w. split; [reflexivity | exact Hh1]. }
    destruct Hdrop as (input' & w1 & Hdrop & Hin').
    destruct (IH (i + 1) hidden input' (acc ++ [h1]) w1 Hin')
      as (out & acc' & w' & Hrun & Hacc' & Hlen' & Hout).
    { lia. }
    { exact Hh0. }
    { apply Forall_app. split; [exact Hacc | repeat constructor; apply Hh1]. }
    exists out, acc', w'.
    erewrite bind_step by (unfold lift, index; rewrite Hidx; reflexivity).
    erewrite bind_step by (unfold lift; rewrite Hcell; reflexivity).
    erewrite bind_step by exact Hdrop.
    split; [exact Hrun|]. split; [exact Hacc'|]. split.
    + rewrite Hlen', length_app. simpl. lia.
    + intros _. destruct idx as [|k' idx'].
      * simpl in Hrun. peel_ret Hrun. exact Hin'.
      * apply Hout. discriminate.
Qed.

(** One step of a stacked GRU cell that [__init__] built with [n >= 1]
    layers, on an input and a state of the shapes it was built for. *)
Lemma StackedGRU_forward_shape n input_size hidden p kernels (evaluating : bool)
      input h_0 b (w : world R G) :
  let g0 := StackedGRU.__init__ n input_size hidden p kernels in
  let g := if evaluating then StackedGRU.eval g0 else g0 in
  1 <= n -> Mat b input_size input -> Ten n b hidden h_0 ->
  exists out h_1 w',
    StackedGRU.forward g input (StGRU h_0) w = Ok ((out, StGRU h_1), w')
    /\ Mat b hidden out /\ Ten n b hidden h_1.
Proof.
  intros g0 g Hn Hin [Hlen Hh0].
  assert (Hlayers : StackedGRU.layers g
                    = StackedGRU.build_layers kernels (seq 0 n) input_size hidden)
    by (unfold g, g0; destruct evaluating; reflexivity).
  unfold StackedGRU.forward. rewrite Hlayers.
  edestruct gru_loop_total
    with (self := g) (kernels := kernels) (h_0 := h_0) (idx := seq 0 n)
         (i := 0) (acc := @nil (list (list R))) (w := w)
    as (out & h_1 & w' & Hrun & Hh1 & Hlen1 & Hout).
  { exact Hin. }
  { rewrite length_seq. lia. }
  { exact Hh0. }
  { constructor. }
  rewrite length_seq in Hlen1. simpl in Hlen1.
  exists out, h_1, w'.
  assert (Hstack : stack h_1 = Ok h_1).
  { apply (stack_Mat (b := b) (h := hidden)); [|exact Hh1].
    destruct h_1; [simpl in Hlen1; lia | discriminate]. }
  erewrite bind_step by exact Hrun. cbn beta iota.
  erewrite bind_step by (unfold lift; rewrite Hstack; reflexivity).
  split; [reflexivity|]. split.
  - apply Hout. destruct n; [lia|discriminate].
  - split; assumption.
Qed.

Lemma LSTMCell_forward_ok (c : nn.LSTMCell R) input hx cx b :
  Mat b (nn.lc_input_size c) input ->
  Mat b (nn.lc_hidden_size c) hx -> Mat b (nn.lc_hidden_size c) cx ->
  exists h' c', nn.LSTMCell_forward c input hx cx = Ok (h', c')
                /\ Mat b (nn.lc_hidden_size c) h'
                /\ Mat b (nn.lc_hidden_size c) c'.
Proof.
  intros [Hil Hiw] [Hhl Hhw] [Hcl Hcw]. unfold nn.LSTMCell_forward.
  rewrite Hil, Hhl, Hcl, Nat.eqb_refl,
    (forallb_width Hiw), (forallb_width Hhw), (forallb_width Hcw).
  eexists _, _. split; [reflexivity|].
  assert (Hlen : length (map2 (nn.LSTMCell_step c) input (combine hx cx)) = b)
    by (rewrite map2_length, length_combine; lia).
  assert (Hsteps : Forall (fun r => length (fst r) = nn.lc_hidden_size c
                                    /\ length (snd r) = nn.lc_hidden_size c)
                          (map2 (nn.LSTMCell_step c) input (combine hx cx))).
  { apply map2_Forall. intros x hc _ _. unfold nn.LSTMCell_step. simpl.
    rewrite !length_map, length_seq. split; reflexivity. }
  rewrite Forall_forall in Hsteps.
  split; (split; [rewrite length_map; exact Hlen|]);
    apply Forall_forall; intros v Hv;
    apply in_map_iff in Hv; destruct Hv as (r & <- & Hr);
    apply (Hsteps r Hr).
Qed.

Lemma lstm_loop_total (self : StackedLSTM.t R) kernels h_0 c_0 b hidden idx :
  forall i input_size input acc accc (w : world R G),
    Mat b input_size input ->
    i + length idx <= length h_0 -> i + length idx <= length c_0 ->
    Forall (fun m => Mat b hidden m) h_0 ->
    Forall (fun m => Mat b hidden m) c_0 ->
    Forall (fun m => Mat b hidden m) acc ->
    Forall (fun m => Mat b hidden m) accc ->
    exists out acc' accc' w',
      StackedLSTM.loop self h_0 c_0
        (StackedLSTM.build_layers kernels idx input_size hidden) i input acc accc w
      = Ok ((out, (acc', accc')), w')
      /\ Forall (fun m => Mat b hidden m) acc'
      /\ Forall (fun m => Mat b hidden m) accc'
      /\ length acc' = length acc + length idx
      /\ length accc' = length accc + length idx
      /\ (idx <> [] -> Mat b hidden out).
Proof.
  induction idx as [|k idx IH];
    intros i input_size input acc accc w Hin Hlen Hlenc Hh0 Hc0 Hacc Haccc.
  - exists input, acc, accc, w. simpl.
    split; [reflexivity|]. split; [exact Hacc|]. split; [exact Haccc|].
    split; [lia|]. split; [lia|]. intros Hne. contradiction.
  - simpl in Hlen, Hlenc |- *.
    destruct (nth_error h_0 i) as [h0|] eqn:Hidx;
      [|apply nth_error_None in Hidx; lia].
    destruct (nth_error c_0 i) as [c0|] eqn:Hidxc;
      [|apply nth_error_None in Hidxc; lia].
    assert (Hh0i : Mat b hidden h0).
    { rewrite Forall_forall in Hh0. apply Hh0. eapply nth_error_In, Hidx. }
    assert (Hc0i : Mat b hidden c0).
    { rewrite Forall_forall in Hc0. apply Hc0. eapply nth_error_In, Hidxc. }
    set (layer := {| nn.lc_input_size := input_size; nn.lc_hidden_size := hidden;
                     nn.lc_kernel := kernels k |}).
    destruct (LSTMCell_forward_ok layer Hin Hh0i Hc0i)
      as (h1 & c1 & Hcell & Hh1 & Hc1).
    simpl in Hh1, Hc1.
    assert (Hdrop : exists input' w1,
               (if negb (i + 1 =? StackedLSTM.num_layers self)
                then nn.Dropout_forward (StackedLSTM.dropout self) h1
                else ret h1) w = Ok (input', w1)
               /\ Mat b hidden input').
    { destruct (negb _).
      - destruct (Dropout_forward_ok (StackedLSTM.dropout self) h1 w)
          as (y & w1 & Hy & Hkeep).
        exists y, w1. split; [exact Hy | apply Hkeep, Hh1].
      - exists h1, w. split; [reflexivity | exact Hh1]. }
    destruct Hdrop as (input' & w1 & Hdrop & Hin').
    destruct (IH (i + 1) hidden input' (acc ++ [h1]) (accc ++ [c1]) w1 Hin')
      as (out & acc' & accc' & w' & Hrun & Hacc' & Haccc' & Hlen' & Hlenc' & Hout).
    { lia. }
    { lia. }
    { exact Hh0. }
    { exact Hc0. }
    { apply Forall_app. split; [exact Hacc | repeat constructor; apply Hh1]. }
    { apply Forall_app. split; [exact Haccc | repeat constructor; apply Hc1]. }
    exists out, acc', accc', w'.
    erewrite bind_step by (unfold lift, index; rewrite Hidx; reflexivity).
    erewrite bind_step by (unfold lift, index; rewrite Hidxc; reflexivity).
    erewrite bind_step by (unfold lift; rewrite Hcell; reflexivity).
    cbn beta iota.
    erewrite bind_step by exact Hdrop.
    split; [exact Hrun|]. split; [exact Hacc'|]. split; [exact Haccc'|].
    split; [rewrite Hlen', length_app; simpl; lia|].
    split; [rewrite Hlenc', length_app; simpl; lia|].
    intros _. destruct idx as [|k' idx'].
    + simpl in Hrun. peel_ret Hrun. exact Hin'.
    + apply Hout. discriminate.
Qed.

(** The same for a stacked LSTM cell. *)
Lemma StackedLSTM_forward_shape n input_size hidden p kernels (evaluating : bool)
      input h_0 c_0 b (w : world R G) :
  let l0 := StackedLSTM.__init__ n input_size hidden p kernels in
  let l := if evaluating then StackedLSTM.eval l0 else l0 in
  1 <= n -> Mat b input_size input ->
  Ten n b hidden h_0 -> Ten n b hidden c_0 ->
  exists out h_1 c_1 w',
    StackedLSTM.forward l input (StLSTM h_0 c_0) w
    = Ok ((out, StLSTM h_1 c_1), w')
    /\ Mat b hidden out /\ Ten n b hidden h_1 /\ Ten n b hidden c_1.
Proof.
  intros l0 l Hn Hin [Hlen Hh0] [Hlenc Hc0].
  assert (Hlayers : StackedLSTM.layers l
                    = StackedLSTM.build_layers kernels (seq 0 n) input_size hidden)
    by (unfold l, l0; destruct evaluating; reflexivity).
  unfold StackedLSTM.forward. rewrite Hlayers.
  edestruct lstm_loop_total
    with (self := l) (kernels := kernels) (h_0 := h_0) (c_0 := c_0)
         (idx := seq 0 n) (i := 0) (acc := @nil (list (list R)))
         (accc := @nil (list (list R))) (w := w)
    as (out & h_1 & c_1 & w' & Hrun & Hh1 & Hc1 & Hlen1 & Hlenc1 & Hout).
  { exact Hin. }
  { rewrite length_seq. lia. }
  { rewrite length_seq. lia. }
  { exact Hh0. }
  { exact Hc0. }
  { constructor. }
  { constructor. }
  rewrite length_seq in Hlen1, Hlenc1. simpl in Hlen1, Hlenc1.
  exists out, h_1, c_1, w'.
  assert (Hstack : stack h_1 = Ok h_1).
  { apply (stack_Mat (b := b) (h := hidden)); [|exact Hh1].
    destruct h_1; [simpl in Hlen1; lia | discriminate]. }
  assert (Hstackc : stack c_1 = Ok c_1).
  { apply (stack_Mat (b := b) (h := hidden)); [|exact Hc1].
    destruct c_1; [simpl in Hlenc1; lia | discriminate]. }
  erewrite bind_step by exact Hrun. cbn beta iota.
  erewrite bind_step by (unfold lift; rewrite Hstack; reflexivity).
  erewrite bind_step by (unfold lift; rewrite Hstackc; reflexivity).
  split; [reflexivity|]. split.
  - apply Hout. destruct n; [lia|discriminate].
  - split; split; assumption.
Qed.

Lemma Linear_forward_ok (m : nn.Linear R) (x : list (list R)) b :
  Mat b (nn.in_features m) x ->
  exists y, nn.Linear_forward m x = Ok y /\ Mat b (nn.out_features m) y.
Proof.
  intros [Hl Hw]. unfold nn.Linear_forward. rewrite (forallb_width Hw).
  eexists. split; [reflexivity|]. split.
  - rewrite length_map. exact Hl.
  - apply Forall_forall. intros v Hv.
    apply in_map_iff in Hv. destruct Hv as (row & <- & _).
    rewrite length_map, length_seq. reflexivity.
Qed.

Lemma token_lookup_ok (m : nn.Embedding R) (tok : list nat) :
  forallb (fun id => id <? nn.num_embeddings m) tok = true ->
  exists embs, mapR (nn.Embedding_lookup m) tok = Ok embs
               /\ Mat (length tok) (nn.embedding_dim m) embs.
Proof.
  intros Hin. rewrite forallb_forall in Hin.
  eexists. split.
  - apply mapR_map. intros id Hid. apply Embedding_lookup_known, Hin, Hid.
  - split; [apply length_map|].
    apply Forall_forall. intros v Hv.
    apply in_map_iff in Hv. destruct Hv as (id & <- & _).
    rewrite length_map, length_seq. reflexivity.
Qed.
End DecoderShapes.

(** ** C6: dropout between the layers of a stacked cell *)

Section StackedCellClaim.
Context {R G : Type} `{Scalar R} `{Sampler G R}.

(** C6.  One step of a stacked cell built with [num_layers >= 1], GRU and
    LSTM alike, in training or evaluation mode.  The step returns on every
    input and state of the shapes the cell was built for; and whenever the
    step returns:
    the returned state stacks one new hidden (and cell) matrix per layer,
    [num_layers] of them; the returned output is the last layer's new hidden
    matrix, as the cell produced it; the dropout module was called exactly
    [num_layers - 1] times during the step, on the new hidden matrices of all
    layers but the last, in layer order; layer 0 ran on the step's input and
    every later layer on what the dropout module returned for the layer
    before it. *)
Theorem stacked_cell_dropout_between_layers
        (n input_size hidden_size : nat) (p : R)
        (kg : nat -> list R -> list R -> nat -> R)
        (kl : nat -> list R -> list R * list R -> nat -> R * R)
        (evaluating : bool) :
  1 <= n ->
  let gru0 := StackedGRU.__init__ n input_size hidden_size p kg in
  let gru := if evaluating then StackedGRU.eval gru0 else gru0 in
  let lstm0 := StackedLSTM.__init__ n input_size hidden_size p kl in
  let lstm := if evaluating then StackedLSTM.eval lstm0 else lstm0 in
  (forall input h_0 c_0 b (w : world R G),
      shape2 b input_size input = true ->
      shape3 n b hidden_size h_0 = true -> shape3 n b hidden_size c_0 = true ->
      (exists out st w',
          StackedGRU.forward gru input (StGRU h_0) w = Ok ((out, st), w'))
      /\ (exists out st w',
             StackedLSTM.forward lstm input (StLSTM h_0 c_0) w = Ok ((out, st), w')))
  /\ (forall input hidden (w w' : world R G) out st,
      StackedGRU.forward gru input hidden w = Ok ((out, st), w') ->
      exists h_0 h_1,
        hidden = StGRU h_0 /\ st = StGRU h_1
        /\ length h_1 = n
        /\ out = last h_1 []
        /\ dropout_calls w' = dropout_calls w ++ removelast h_1
        /\ length (removelast h_1) = n - 1
        /\ (forall layer, nth_error (StackedGRU.layers gru) 0 = Some layer ->
            exists h0 h, nth_error h_0 0 = Some h0 /\ nth_error h_1 0 = Some h
                         /\ nn.GRUCell_forward layer input h0 = Ok h)
        /\ (forall j layer, nth_error (StackedGRU.layers gru) (S j) = Some layer ->
            exists hj x wa wb h0 h,
              nth_error h_1 j = Some hj
              /\ nn.Dropout_forward (StackedGRU.dropout gru) hj wa = Ok (x, wb)
              /\ nth_error h_0 (S j) = Some h0
              /\ nth_error h_1 (S j) = Some h
              /\ nn.GRUCell_forward layer x h0 = Ok h))
  /\ (forall input hidden (w w' : world R G) out st,
      StackedLSTM.forward lstm input hidden w = Ok ((out, st), w') ->
      exists h_0 c_0 h_1 c_1,
        hidden = StLSTM h_0 c_0 /\ st = StLSTM h_1 c_1
        /\ length h_1 = n /\ length c_1 = n
        /\ out = last h_1 []
        /\ dropout_calls w' = dropout_calls w ++ removelast h_1
        /\ length (removelast h_1) = n - 1
        /\ (forall layer, nth_error (StackedLSTM.layers lstm) 0 = Some layer ->
            exists h0 c0 h c,
              nth_error h_0 0 = Some h0 /\ nth_error c_0 0 = Some c0
              /\ nth_error h_1 0 = Some h /\ nth_error c_1 0 = Some c
              /\ nn.LSTMCell_forward layer input h0 c0 = Ok (h, c))
        /\ (forall j layer, nth_error (StackedLSTM.layers lstm) (S j) = Some layer ->
            exists hj x wa wb h0 c0 h c,
              nth_error h_1 j = Some hj
              /\ nn.Dropout_forward (StackedLSTM.dropout lstm) hj wa = Ok (x, wb)
              /\ nth_error h_0 (S j) = Some h0 /\ nth_error c_0 (S j) = Some c0
              /\ nth_error h_1 (S j) = Some h /\ nth_error c_1 (S j) = Some c
              /\ nn.LSTMCell_forward layer x h0 c0 = Ok (h, c))).
Proof.
  intros Hn gru0 gru lstm0 lstm.
  split.
  { intros input h_0 c_0 b w Hin Hh0 Hc0.
    apply shape2_true in Hin. apply shape3_true in Hh0, Hc0. split.
    - destruct (StackedGRU_forward_shape p kg evaluating w Hn Hin Hh0)
        as (out & h_1 & w' & Hrun & _).
      exists out, (StGRU h_1), w'. exact Hrun.
    - destruct (StackedLSTM_forward_shape p kl evaluating w Hn Hin Hh0 Hc0)
        as (out & h_1 & c_1 & w' & Hrun & _).
      exists out, (StLSTM h_1 c_1), w'. exact Hrun. }
  assert (Hgnum : StackedGRU.num_layers gru = n)
    by (unfold gru, gru0; destruct evaluating; reflexivity).
  assert (Hglen : length (StackedGRU.layers gru) = n).
  { unfold gru, gru0. destruct evaluating; simpl;
      rewrite gru_build_layers_length; apply length_seq. }
  assert (Hlnum : StackedLSTM.num_layers lstm = n)
    by (unfold lstm, lstm0; destruct evaluating; reflexivity).
  assert (Hllen : length (StackedLSTM.layers lstm) = n).
  { unfold lstm, lstm0. destruct evaluating; simpl;
      rewrite lstm_build_layers_length; apply length_seq. }
  clearbody gru lstm. clear gru0 lstm0. split.
  - intros input hidden w w' out st Hrun.
    destruct hidden as [h_0 | h_0 c_0];
      [|exfalso; exact (StackedGRU_wrong_kind _ _ _ _ _ Hrun)].
    unfold StackedGRU.forward in Hrun.
    peel Hrun. destruct a as [out' h_1']. peel Hrun. peel Hc0. subst.
    peel_ret Hrun.
    apply stack_ok in E. destruct E as [-> _].
    apply gru_loop_inv in Hc; [|simpl; lia].
    destruct Hc as (new & Hacc & Hlen' & Hout & Hlog & Hfirst & Hnext).
    simpl in Hacc. subst h_1'.
    assert (Hne : new <> []) by (destruct new; simpl in *; [lia|discriminate]).
    exists h_0, new. repeat split; try assumption.
    + congruence.
    + rewrite Hout. apply last_default, Hne.
    + rewrite removelast_firstn_len, length_firstn. lia.
  - intros input hidden w w' out st Hrun.
    destruct hidden as [h_0 | h_0 c_0];
      [exfalso; exact (StackedLSTM_wrong_kind _ _ _ _ Hrun)|].
    unfold StackedLSTM.forward in Hrun.
    peel Hrun. destruct a as [out' [h_1' c_1']].
    peel Hrun. peel Hc0. subst. peel Hrun. peel Hc0. subst.
    peel_ret Hrun.
    apply stack_ok in E. destruct E as [-> _].
    apply stack_ok in E0. destruct E0 as [-> _].
    apply lstm_loop_inv in Hc; [|simpl; lia].
    destruct Hc
      as (new & newc & Hacc & Haccc & Hlen' & Hlenc & Hout & Hlog & Hfirst & Hnext).
    simpl in Hacc, Haccc. subst h_1' c_1'.
    assert (Hne : new <> []) by (destruct new; simpl in *; [lia|discriminate]).
    exists h_0, c_0, new, newc. repeat split; try assumption.
    + congruence.
    + congruence.
    + rewrite Hout. apply last_default, Hne.
    + rewrite removelast_firstn_len, length_firstn. lia.
Qed.
End StackedCellClaim.

(** ** C3: the end-to-end scenario *)

Section EndToEnd.
Context {R G : Type} `{Scalar R} `{Sampler G R}.

(** C3, as the code has it.  The scenario of the specification with a batch
    padded to [T >= 7] steps: 2 sequences of lengths [[T, 2]],
    [hidden_size=8], two encoder and two decoder layers, bidirectional, GRU
    cells, [luong_gate] attention, private embedding tables, either mode.
    [forward] of the encoder returns outputs [T x 2 x 8], a context
    [2 x (T - 6) x 8] (batch-major, six positions shorter) and a state
    [2 x 2 x 8]; one decoder step on two known tokens, from that state and
    context, returns scores [2 x tgt_vocab_size], a state [2 x 2 x 8] and
    weights [2 x (T - 6)].  Of the attention mechanism, which the decoder
    builds for hidden size 8, this takes that it attends over the context
    at the sizes of the scenario only: 2 examples, width 8 and [T - 6]
    context positions. *)
Theorem end_to_end_shapes
        (pkg : models.t R) (emb_size src_vocab tgt_vocab pool : nat) (p : R)
        (ew : rnn_encoder.weights R) (dw : rnn_decoder.weights R)
        (evaluating : bool) (inputs : list (list nat)) (T : nat)
        (tok : list nat) (world : world R G) :
  let cfg := scenario_config emb_size src_vocab tgt_vocab pool p in
  let e0 := rnn_encoder.__init__ cfg None ew in
  let e := if evaluating then rnn_encoder.eval e0 else e0 in
  let d0 := rnn_decoder.__init__ pkg cfg None true dw in
  let d := if evaluating then rnn_decoder.eval d0 else d0 in
  1 <= emb_size ->
  attends_over_context (models.luong_gate_attention pkg 8 emb_size) 2 8 (T - 6) ->
  7 <= T ->
  shape2 T 2 inputs = true ->
  ids_in_range src_vocab inputs = true ->
  length tok = 2 ->
  forallb (fun id => id <? tgt_vocab) tok = true ->
  exists outputs state conv w1 scores state' attn w2,
    rnn_encoder.forward e inputs [T; 2] world = Ok ((outputs, state, conv), w1)
    /\ shape3 T 2 8 outputs = true
    /\ shape3 2 (T - 6) 8 conv = true
    /\ state_shape 2 2 8 state = true
    /\ rnn_decoder.forward d tok state conv w1
       = Ok ((scores, state', Some attn), w2)
    /\ shape2 2 tgt_vocab scores = true
    /\ state_shape 2 2 8 state' = true
    /\ shape2 2 (T - 6) attn = true.
Proof.
  intros cfg e0 e d0 d Hemb Hattn HT Hin Hids Htok Htokids.
  (* the encoder *)
  assert (Hvalid : valid_lengths T 2 [T; 2] = true).
  { clear -HT. do 2 (destruct T as [|T]; [lia|]).
    unfold valid_lengths. simpl. rewrite Nat.leb_refl. reflexivity. }
  destruct (encoder_forward_shapes cfg None ew evaluating inputs [T; 2] T 2 world)
    as [_ Hok].
  { destruct evaluating; reflexivity. }
  { exact Hemb. }
  { simpl. lia. }
  { simpl. lia. }
  { exact Hin. }
  { destruct evaluating; exact Hids. }
  { exact Hvalid. }
  destruct (Hok HT)
    as (outputs & state & conv & w1 & Henc & Hout & Hconv & Hstate & [s ->]).
  fold e0 in Henc. fold e in Henc. simpl in Hout, Hconv, Hstate.
  apply shape3_true in Hstate.
  (* the decoder step *)
  assert (Hlook : exists embs,
             mapR (nn.Embedding_lookup (rnn_decoder.embedding d)) tok = Ok embs
             /\ Mat 2 emb_size embs).
  { destruct (token_lookup_ok (rnn_decoder.embedding d) tok) as (embs & Hl & Hs).
    - unfold d, d0. destruct evaluating; exact Htokids.
    - exists embs. split; [exact Hl|]. rewrite Htok in Hs.
      unfold d, d0 in Hs. destruct evaluating; exact Hs. }
  destruct Hlook as (embs & Hlook & Hembs).
  assert (Hstep : exists out h_1 w2,
             rnn_decoder.rnn_forward (rnn_decoder.rnn d) embs (StGRU s) w1
             = Ok ((out, StGRU h_1), w2)
             /\ Mat 2 8 out /\ Ten 2 2 8 h_1).
  { assert (Hrnn : rnn_decoder.rnn d
                   = rnn_decoder.RnnGRU
                       (if evaluating
                        then StackedGRU.eval
                               (StackedGRU.__init__ 2 emb_size 8 p (rnn_decoder.w_gru dw))
                        else StackedGRU.__init__ 2 emb_size 8 p (rnn_decoder.w_gru dw)))
      by (unfold d, d0; destruct evaluating; reflexivity).
    rewrite Hrnn. unfold rnn_decoder.rnn_forward.
    eapply StackedGRU_forward_shape; [lia | exact Hembs | exact Hstate]. }
  destruct Hstep as (out & h_1 & w2 & Hstep & Hout' & Hh1).
  destruct (Hattn out conv) as (o & wts & Hatt & Ho & Hwts).
  { apply shape2_true, Hout'. }
  { apply shape3_true, Hconv. }
  assert (Hscore : exists scores,
             rnn_decoder.compute_score d o = Ok scores /\ Mat 2 tgt_vocab scores).
  { unfold rnn_decoder.compute_score, d, d0. destruct evaluating; simpl;
      apply Linear_forward_ok; simpl; apply shape2_true, Ho. }
  destruct Hscore as (scores & Hscore & Hscores).
  exists outputs, (StGRU s), conv, w1, scores, (StGRU h_1), wts, w2.
  split; [exact Henc|].
  split; [apply shape3_true, Hout|].
  split; [apply shape3_true, Hconv|].
  split; [apply shape3_true, Hstate|].
  split.
  - unfold rnn_decoder.forward.
    erewrite bind_step by (unfold lift; rewrite Hlook; reflexivity).
    erewrite bind_step by exact Hstep. cbn beta iota.
    assert (Hattr : rnn_decoder.attention d
                    = rnn_decoder.Bound
                        (Some (models.luong_gate_attention pkg 8 emb_size)))
      by (unfold d, d0; destruct evaluating; reflexivity).
    assert (Hopt : Config.attention (rnn_decoder.config d) = "luong_gate"%string)
      by (unfold d, d0; destruct evaluating; reflexivity).
    rewrite Hattr, Hopt. simpl String.eqb. cbn beta iota.
    erewrite bind_step
      by (erewrite bind_step by (unfold lift; rewrite Hatt; reflexivity);
          reflexivity).
    cbn beta iota.
    erewrite bind_step by (unfold lift; rewrite Hscore; reflexivity).
    reflexivity.
  - split; [apply shape2_true, Hscores|].
    split; [apply shape3_true, Hh1 | exact Hwts].
Qed.
End EndToEnd.

(** * Further properties of the code *)

(** ** Inputs that [forward] refuses *)

Section RefusedInputs.
Context {R G : Type} `{Scalar R} `{Sampler G R}.



Lemma pack_rejects (x : list (list (list R))) lengths :
  length lengths <> length (hd [] x) \/ In 0 lengths
  \/ sorted_decreasing lengths = false ->
  pack x lengths = Err RuntimeError.
Proof.
  intros Hbad. unfold pack.
  destruct (_ || _ || _); [reflexivity|].
  destruct (length lengths =? length (hd [] x)) eqn:Hlen; simpl; [|reflexivity].
  destruct (existsb _ lengths) eqn:Hz; [reflexivity|].
  destruct (sorted_decreasing lengths) eqn:Hs; simpl; [|reflexivity].
  exfalso. apply Nat.eqb_eq in Hlen.
  destruct Hbad as [Hb | [Hb | Hb]]; [contradiction| |discriminate].
  assert (Hex : existsb (fun l => l =? 0) lengths = true)
    by (apply existsb_exists; exists 0; split; [exact Hb | reflexivity]).
  congruence.
Qed.


(** X2.  On a rectangular batch of known token ids, [forward] raises
    [RuntimeError] when the lengths are not one per example, when one of
    them is zero, or when they are not sorted in decreasing order. *)
Theorem rejected_lengths_raise_runtime_error
        (e : rnn_encoder.t R) inputs lengths t b (w : world R G) :
  shape2 t b inputs = true ->
  ids_in_range (nn.num_embeddings (rnn_encoder.embedding e)) inputs = true ->
  length lengths <> b \/ In 0 lengths \/ sorted_decreasing lengths = false ->
  rnn_encoder.forward e inputs lengths w = Err RuntimeError.
Proof.
  intros Hin Hids Hbad. apply shape2_true in Hin.
  pose proof (ids_in_range_lookup _ _ Hids) as Hemb.
  unfold rnn_encoder.forward.
  erewrite bind_step by (unfold lift; rewrite Hemb; reflexivity).
  apply bind_err. unfold lift.
  destruct inputs as [|row inputs].
  - reflexivity.
  - rewrite pack_rejects; [reflexivity|].
    destruct Hin as [_ Hrows]. inversion Hrows as [|? ? Hrow _]; subst.
    simpl. rewrite length_map. exact Hbad.
Qed.

(** X3.  An encoder built by [__init__], in either mode, raises
    [RuntimeError] on every well-formed batch whose longest true length is
    below 7: the third convolution of the stack spans 7 positions. *)
Theorem short_batch_raises_runtime_error
        (cfg : Config.t R) emb (wts : rnn_encoder.weights R) (evaluating : bool)
        inputs lengths t b (world : world R G) :
  let e0 := rnn_encoder.__init__ cfg emb wts in
  let e := if evaluating then rnn_encoder.eval e0 else e0 in
  nn.embedding_dim (rnn_encoder.embedding e) = Config.emb_size cfg ->
  1 <= Config.emb_size cfg -> 1 <= Config.hidden_size cfg ->
  1 <= Config.enc_num_layers cfg ->
  shape2 t b inputs = true ->
  ids_in_range (nn.num_embeddings (rnn_encoder.embedding e)) inputs = true ->
  valid_lengths t b lengths = true ->
  hd 0 lengths < 7 ->
  rnn_encoder.forward e inputs lengths world = Err RuntimeError.
Proof.
  intros e0 e Hdim He Hh Hl Hin Hids Hvalid Hshort.
  destruct (encoder_forward_shapes cfg emb wts evaluating inputs lengths t b world
              Hdim He Hh Hl Hin Hids Hvalid) as [Hfail _].
  exact (Hfail Hshort).
Qed.
(** X4.  An embedding table handed to [__init__] whose width is not
    [config.emb_size] is accepted at construction; every [forward] on a
    well-formed batch then raises [RuntimeError], the recurrent network
    having been built for inputs of width [config.emb_size]. *)
Theorem mismatched_embedding_raises_runtime_error
        (cfg : Config.t R) (m : nn.Embedding R) (wts : rnn_encoder.weights R)
        (evaluating : bool) inputs lengths t b (world : world R G) :
  let e0 := rnn_encoder.__init__ cfg (Some m) wts in
  let e := if evaluating then rnn_encoder.eval e0 else e0 in
  nn.embedding_dim m <> Config.emb_size cfg ->
  1 <= nn.embedding_dim m ->
  shape2 t b inputs = true ->
  ids_in_range (nn.num_embeddings m) inputs = true ->
  valid_lengths t b lengths = true ->
  rnn_encoder.forward e inputs lengths world = Err RuntimeError.
Proof.
  intros e0 e Hdim He Hin Hids Hvalid. apply shape2_true in Hin.
  assert (Hembedding : rnn_encoder.embedding e = m)
    by (unfold e, e0; destruct evaluating; reflexivity).
  pose proof (ids_in_range_lookup m _ Hids) as Hemb.
  pose proof (embedded_shape m Hin) as Hshape.
  destruct (pack_unpack_shape lengths He Hshape Hvalid) as (p & Hpack & Hunp).
  destruct (valid_lengths_facts _ _ _ Hvalid) as (_ & Hb & _ & _ & Hhd).
  unfold rnn_encoder.forward. rewrite Hembedding.
  erewrite bind_step by (unfold lift; rewrite Hemb; reflexivity).
  erewrite bind_step by (unfold lift; rewrite Hpack; reflexivity).
  apply bind_err.
  set (xs := fst (unpack p)) in *.
  assert (Hcheck : forallb (forallb (fun x => length x =? Config.emb_size cfg)) xs
                   = false).
  { destruct Hunp as [Hlen Hmats].
    destruct xs as [|m0 rest]; [simpl in Hlen; lia|].
    inversion Hmats as [|? ? [Hm0 Hv] _].
    destruct m0 as [|v m0]; [simpl in Hm0; lia|].
    inversion Hv as [|? ? Hvlen _]. simpl. rewrite Hvlen.
    apply Nat.eqb_neq in Hdim. rewrite Hdim. reflexivity. }
  clearbody xs.
  unfold e, e0. destruct evaluating; simpl;
    destruct (String.eqb (Config.cell cfg) "gru"); simpl;
    unfold nn.GRU_forward, nn.LSTM_forward, nn.rnn_forward, bind; simpl;
    rewrite Hcheck; reflexivity.
Qed.
End RefusedInputs.

(** ** The state a stacked cell is given *)

Section StackedCellState.
Context {R G : Type} `{Scalar R} `{Sampler G R}.

Lemma index_firstn A (l : list A) n i :
  i < n -> index (firstn n l) i = index l i.
Proof.
  intros Hi. unfold index. rewrite nth_error_firstn.
  apply Nat.ltb_lt in Hi. rewrite Hi. reflexivity.
Qed.

Lemma gru_loop_firstn (self : StackedGRU.t R) h_0 n :
  forall ls i input acc (w : world R G),
    i + length ls <= n ->
    StackedGRU.loop self (firstn n h_0) ls i input acc w
    = StackedGRU.loop self h_0 ls i input acc w.
Proof.
  induction ls as [|layer rest IH]; intros i input acc w Hn; [reflexivity|].
  simpl in Hn |- *. rewrite index_firstn by lia.
  unfold bind. destruct (lift (index h_0 i) w) as [[h w1]|]; [|reflexivity].
  destruct (lift (nn.GRUCell_forward layer input h) w1) as [[h1 w2]|];
    [|reflexivity].
  destruct ((if negb (i + 1 =? StackedGRU.num_layers self)
             then nn.Dropout_forward (StackedGRU.dropout self) h1
             else ret h1) w2) as [[x w3]|]; [|reflexivity].
  apply IH. lia.
Qed.

Lemma lstm_loop_firstn (self : StackedLSTM.t R) h_0 c_0 n :
  forall ls i input acc accc (w : world R G),
    i + length ls <= n ->
    StackedLSTM.loop self (firstn n h_0) (firstn n c_0) ls i input acc accc w
    = StackedLSTM.loop self h_0 c_0 ls i input acc accc w.
Proof.
  induction ls as [|layer rest IH]; intros i input acc accc w Hn; [reflexivity|].
  simpl in Hn |- *. rewrite !index_firstn by lia.
  unfold bind. destruct (lift (index h_0 i) w) as [[h w1]|]; [|reflexivity].
  destruct (lift (index c_0 i) w1) as [[c w2]|]; [|reflexivity].
  destruct (lift (nn.LSTMCell_forward layer input h c) w2) as [[[h1 c1] w3]|];
    [|reflexivity].
  destruct ((if negb (i + 1 =? StackedLSTM.num_layers self)
             then nn.Dropout_forward (StackedLSTM.dropout self) h1
             else ret h1) w3) as [[x w4]|]; [|reflexivity].
  apply IH. lia.
Qed.

(** From layer [i] on, with a state that runs out of layers before the cell
    does, the loop of [StackedGRU.forward] raises [IndexError]. *)
Lemma gru_loop_short (self : StackedGRU.t R) kernels h_0 b hidden idx :
  forall i input_size input acc (w : world R G),
    Mat b input_size input ->
    i <= length h_0 -> length h_0 < i + length idx ->
    Forall (fun m => Mat b hidden m) h_0 ->
    StackedGRU.loop self h_0
      (StackedGRU.build_layers kernels idx input_size hidden) i input acc w
    = Err IndexError.
Proof.
  induction idx as [|k idx IH]; intros i input_size input acc w Hin Hi Hlen Hh0.
  - simpl in Hlen. lia.
  - simpl in Hlen |- *.
    destruct (nth_error h_0 i) as [h0|] eqn:Hidx.
    + assert (Hi' : i < length h_0)
        by (apply nth_error_Some; rewrite Hidx; discriminate).
      assert (Hh0i : Mat b hidden h0).
      { rewrite Forall_forall in Hh0. apply Hh0. eapply nth_error_In, Hidx. }
      set (layer := {| nn.gc_input_size := input_size; nn.gc_hidden_size := hidden;
                       nn.gc_kernel := kernels k |}).
      destruct (GRUCell_forward_ok layer Hin Hh0i) as (h1 & Hcell & Hh1).
      simpl in Hh1.
      assert (Hdrop : exists input' w1,
                 (if negb (i + 1 =? StackedGRU.num_layers self)
                  then nn.Dropout_forward (StackedGRU.dropout self) h1
                  else ret h1) w = Ok (input', w1)
                 /\ Mat b hidden input').
      { destruct (negb _).
        - destruct (Dropout_forward_ok (StackedGRU.dropout self) h1 w)
            as (y & w1 & Hy & Hkeep).
          exists y, w1. split; [exact Hy | apply Hkeep, Hh1].
        - exists h1, w. split; [reflexivity | exact Hh1]. }
      destruct Hdrop as (input' & w1 & Hdrop & Hin').
      erewrite bind_step by (unfold lift, index; rewrite Hidx; reflexivity).
      erewrite bind_step by (unfold lift; rewrite Hcell; reflexivity).
      erewrite bind_step by exact Hdrop.
      apply (IH (i + 1) hidden input' (acc ++ [h1]) w1 Hin'); [lia | lia | exact Hh0].
    + apply bind_err. unfold lift, index. rewrite Hidx. reflexivity.
Qed.

Lemma lstm_loop_short (self : StackedLSTM.t R) kernels h_0 c_0 b hidden idx :
  forall i input_size input acc accc (w : world R G),
    Mat b input_size input ->
    length c_0 = length h_0 ->
    i <= length h_0 -> length h_0 < i + length idx ->
    Forall (fun m => Mat b hidden m) h_0 ->
    Forall (fun m => Mat b hidden m) c_0 ->
    StackedLSTM.loop self h_0 c_0
      (StackedLSTM.build_layers kernels idx input_size hidden) i input acc accc w
    = Err IndexError.
Proof.
  induction idx as [|k idx IH];
    intros i input_size input acc accc w Hin Hc Hi Hlen Hh0 Hc0.
  - simpl in Hlen. lia.
  - simpl in Hlen |- *.
    destruct (nth_error h_0 i) as [h0|] eqn:Hidx.
    + assert (Hi' : i < length h_0)
        by (apply nth_error_Some; rewrite Hidx; discriminate).
      destruct (nth_error c_0 i) as [c0|] eqn:Hidxc;
        [|apply nth_error_None in Hidxc; lia].
      assert (Hh0i : Mat b hidden h0).
      { rewrite Forall_forall in Hh0. apply Hh0. eapply nth_error_In, Hidx. }
      assert (Hc0i : Mat b hidden c0).
      { rewrite Forall_forall in Hc0. apply Hc0. eapply nth_error_In, Hidxc. }
      set (layer := {| nn.lc_input_size := input_size; nn.lc_hidden_size := hidden;
                       nn.lc_kernel := kernels k |}).
      destruct (LSTMCell_forward_ok layer Hin Hh0i Hc0i)
        as (h1 & c1 & Hcell & Hh1 & Hc1).
      simpl in Hh1, Hc1.
      assert (Hdrop : exists input' w1,
                 (if negb (i + 1 =? StackedLSTM.num_layers self)
                  then nn.Dropout_forward (StackedLSTM.dropout self) h1
                  else ret h1) w = Ok (input', w1)
                 /\ Mat b hidden input').
      { destruct (negb _).
        - destruct (Dropout_forward_ok (StackedLSTM.dropout self) h1 w)
            as (y & w1 & Hy & Hkeep).
          exists y, w1. split; [exact Hy | apply Hkeep, Hh1].
        - exists h1, w. split; [reflexivity | exact Hh1]. }
      destruct Hdrop as (input' & w1 & Hdrop & Hin').
      erewrite bind_step by (unfold lift, index; rewrite Hidx; reflexivity).
      erewrite bind_step by (unfold lift, index; rewrite Hidxc; reflexivity).
      erewrite bind_step by (unfold lift; rewrite Hcell; reflexivity).
      cbn beta iota.
      erewrite bind_step by exact Hdrop.
      apply (IH (i + 1) hidden input' (acc ++ [h1]) (accc ++ [c1]) w1 Hin');
        [exact Hc | lia | lia | exact Hh0 | exact Hc0].
    + apply bind_err. unfold lift, index. rewrite Hidx. reflexivity.
Qed.

Lemma StackedGRU_forward_short n input_size hidden p kernels (evaluating : bool)
      input h_0 k b (w : world R G) :
  let g0 := StackedGRU.__init__ n input_size hidden p kernels in
  let g := if evaluating then StackedGRU.eval g0 else g0 in
  Mat b input_size input -> Ten k b hidden h_0 -> k < n ->
  StackedGRU.forward g input (StGRU h_0) w = Err IndexError.
Proof.
  intros g0 g Hin [Hlen Hh0] Hk.
  assert (Hlayers : StackedGRU.layers g
                    = StackedGRU.build_layers kernels (seq 0 n) input_size hidden)
    by (unfold g, g0; destruct evaluating; reflexivity).
  unfold StackedGRU.forward. rewrite Hlayers. apply bind_err.
  apply gru_loop_short with (b := b); [exact Hin | lia | | exact Hh0].
  rewrite length_seq. lia.
Qed.

Lemma StackedLSTM_forward_short n input_size hidden p kernels (evaluating : bool)
      input h_0 c_0 k b (w : world R G) :
  let l0 := StackedLSTM.__init__ n input_size hidden p kernels in
  let l := if evaluating then StackedLSTM.eval l0 else l0 in
  Mat b input_size input -> Ten k b hidden h_0 -> Ten k b hidden c_0 -> k < n ->
  StackedLSTM.forward l input (StLSTM h_0 c_0) w = Err IndexError.
Proof.
  intros l0 l Hin [Hlen Hh0] [Hlenc Hc0] Hk.
  assert (Hlayers : StackedLSTM.layers l
                    = StackedLSTM.build_layers kernels (seq 0 n) input_size hidden)
    by (unfold l, l0; destruct evaluating; reflexivity).
  unfold StackedLSTM.forward. rewrite Hlayers. apply bind_err.
  apply lstm_loop_short with (b := b);
    [exact Hin | lia | lia | | exact Hh0 | exact Hc0].
  rewrite length_seq. lia.
Qed.

Lemma StackedGRU_forward_firstn n input_size hidden p kernels (evaluating : bool)
      input h_0 (w : world R G) :
  let g0 := StackedGRU.__init__ n input_size hidden p kernels in
  let g := if evaluating then StackedGRU.eval g0 else g0 in
  StackedGRU.forward g input (StGRU (firstn n h_0)) w
  = StackedGRU.forward g input (StGRU h_0) w.
Proof.
  intros g0 g.
  unfold StackedGRU.forward, bind. rewrite gru_loop_firstn; [reflexivity|].
  unfold g, g0. destruct evaluating; simpl;
    rewrite gru_build_layers_length, length_seq; lia.
Qed.

Lemma StackedLSTM_forward_firstn n input_size hidden p kernels (evaluating : bool)
      input h_0 c_0 (w : world R G) :
  let l0 := StackedLSTM.__init__ n input_size hidden p kernels in
  let l := if evaluating then StackedLSTM.eval l0 else l0 in
  StackedLSTM.forward l input (StLSTM (firstn n h_0) (firstn n c_0)) w
  = StackedLSTM.forward l input (StLSTM h_0 c_0) w.
Proof.
  intros l0 l.
  unfold StackedLSTM.forward, bind. rewrite lstm_loop_firstn; [reflexivity|].
  unfold l, l0. destruct evaluating; simpl;
    rewrite lstm_build_layers_length, length_seq; lia.
Qed.

(** X5.  A stacked cell of [n] layers reads the first [n] layers of the
    state it is given and nothing beyond: a step returns the same from a
    state and from its first [n] layers. *)
Theorem stacked_cell_reads_its_own_layers
        n input_size hidden_size (p : R) kg kl (evaluating : bool)
        input h_0 c_0 (w : world R G) :
  let gru0 := StackedGRU.__init__ n input_size hidden_size p kg in
  let gru := if evaluating then StackedGRU.eval gru0 else gru0 in
  let lstm0 := StackedLSTM.__init__ n input_size hidden_size p kl in
  let lstm := if evaluating then StackedLSTM.eval lstm0 else lstm0 in
  StackedGRU.forward gru input (StGRU (firstn n h_0)) w
  = StackedGRU.forward gru input (StGRU h_0) w
  /\ StackedLSTM.forward lstm input (StLSTM (firstn n h_0) (firstn n c_0)) w
     = StackedLSTM.forward lstm input (StLSTM h_0 c_0) w.
Proof.
  intros gru0 gru lstm0 lstm. split.
  - apply StackedGRU_forward_firstn.
  - apply StackedLSTM_forward_firstn.
Qed.

(** X6.  A state with fewer layers than the cell, each of the right shape,
    makes a step raise [IndexError]: the loop indexes the state by layer. *)
Theorem short_state_raises_index_error
        n input_size hidden_size (p : R) kg kl (evaluating : bool)
        input h_0 c_0 k b (w : world R G) :
  let gru0 := StackedGRU.__init__ n input_size hidden_size p kg in
  let gru := if evaluating then StackedGRU.eval gru0 else gru0 in
  let lstm0 := StackedLSTM.__init__ n input_size hidden_size p kl in
  let lstm := if evaluating then StackedLSTM.eval lstm0 else lstm0 in
  shape2 b input_size input = true ->
  shape3 k b hidden_size h_0 = true -> shape3 k b hidden_size c_0 = true ->
  k < n ->
  StackedGRU.forward gru input (StGRU h_0) w = Err IndexError
  /\ StackedLSTM.forward lstm input (StLSTM h_0 c_0) w = Err IndexError.
Proof.
  intros gru0 gru lstm0 lstm Hin Hh0 Hc0 Hk.
  apply shape2_true in Hin. apply shape3_true in Hh0, Hc0. split.
  - exact (StackedGRU_forward_short p kg evaluating w Hin Hh0 Hk).
  - exact (StackedLSTM_forward_short p kl evaluating w Hin Hh0 Hc0 Hk).
Qed.

(** X7.  An input whose batch size differs from the state's makes a step
    raise [RuntimeError] in the first layer, whatever the width of the
    input. *)
Theorem batch_mismatch_raises_runtime_error
        n input_size hidden_size (p : R) kg kl (evaluating : bool)
        (input : list (list R)) h_0 c_0 b (w : world R G) :
  let gru0 := StackedGRU.__init__ n input_size hidden_size p kg in
  let gru := if evaluating then StackedGRU.eval gru0 else gru0 in
  let lstm0 := StackedLSTM.__init__ n input_size hidden_size p kl in
  let lstm := if evaluating then StackedLSTM.eval lstm0 else lstm0 in
  1 <= n ->
  shape3 n b hidden_size h_0 = true -> shape3 n b hidden_size c_0 = true ->
  length input <> b ->
  StackedGRU.forward gru input (StGRU h_0) w = Err RuntimeError
  /\ StackedLSTM.forward lstm input (StLSTM h_0 c_0) w = Err RuntimeError.
Proof.
  intros gru0 gru lstm0 lstm Hn Hh0 Hc0 Hb.
  apply shape3_true in Hh0, Hc0.
  destruct Hh0 as [Hlen Hh0]. destruct Hc0 as [Hlenc Hc0].
  destruct n as [|n]; [lia|].
  destruct h_0 as [|h0 h_0]; [discriminate|].
  destruct c_0 as [|c0 c_0]; [discriminate|].
  inversion Hh0 as [|? ? [Hh0b _] _]; subst.
  assert (Hne : (length input =? length h0) = false)
    by (apply Nat.eqb_neq; exact Hb).
  split.
  - assert (Hlayers : StackedGRU.layers gru
                      = StackedGRU.build_layers kg (seq 0 (S n)) input_size hidden_size)
      by (unfold gru, gru0; destruct evaluating; reflexivity).
    unfold StackedGRU.forward. rewrite Hlayers. apply bind_err. simpl.
    erewrite bind_step by reflexivity.
    apply bind_err. unfold lift, nn.GRUCell_forward. rewrite Hne. reflexivity.
  - assert (Hlayers : StackedLSTM.layers lstm
                      = StackedLSTM.build_layers kl (seq 0 (S n)) input_size hidden_size)
      by (unfold lstm, lstm0; destruct evaluating; reflexivity).
    unfold StackedLSTM.forward. rewrite Hlayers. apply bind_err. simpl.
    erewrite bind_step by reflexivity.
    erewrite bind_step by reflexivity.
    apply bind_err. unfold lift, nn.LSTMCell_forward. rewrite Hne. reflexivity.
Qed.
End StackedCellState.

(** ** The decoder step *)

Section DecoderStep.
Context {R G : Type} `{Scalar R} `{Sampler G R}.

(** A decoder step that returns went through every stage. *)
Lemma decoder_forward_inv (d : rnn_decoder.t R) input state conv
      (w w' : world R G) scores state' attn :
  rnn_decoder.forward d input state conv w = Ok ((scores, state', attn), w') ->
  exists embs output attended,
    mapR (nn.Embedding_lookup (rnn_decoder.embedding d)) input = Ok embs
    /\ rnn_decoder.rnn_forward (rnn_decoder.rnn d) embs state w
       = Ok ((output, state'), w')
    /\ match rnn_decoder.attention d with
       | rnn_decoder.Missing => False
       | rnn_decoder.Bound None => attended = output /\ attn = None
       | rnn_decoder.Bound (Some a) =>
           exists wts,
             attn = Some wts
             /\ models.attend a output
                  (if String.eqb (Config.attention (rnn_decoder.config d)) "luong_gate"
                   then models.CtxConv conv else models.CtxEmbs embs)
                = Ok (attended, wts)
       end
    /\ rnn_decoder.compute_score d attended = Ok scores.
Proof.
  unfold rnn_decoder.forward. intros Hrun.
  apply bind_ok in Hrun. destruct Hrun as (embs & w1 & Hemb & Hrun).
  apply lift_ok in Hemb. destruct Hemb as [Hemb ->].
  apply bind_ok in Hrun. destruct Hrun as ([output st] & w2 & Hrnn & Hrun).
  apply bind_ok in Hrun. destruct Hrun as ([attended att] & w3 & Hatt & Hrun).
  apply bind_ok in Hrun. destruct Hrun as (sc & w4 & Hsc & Hrun).
  apply lift_ok in Hsc. destruct Hsc as [Hsc ->].
  unfold ret in Hrun. injection Hrun as E1 E2 E3 E4. subst.
  exists embs, output, attended.
  split; [exact Hemb|].
  destruct (rnn_decoder.attention d) as [|[a|]].
  - discriminate.
  - destruct (String.eqb _ _);
      apply bind_ok in Hatt; destruct Hatt as ([o wts] & w5 & Hatt & Hret);
      apply lift_ok in Hatt; destruct Hatt as [Hatt ->];
      unfold ret in Hret; injection Hret as E1 E2 E3; subst;
      (split; [exact Hrnn|]); (split; [|exact Hsc]);
      exists wts; split; [reflexivity | exact Hatt | reflexivity | exact Hatt].
  - unfold ret in Hatt. injection Hatt as E1 E2 E3. subst.
    split; [exact Hrnn|]. split; [|exact Hsc]. split; reflexivity.
Qed.

(** What [__init__] binds [self.rnn] to. *)
Lemma decoder_rnn_init (pkg : models.t R) cfg emb use_attention
      (dw : rnn_decoder.weights R) (evaluating : bool) :
  let d0 := rnn_decoder.__init__ pkg cfg emb use_attention dw in
  let d := if evaluating then rnn_decoder.eval d0 else d0 in
  let g0 := StackedGRU.__init__ (Config.dec_num_layers cfg) (Config.emb_size cfg)
              (Config.hidden_size cfg) (Config.dropout cfg) (rnn_decoder.w_gru dw) in
  let l0 := StackedLSTM.__init__ (Config.dec_num_layers cfg) (Config.emb_size cfg)
              (Config.hidden_size cfg) (Config.dropout cfg) (rnn_decoder.w_lstm dw) in
  rnn_decoder.rnn d
  = if String.eqb (Config.cell cfg) "gru"
    then rnn_decoder.RnnGRU (if evaluating then StackedGRU.eval g0 else g0)
    else rnn_decoder.RnnLSTM (if evaluating then StackedLSTM.eval l0 else l0).
Proof.
  destruct evaluating; simpl; destruct (String.eqb (Config.cell cfg) "gru");
    reflexivity.
Qed.

(** A step of a stacked cell that returns: the state it was given and the
    state it returns are of the cell's kind, the new state has one entry per
    layer, and the output is its last entry. *)
Lemma StackedGRU_forward_inv n input_size hidden p kernels (evaluating : bool)
      input state (w w' : world R G) out state' :
  let g0 := StackedGRU.__init__ n input_size hidden p kernels in
  let g := if evaluating then StackedGRU.eval g0 else g0 in
  StackedGRU.forward g input state w = Ok ((out, state'), w') ->
  exists h_0 h_1,
    state = StGRU h_0 /\ state' = StGRU h_1
    /\ length h_1 = n /\ out = last h_1 input.
Proof.
  intros g0 g Hrun.
  destruct state as [h_0 | h_0 c_0];
    [|exfalso; exact (StackedGRU_wrong_kind _ _ _ _ _ Hrun)].
  unfold StackedGRU.forward in Hrun.
  apply bind_ok in Hrun. destruct Hrun as ([o acc] & w1 & Hloop & Hrun).
  apply bind_ok in Hrun. destruct Hrun as (h_1 & w2 & Hstack & Hrun).
  apply lift_ok in Hstack. destruct Hstack as [Hstack ->].
  apply stack_ok in Hstack. destruct Hstack as [-> _].
  unfold ret in Hrun. injection Hrun as E1 E2 E3. subst.
  assert (Hn : 0 + length (StackedGRU.layers g) = StackedGRU.num_layers g).
  { unfold g, g0. destruct evaluating; simpl;
      rewrite gru_build_layers_length, length_seq; reflexivity. }
  apply gru_loop_inv in Hloop; [|exact Hn].
  destruct Hloop as (new & Hacc & Hlen & Hout & _).
  simpl in Hacc. subst acc.
  exists h_0, new. split; [reflexivity|]. split; [reflexivity|]. split; [|exact Hout].
  rewrite Hlen. unfold g, g0. destruct evaluating; simpl;
    rewrite gru_build_layers_length, length_seq; reflexivity.
Qed.

Lemma StackedLSTM_forward_inv n input_size hidden p kernels (evaluating : bool)
      input state (w w' : world R G) out state' :
  let l0 := StackedLSTM.__init__ n input_size hidden p kernels in
  let l := if evaluating then StackedLSTM.eval l0 else l0 in
  StackedLSTM.forward l input state w = Ok ((out, state'), w') ->
  exists h_0 c_0 h_1 c_1,
    state = StLSTM h_0 c_0 /\ state' = StLSTM h_1 c_1
    /\ length h_1 = n /\ out = last h_1 input.
Proof.
  intros l0 l Hrun.
  destruct state as [h_0 | h_0 c_0];
    [exfalso; exact (StackedLSTM_wrong_kind _ _ _ _ Hrun)|].
  unfold StackedLSTM.forward in Hrun.
  apply bind_ok in Hrun. destruct Hrun as ([o [acc accc]] & w1 & Hloop & Hrun).
  apply bind_ok in Hrun. destruct Hrun as (h_1 & w2 & Hstack & Hrun).
  apply lift_ok in Hstack. destruct Hstack as [Hstack ->].
  apply stack_ok in Hstack. destruct Hstack as [-> _].
  apply bind_ok in Hrun. destruct Hrun as (c_1 & w3 & Hstackc & Hrun).
  apply lift_ok in Hstackc. destruct Hstackc as [Hstackc ->].
  apply stack_ok in Hstackc. destruct Hstackc as [-> _].
  unfold ret in Hrun. injection Hrun as E1 E2 E3. subst.
  assert (Hn : 0 + length (StackedLSTM.layers l) = StackedLSTM.num_layers l).
  { unfold l, l0. destruct evaluating; simpl;
      rewrite lstm_build_layers_length, length_seq; reflexivity. }
  apply lstm_loop_inv in Hloop; [|exact Hn].
  destruct Hloop as (new & newc & Hacc & Haccc & Hlen & _ & Hout & _).
  simpl in Hacc, Haccc. subst acc accc.
  exists h_0, c_0, new, newc.
  split; [reflexivity|]. split; [reflexivity|]. split; [|exact Hout].
  rewrite Hlen. unfold l, l0. destruct evaluating; simpl;
    rewrite lstm_build_layers_length, length_seq; reflexivity.
Qed.

(** X8.  The convolutional context reaches the attention mechanism in the
    ['luong_gate'] mode only. With any other attention option the mechanism
    is handed the embedded input tokens in its place, and a step returns the
    same whatever context it is given. *)
Theorem context_is_read_by_luong_gate_only (d : rnn_decoder.t R) :
  Config.attention (rnn_decoder.config d) <> "luong_gate"%string ->
  forall input state conv conv' (world : world R G),
    rnn_decoder.forward d input state conv world
    = rnn_decoder.forward d input state conv' world.
Proof.
  intros Hneq input state conv conv' world.
  apply String.eqb_neq in Hneq.
  unfold rnn_decoder.forward. rewrite Hneq. reflexivity.
Qed.

(** X9.  Without attention, the scores of a step are the linear projection
    of the new hidden state of the last layer, as the stacked cell returned
    it: neither the decoder's own dropout module nor anything else sits
    between the cell and the projection. *)
Theorem scores_project_the_top_hidden_state
        (pkg : models.t R) cfg emb use_attention (dw : rnn_decoder.weights R)
        (evaluating : bool) input state conv (world world' : world R G)
        scores state' attn :
  let d0 := rnn_decoder.__init__ pkg cfg emb use_attention dw in
  let d := if evaluating then rnn_decoder.eval d0 else d0 in
  use_attention = false \/ Config.attention cfg = "None"%string ->
  1 <= Config.dec_num_layers cfg ->
  rnn_decoder.forward d input state conv world
  = Ok ((scores, state', attn), world') ->
  exists h_1,
    (state' = StGRU h_1 \/ exists c_1, state' = StLSTM h_1 c_1)
    /\ length h_1 = Config.dec_num_layers cfg
    /\ nn.Linear_forward (rnn_decoder.linear d) (last h_1 []) = Ok scores.
Proof.
  intros d0 d Hcfg Hn Hrun.
  destruct (decoder_forward_inv _ _ _ _ _ Hrun)
    as (embs & output & attended & _ & Hrnn & Hatt & Hscore).
  assert (Hnone : rnn_decoder.attention d = rnn_decoder.Bound None).
  { unfold d. destruct evaluating; apply (init_attention_none _ _ _ _ Hcfg). }
  rewrite Hnone in Hatt. destruct Hatt as [-> _].
  pose proof (decoder_rnn_init pkg cfg emb use_attention dw evaluating) as Hinit.
  cbv zeta in Hinit. fold d0 in Hinit. fold d in Hinit.
  rewrite Hinit in Hrnn. unfold rnn_decoder.compute_score in Hscore.
  destruct (String.eqb (Config.cell cfg) "gru"); simpl in Hrnn.
  - apply StackedGRU_forward_inv in Hrnn.
    destruct Hrnn as (h_0 & h_1 & _ & -> & Hlen & ->).
    exists h_1. split; [left; reflexivity|]. split; [exact Hlen|].
    rewrite (last_default [] embs); [exact Hscore|].
    destruct h_1; [simpl in Hlen; lia | discriminate].
  - apply StackedLSTM_forward_inv in Hrnn.
    destruct Hrnn as (h_0 & c_0 & h_1 & c_1 & _ & -> & Hlen & ->).
    exists h_1. split; [right; exists c_1; reflexivity|]. split; [exact Hlen|].
    rewrite (last_default [] embs); [exact Hscore|].
    destruct h_1; [simpl in Hlen; lia | discriminate].
Qed.
End DecoderStep.

(** ** From the encoder to the decoder *)

Section Handoff.
Context {R G : Type} `{Scalar R} `{Sampler G R}.

(** The recurrent step of a decoder built by [__init__], on a state of the
    decoder's kind with [k] layers: it raises [IndexError] when [k] is
    below the number of layers of the decoder, and goes through otherwise. *)
Lemma decoder_rnn_forward_cases (pkg : models.t R) cfg emb use_attention
      (dw : rnn_decoder.weights R) (evaluating : bool)
      embs state k b (w : world R G) :
  let d0 := rnn_decoder.__init__ pkg cfg emb use_attention dw in
  let d := if evaluating then rnn_decoder.eval d0 else d0 in
  Mat b (Config.emb_size cfg) embs ->
  state_shape k b (Config.hidden_size cfg) state = true ->
  (if String.eqb (Config.cell cfg) "gru"
   then exists h, state = StGRU h
   else exists h c, state = StLSTM h c) ->
  (k < Config.dec_num_layers cfg ->
   rnn_decoder.rnn_forward (rnn_decoder.rnn d) embs state w = Err IndexError)
  /\ (1 <= Config.dec_num_layers cfg -> Config.dec_num_layers cfg <= k ->
      exists out state' w',
        rnn_decoder.rnn_forward (rnn_decoder.rnn d) embs state w
        = Ok ((out, state'), w')
        /\ Mat b (Config.hidden_size cfg) out
        /\ state_shape (Config.dec_num_layers cfg) b (Config.hidden_size cfg) state'
           = true
        /\ (if String.eqb (Config.cell cfg) "gru"
            then exists h, state' = StGRU h
            else exists h c, state' = StLSTM h c)).
Proof.
  intros d0 d Hembs Hstate Hkind.
  pose proof (decoder_rnn_init pkg cfg emb use_attention dw evaluating) as Hinit.
  cbv zeta in Hinit. fold d0 in Hinit. fold d in Hinit. rewrite Hinit.
  assert (Hcut : forall x : list (list (list R)),
             Ten k b (Config.hidden_size cfg) x -> Config.dec_num_layers cfg <= k ->
             Ten (Config.dec_num_layers cfg) b (Config.hidden_size cfg)
                 (firstn (Config.dec_num_layers cfg) x)).
  { intros x [Hlen Hmats] Hle. split.
    - rewrite length_firstn. lia.
    - apply Forall_firstn_keep, Hmats. }
  destruct (String.eqb (Config.cell cfg) "gru").
  - destruct Hkind as [h_0 ->]. simpl in Hstate. apply shape3_true in Hstate.
    simpl. split.
    + intros Hk. exact (StackedGRU_forward_short _ _ evaluating w Hembs Hstate Hk).
    + intros Hn Hk.
      destruct (StackedGRU_forward_shape (Config.dropout cfg) (rnn_decoder.w_gru dw)
                  evaluating w Hn Hembs (Hcut _ Hstate Hk))
        as (out & h_1 & w' & Hrun & Hout & Hh1).
      rewrite StackedGRU_forward_firstn in Hrun.
      exists out, (StGRU h_1), w'. split; [exact Hrun|]. split; [exact Hout|].
      split; [apply shape3_true, Hh1 | exists h_1; reflexivity].
  - destruct Hkind as (h_0 & c_0 & ->). simpl in Hstate.
    apply andb_true_iff in Hstate. destruct Hstate as [Hh0 Hc0].
    apply shape3_true in Hh0, Hc0. simpl. split.
    + intros Hk.
      exact (StackedLSTM_forward_short _ _ evaluating w Hembs Hh0 Hc0 Hk).
    + intros Hn Hk.
      destruct (StackedLSTM_forward_shape (Config.dropout cfg) (rnn_decoder.w_lstm dw)
                  evaluating w Hn Hembs (Hcut _ Hh0 Hk) (Hcut _ Hc0 Hk))
        as (out & h_1 & c_1 & w' & Hrun & Hout & Hh1 & Hc1).
      rewrite StackedLSTM_forward_firstn in Hrun.
      exists out, (StLSTM h_1 c_1), w'. split; [exact Hrun|]. split; [exact Hout|].
      split; [|exists h_1, c_1; reflexivity].
      simpl. apply andb_true_iff. split; apply shape3_true; assumption.
Qed.

Lemma decoder_init_embedding (pkg : models.t R) cfg use_attention
      (dw : rnn_decoder.weights R) (evaluating : bool) :
  let d0 := rnn_decoder.__init__ pkg cfg None use_attention dw in
  let d := if evaluating then rnn_decoder.eval d0 else d0 in
  nn.num_embeddings (rnn_decoder.embedding d) = Config.tgt_vocab_size cfg
  /\ nn.embedding_dim (rnn_decoder.embedding d) = Config.emb_size cfg.
Proof. destruct evaluating; split; reflexivity. Qed.

(** X10.  Only the exact option ['gru'] selects GRU cells; any other value
    of [config.cell], a misspelling included, selects LSTM cells in both
    modules. The state the encoder hands over and the state a decoder step
    returns are a single tensor under ['gru'] and a pair [(h, c)] under
    every other option. *)
Theorem cell_option_selects_the_state_kind
        (pkg : models.t R) cfg emb emb' use_attention
        (ew : rnn_encoder.weights R) (dw : rnn_decoder.weights R)
        (evaluating : bool) :
  let e0 := rnn_encoder.__init__ cfg emb ew in
  let e := if evaluating then rnn_encoder.eval e0 else e0 in
  let d0 := rnn_decoder.__init__ pkg cfg emb' use_attention dw in
  let d := if evaluating then rnn_decoder.eval d0 else d0 in
  (forall inputs lengths (w w' : world R G) outputs state conv,
      rnn_encoder.forward e inputs lengths w = Ok ((outputs, state, conv), w') ->
      if String.eqb (Config.cell cfg) "gru"
      then exists h, state = StGRU h
      else exists h c, state = StLSTM h c)
  /\ (forall input state conv (w w' : world R G) scores state' attn,
         rnn_decoder.forward d input state conv w
         = Ok ((scores, state', attn), w') ->
         if String.eqb (Config.cell cfg) "gru"
         then exists h, state' = StGRU h
         else exists h c, state' = StLSTM h c).
Proof.
  intros e0 e d0 d. split.
  - intros inputs lengths w w' outputs state conv Hrun.
    destruct (encoder_forward_inv _ _ _ _ Hrun)
      as (embedded & embs & raw & rawstate & w1 & conv0 & _ & _ & _ & _ & _ & _ & Hred).
    assert (Hcfg : rnn_encoder.config e = cfg)
      by (unfold e, e0; destruct evaluating; reflexivity).
    rewrite Hcfg in Hred. unfold rnn_encoder.reduce_state in Hred.
    destruct (String.eqb (Config.cell cfg) "gru");
      destruct rawstate as [h_n | h_n c_n]; try discriminate;
      injection Hred as <-.
    + eexists. reflexivity.
    + eexists _, _. reflexivity.
  - intros input state conv w w' scores state' attn Hrun.
    destruct (decoder_forward_inv _ _ _ _ _ Hrun)
      as (embs & output & attended & _ & Hrnn & _ & _).
    pose proof (decoder_rnn_init pkg cfg emb' use_attention dw evaluating) as Hinit.
    cbv zeta in Hinit. fold d0 in Hinit. fold d in Hinit. rewrite Hinit in Hrnn.
    destruct (String.eqb (Config.cell cfg) "gru"); simpl in Hrnn.
    + apply StackedGRU_forward_inv in Hrnn.
      destruct Hrnn as (h_0 & h_1 & _ & -> & _). exists h_1. reflexivity.
    + apply StackedLSTM_forward_inv in Hrnn.
      destruct Hrnn as (h_0 & c_0 & h_1 & c_1 & _ & -> & _).
      exists h_1, c_1. reflexivity.
Qed.

(** A step of a decoder built without attention, with its own embedding
    table, on known tokens and a state of the decoder's kind with at least
    as many layers as the decoder. *)
Lemma decoder_forward_shape
      (pkg : models.t R) cfg use_attention (dw : rnn_decoder.weights R)
      (evaluating : bool) tok state conv k b (world : world R G) :
  let d0 := rnn_decoder.__init__ pkg cfg None use_attention dw in
  let d := if evaluating then rnn_decoder.eval d0 else d0 in
  use_attention = false \/ Config.attention cfg = "None"%string ->
  1 <= Config.dec_num_layers cfg -> Config.dec_num_layers cfg <= k ->
  length tok = b ->
  forallb (fun id => id <? Config.tgt_vocab_size cfg) tok = true ->
  state_shape k b (Config.hidden_size cfg) state = true ->
  (if String.eqb (Config.cell cfg) "gru"
   then exists h, state = StGRU h
   else exists h c, state = StLSTM h c) ->
  exists scores state' world',
    rnn_decoder.forward d tok state conv world
    = Ok ((scores, state', None), world')
    /\ shape2 b (Config.tgt_vocab_size cfg) scores = true
    /\ state_shape (Config.dec_num_layers cfg) b (Config.hidden_size cfg) state'
       = true
    /\ (if String.eqb (Config.cell cfg) "gru"
        then exists h, state' = StGRU h
        else exists h c, state' = StLSTM h c).
Proof.
  intros d0 d Hcfg Hn Hk Htok Hids Hstate Hkind.
  destruct (decoder_init_embedding pkg cfg use_attention dw evaluating)
    as [Hvocab Hdim].
  fold d0 in Hvocab, Hdim. fold d in Hvocab, Hdim.
  destruct (token_lookup_ok (rnn_decoder.embedding d) tok) as (embs & Hemb & Hembs).
  { rewrite Hvocab. exact Hids. }
  rewrite Htok, Hdim in Hembs.
  edestruct decoder_rnn_forward_cases
    with (pkg := pkg) (cfg := cfg) (emb := @None (nn.Embedding R))
         (use_attention := use_attention) (dw := dw) (evaluating := evaluating)
         (embs := embs) (state := state) (w := world)
    as [_ Hstep]; [exact Hembs | exact Hstate | exact Hkind |].
  destruct (Hstep Hn Hk) as (out & state' & w' & Hrun & Hout & Hstate' & Hkind').
  fold d0 in Hrun. fold d in Hrun.
  assert (Hnone : rnn_decoder.attention d = rnn_decoder.Bound None).
  { unfold d. destruct evaluating; apply (init_attention_none _ _ _ _ Hcfg). }
  assert (Hscore : exists scores,
             rnn_decoder.compute_score d out = Ok scores
             /\ Mat b (Config.tgt_vocab_size cfg) scores).
  { unfold rnn_decoder.compute_score, d, d0. destruct evaluating; simpl;
      apply Linear_forward_ok; simpl; exact Hout. }
  destruct Hscore as (scores & Hscore & Hscores).
  exists scores, state', w'. split.
  - unfold rnn_decoder.forward.
    erewrite bind_step by (unfold lift; rewrite Hemb; reflexivity).
    erewrite bind_step by exact Hrun. cbn beta iota.
    rewrite Hnone.
    erewrite bind_step by reflexivity. cbn beta iota.
    erewrite bind_step by (unfold lift; rewrite Hscore; reflexivity).
    reflexivity.
  - split; [apply shape2_true, Hscores|]. split; assumption.
Qed.

(** X11.  A decoder built without attention, with at least one layer and its
    own embedding table, on a batch of known tokens and a state of its kind
    shaped [dec_num_layers x B x hidden_size]: a step returns scores shaped
    [B x tgt_vocab_size] and a state of the same kind and shape, so that the
    next step can be run from it. *)
Theorem decoder_step_keeps_the_state_shape
        (pkg : models.t R) cfg use_attention (dw : rnn_decoder.weights R)
        (evaluating : bool) tok state conv b (world : world R G) :
  let d0 := rnn_decoder.__init__ pkg cfg None use_attention dw in
  let d := if evaluating then rnn_decoder.eval d0 else d0 in
  use_attention = false \/ Config.attention cfg = "None"%string ->
  1 <= Config.dec_num_layers cfg ->
  length tok = b ->
  forallb (fun id => id <? Config.tgt_vocab_size cfg) tok = true ->
  state_shape (Config.dec_num_layers cfg) b (Config.hidden_size cfg) state = true ->
  (if String.eqb (Config.cell cfg) "gru"
   then exists h, state = StGRU h
   else exists h c, state = StLSTM h c) ->
  exists scores state' world',
    rnn_decoder.forward d tok state conv world
    = Ok ((scores, state', None), world')
    /\ shape2 b (Config.tgt_vocab_size cfg) scores = true
    /\ state_shape (Config.dec_num_layers cfg) b (Config.hidden_size cfg) state'
       = true
    /\ (if String.eqb (Config.cell cfg) "gru"
        then exists h, state' = StGRU h
        else exists h c, state' = StLSTM h c).
Proof.
  intros d0 d Hcfg Hn Htok Hids Hstate Hkind.
  eapply decoder_forward_shape; try eassumption. apply le_n.
Qed.

(** X12.  How many state entries the encoder hands over. For an encoder
    built by [__init__], on a well-formed batch of [B] examples whose
    longest length is at least 7, the state returned has [hidden_size]
    features for each of the [B] examples and, with [dirs * enc_num_layers]
    final states in the recurrent network,
    [min dec_num_layers (dirs * enc_num_layers)] entries under ['gru'] and
    half of [dirs * enc_num_layers], rounded up, otherwise:
    [enc_num_layers] for a bidirectional LSTM, and only every other layer
    for a unidirectional one. *)
Theorem handed_over_state_shape
        (cfg : Config.t R) emb (wts : rnn_encoder.weights R) (evaluating : bool)
        inputs lengths t b (world : world R G) :
  let e0 := rnn_encoder.__init__ cfg emb wts in
  let e := if evaluating then rnn_encoder.eval e0 else e0 in
  let dirs := if Config.bidirectional cfg then 2 else 1 in
  nn.embedding_dim (rnn_encoder.embedding e) = Config.emb_size cfg ->
  1 <= Config.emb_size cfg -> 1 <= Config.hidden_size cfg ->
  1 <= Config.enc_num_layers cfg ->
  shape2 t b inputs = true ->
  ids_in_range (nn.num_embeddings (rnn_encoder.embedding e)) inputs = true ->
  valid_lengths t b lengths = true ->
  7 <= hd 0 lengths ->
  exists outputs state conv world',
    rnn_encoder.forward e inputs lengths world
    = Ok ((outputs, state, conv), world')
    /\ state_shape
         (if String.eqb (Config.cell cfg) "gru"
          then Nat.min (Config.dec_num_layers cfg) (dirs * Config.enc_num_layers cfg)
          else Nat.div2 (S (dirs * Config.enc_num_layers cfg)))
         b (Config.hidden_size cfg) state
       = true.
Proof.
  intros e0 e dirs Hdim He Hh Hl Hin Hids Hvalid Hlong.
  destruct (encoder_forward_shapes cfg emb wts evaluating inputs lengths t b world
              Hdim He Hh Hl Hin Hids Hvalid) as [_ Hok].
  destruct (Hok Hlong)
    as (outputs & state & conv & world' & Hrun & _ & _ & Hstate & _).
  exists outputs, state, conv, world'. split; [exact Hrun | exact Hstate].
Qed.

(** X13.  The encoder and the decoder of one configuration fit together when
    the encoder hands over at least as many state entries as the decoder has
    layers. Built without attention, on a well-formed batch whose longest
    length is at least 7: the encoder returns, and the first decoder step
    from its state, on known tokens, returns scores shaped
    [B x tgt_vocab_size] and a state shaped
    [dec_num_layers x B x hidden_size]. *)
Theorem handoff_of_enough_layers_goes_through
        (pkg : models.t R) cfg use_attention
        (ew : rnn_encoder.weights R) (dw : rnn_decoder.weights R)
        (evaluating : bool) inputs lengths t b tok (world : world R G) :
  let e0 := rnn_encoder.__init__ cfg None ew in
  let e := if evaluating then rnn_encoder.eval e0 else e0 in
  let d0 := rnn_decoder.__init__ pkg cfg None use_attention dw in
  let d := if evaluating then rnn_decoder.eval d0 else d0 in
  let dirs := if Config.bidirectional cfg then 2 else 1 in
  use_attention = false \/ Config.attention cfg = "None"%string ->
  1 <= Config.emb_size cfg -> 1 <= Config.hidden_size cfg ->
  1 <= Config.enc_num_layers cfg -> 1 <= Config.dec_num_layers cfg ->
  shape2 t b inputs = true ->
  ids_in_range (Config.src_vocab_size cfg) inputs = true ->
  valid_lengths t b lengths = true ->
  7 <= hd 0 lengths ->
  length tok = b ->
  forallb (fun id => id <? Config.tgt_vocab_size cfg) tok = true ->
  Config.dec_num_layers cfg
  <= (if String.eqb (Config.cell cfg) "gru"
      then dirs * Config.enc_num_layers cfg
      else Nat.div2 (S (dirs * Config.enc_num_layers cfg))) ->
  exists outputs state conv w1 scores state' w2,
    rnn_encoder.forward e inputs lengths world = Ok ((outputs, state, conv), w1)
    /\ rnn_decoder.forward d tok state conv w1 = Ok ((scores, state', None), w2)
    /\ shape2 b (Config.tgt_vocab_size cfg) scores = true
    /\ state_shape (Config.dec_num_layers cfg) b (Config.hidden_size cfg) state'
       = true.
Proof.
  intros e0 e d0 d dirs Hcfg He Hh Hl Hn Hin Hids Hvalid Hlong Htok Htokids Henough.
  destruct (encoder_forward_shapes cfg None ew evaluating inputs lengths t b world)
    as [_ Hok]; try assumption.
  { destruct evaluating; reflexivity. }
  { destruct evaluating; exact Hids. }
  destruct (Hok Hlong)
    as (outputs & state & conv & w1 & Henc & _ & _ & Hstate & Hkind).
  edestruct decoder_forward_shape
    with (pkg := pkg) (cfg := cfg) (use_attention := use_attention) (dw := dw)
         (evaluating := evaluating) (tok := tok) (state := state) (conv := conv)
         (world := w1)
    as (scores & state' & w2 & Hdec & Hscores & Hstate' & _);
    [exact Hcfg | exact Hn | | exact Htok | exact Htokids | exact Hstate | exact Hkind |].
  { fold dirs. destruct (String.eqb (Config.cell cfg) "gru"); lia. }
  exists outputs, state, conv, w1, scores, state', w2.
  split; [exact Henc|]. split; [exact Hdec|]. split; assumption.
Qed.

(** X14.  When the encoder hands over fewer state entries than the decoder
    has layers, the encoder returns and the first decoder step from its
    state raises [IndexError]. The encoder hands over at most
    [dirs * enc_num_layers] entries of a GRU state and every other one of
    the [dirs * enc_num_layers] entries of an LSTM state; so the pair fails
    for a unidirectional LSTM with as many encoder as decoder layers, two
    or more. *)
Theorem handoff_of_too_few_layers_fails
        (pkg : models.t R) cfg use_attention
        (ew : rnn_encoder.weights R) (dw : rnn_decoder.weights R)
        (evaluating : bool) inputs lengths t b tok (world : world R G) :
  let e0 := rnn_encoder.__init__ cfg None ew in
  let e := if evaluating then rnn_encoder.eval e0 else e0 in
  let d0 := rnn_decoder.__init__ pkg cfg None use_attention dw in
  let d := if evaluating then rnn_decoder.eval d0 else d0 in
  let dirs := if Config.bidirectional cfg then 2 else 1 in
  1 <= Config.emb_size cfg -> 1 <= Config.hidden_size cfg ->
  1 <= Config.enc_num_layers cfg ->
  shape2 t b inputs = true ->
  ids_in_range (Config.src_vocab_size cfg) inputs = true ->
  valid_lengths t b lengths = true ->
  7 <= hd 0 lengths ->
  length tok = b ->
  forallb (fun id => id <? Config.tgt_vocab_size cfg) tok = true ->
  (if String.eqb (Config.cell cfg) "gru"
   then dirs * Config.enc_num_layers cfg
   else Nat.div2 (S (dirs * Config.enc_num_layers cfg)))
  < Config.dec_num_layers cfg ->
  exists outputs state conv w1,
    rnn_encoder.forward e inputs lengths world = Ok ((outputs, state, conv), w1)
    /\ rnn_decoder.forward d tok state conv w1 = Err IndexError.
Proof.
  intros e0 e d0 d dirs He Hh Hl Hin Hids Hvalid Hlong Htok Htokids Hfew.
  destruct (encoder_forward_shapes cfg None ew evaluating inputs lengths t b world)
    as [_ Hok]; try assumption.
  { destruct evaluating; reflexivity. }
  { destruct evaluating; exact Hids. }
  destruct (Hok Hlong)
    as (outputs & state & conv & w1 & Henc & _ & _ & Hstate & Hkind).
  exists outputs, state, conv, w1. split; [exact Henc|].
  destruct (decoder_init_embedding pkg cfg use_attention dw evaluating)
    as [Hvocab Hdim].
  fold d0 in Hvocab, Hdim. fold d in Hvocab, Hdim.
  destruct (token_lookup_ok (rnn_decoder.embedding d) tok) as (embs & Hemb & Hembs).
  { rewrite Hvocab. exact Htokids. }
  rewrite Htok, Hdim in Hembs.
  edestruct decoder_rnn_forward_cases
    with (pkg := pkg) (cfg := cfg) (emb := @None (nn.Embedding R))
         (use_attention := use_attention) (dw := dw) (evaluating := evaluating)
         (embs := embs) (state := state) (w := w1)
    as [Hshort _]; [exact Hembs | exact Hstate | exact Hkind |].
  fold d0 in Hshort. fold d in Hshort.
  unfold rnn_decoder.forward.
  erewrite bind_step by (unfold lift; rewrite Hemb; reflexivity).
  apply bind_err. apply Hshort.
  fold dirs. destruct (String.eqb (Config.cell cfg) "gru"); lia.
Qed.

(** X15.  With [dec_num_layers = 0] the decoder is built without complaint,
    and every step on known tokens and a state of its kind raises
    [RuntimeError]: the loop over the layers collects nothing, and
    [torch.stack] refuses an empty list. *)
Theorem layerless_decoder_raises_runtime_error
        (pkg : models.t R) cfg emb use_attention (dw : rnn_decoder.weights R)
        (evaluating : bool) tok state conv (world : world R G) :
  let d0 := rnn_decoder.__init__ pkg cfg emb use_attention dw in
  let d := if evaluating then rnn_decoder.eval d0 else d0 in
  Config.dec_num_layers cfg = 0 ->
  forallb (fun id => id <? nn.num_embeddings (rnn_decoder.embedding d)) tok = true ->
  (if String.eqb (Config.cell cfg) "gru"
   then exists h, state = StGRU h
   else exists h c, state = StLSTM h c) ->
  rnn_decoder.forward d tok state conv world = Err RuntimeError.
Proof.
  intros d0 d Hzero Hids Hkind.
  destruct (token_lookup_ok (rnn_decoder.embedding d) tok Hids) as (embs & Hemb & _).
  pose proof (decoder_rnn_init pkg cfg emb use_attention dw evaluating) as Hinit.
  cbv zeta in Hinit. fold d0 in Hinit. fold d in Hinit.
  unfold rnn_decoder.forward.
  erewrite bind_step by (unfold lift; rewrite Hemb; reflexivity).
  apply bind_err. rewrite Hinit, Hzero.
  destruct (String.eqb (Config.cell cfg) "gru").
  - destruct Hkind as [h ->]. destruct evaluating; reflexivity.
  - destruct Hkind as (h & c & ->). destruct evaluating; reflexivity.
Qed.
End Handoff.

(** ** Modes, the generator and the layers of the encoder *)

Section EncoderModes.
Context {R G : Type} `{Scalar R} `{Sampler G R}.

(** With a single layer there is no place between layers for dropout: the
    recurrent network returns the same, and leaves the world as it is, in
    either mode. *)
Lemma rnn_forward_single_layer S (step : nat -> bool -> list R -> S -> S) hid s0 p
      bidirectional training input_size xs (w : world R G) :
  nn.rnn_forward step hid s0 p bidirectional training input_size 1 xs w
  = if forallb (forallb (fun x => length x =? input_size)) xs
    then Ok ((fst (nn.layer_forward step hid s0 bidirectional 0 xs),
              snd (nn.layer_forward step hid s0 bidirectional 0 xs) ++ []), w)
    else Err RuntimeError.
Proof.
  unfold nn.rnn_forward. destruct (forallb _ xs); [|reflexivity].
  simpl. destruct (nn.layer_forward step hid s0 bidirectional 0 xs) as [out fin].
  reflexivity.
Qed.

Lemma init_rnn_single_layer (cfg : Config.t R) emb (wts : rnn_encoder.weights R)
      (evaluating : bool) xs (w w' w2 : world R G) raw rawstate :
  let e0 := rnn_encoder.__init__ cfg emb wts in
  let e := if evaluating then rnn_encoder.eval e0 else e0 in
  Config.enc_num_layers cfg = 1 ->
  rnn_encoder.rnn_forward (rnn_encoder.rnn e) xs w = Ok ((raw, rawstate), w') ->
  rnn_encoder.rnn_forward (rnn_encoder.rnn (rnn_encoder.eval e0)) xs w2
  = Ok ((raw, rawstate), w2).
Proof.
  intros e0 e Hone. unfold e, e0.
  destruct evaluating; simpl; destruct (String.eqb (Config.cell cfg) "gru");
    simpl; unfold nn.GRU_forward, nn.LSTM_forward; simpl; rewrite Hone;
    unfold bind; rewrite !rnn_forward_single_layer;
    destruct (forallb _ xs); try discriminate;
    unfold ret; intros [= <- <- _]; reflexivity.
Qed.

(** X16.  With a single encoder layer, neither the mode nor the generator
    nor the option [config.dropout] reaches the outputs and the state: a run
    in training mode and a run in evaluation mode, from any two worlds,
    return the same outputs and the same state. They differ in the
    convolutional context alone. *)
Theorem single_layer_encoder_is_dropout_free
        (cfg : Config.t R) emb (wts : rnn_encoder.weights R) inputs lengths
        (w1 w1' w2 w2' : world R G) outputs1 state1 conv1 outputs2 state2 conv2 :
  let e := rnn_encoder.__init__ cfg emb wts in
  Config.enc_num_layers cfg = 1 ->
  rnn_encoder.forward e inputs lengths w1
  = Ok ((outputs1, state1, conv1), w1') ->
  rnn_encoder.forward (rnn_encoder.eval e) inputs lengths w2
  = Ok ((outputs2, state2, conv2), w2') ->
  outputs1 = outputs2 /\ state1 = state2.
Proof.
  intros e Hone Hrun1 Hrun2.
  destruct (encoder_forward_inv _ _ _ _ Hrun1)
    as (emb1 & embs1 & raw1 & rawstate1 & wa & conv01
        & Hemb1 & Hpack1 & Hrnn1 & Hfold1 & _ & _ & Hred1).
  destruct (encoder_forward_inv _ _ _ _ Hrun2)
    as (emb2 & embs2 & raw2 & rawstate2 & wb & conv02
        & Hemb2 & Hpack2 & Hrnn2 & Hfold2 & _ & _ & Hred2).
  change (rnn_encoder.embedding (rnn_encoder.eval e))
    with (rnn_encoder.embedding e) in Hemb2.
  change (rnn_encoder.config (rnn_encoder.eval e))
    with (rnn_encoder.config e) in Hfold2, Hred2.
  change (rnn_encoder.hidden_size (rnn_encoder.eval e))
    with (rnn_encoder.hidden_size e) in Hfold2.
  rewrite Hemb1 in Hemb2. injection Hemb2 as <-.
  rewrite Hpack1 in Hpack2. injection Hpack2 as <-.
  pose proof (@init_rnn_single_layer cfg emb wts false _ _ _ w1 _ _ Hone Hrnn1)
    as Hev1.
  pose proof (@init_rnn_single_layer cfg emb wts true _ _ _ w1 _ _ Hone Hrnn2)
    as Hev2.
  cbv zeta in Hev1, Hev2. fold e in Hev1, Hev2.
  assert (Hsame : raw1 = raw2 /\ rawstate1 = rawstate2).
  { rewrite Hev1 in Hev2. injection Hev2 as <- <-. split; reflexivity. }
  destruct Hsame as [<- <-].
  rewrite Hred1 in Hred2. injection Hred2 as <-.
  split; [|reflexivity].
  destruct (Config.bidirectional (rnn_encoder.config e)); congruence.
Qed.
End EncoderModes.

(** ** A batch without padding *)

Section Unpadded.
Context {R G : Type} `{Scalar R} `{Sampler G R}.

Lemma valid_lengths_repeat t b :
  1 <= t -> 1 <= b -> valid_lengths t b (repeat t b) = true.
Proof.
  intros Ht Hb. unfold valid_lengths.
  rewrite repeat_length, Nat.eqb_refl.
  replace (b =? 0) with false by (symmetry; apply Nat.eqb_neq; lia).
  assert (Hz : existsb (fun l => l =? 0) (repeat t b) = false).
  { clear Hb. induction b as [|b IH]; [reflexivity|]. simpl. rewrite IH.
    replace (t =? 0) with false by (symmetry; apply Nat.eqb_neq; lia).
    reflexivity. }
  assert (Hs : sorted_decreasing (repeat t b) = true).
  { clear Hb Hz. induction b as [|b IH]; [reflexivity|].
    destruct b as [|b]; [reflexivity|].
    change (repeat t (S (S b))) with (t :: t :: repeat t b).
    change (repeat t (S b)) with (t :: repeat t b) in IH.
    change ((t <=? t) && sorted_decreasing (t :: repeat t b) = true).
    rewrite Nat.leb_refl. exact IH. }
  rewrite Hz, Hs. simpl. destruct b; [lia|]. simpl. apply Nat.leb_refl.
Qed.

(** X17.  Packing and unpacking a batch in which every example has the full
    length [T] gives the embedded batch back: without padding, the recurrent
    network is run on the embeddings themselves. *)
Theorem unpadded_batch_survives_pack_and_unpack
        (e : rnn_encoder.t R) inputs t b :
  1 <= t -> 1 <= b -> 1 <= nn.embedding_dim (rnn_encoder.embedding e) ->
  shape2 t b inputs = true ->
  ids_in_range (nn.num_embeddings (rnn_encoder.embedding e)) inputs = true ->
  exists embedded embs,
    mapR (mapR (nn.Embedding_lookup (rnn_encoder.embedding e))) inputs
    = Ok embedded
    /\ pack embedded (repeat t b) = Ok embs
    /\ fst (unpack embs) = embedded.
Proof.
  intros Ht Hb He Hin Hids. apply shape2_true in Hin.
  pose proof (ids_in_range_lookup _ _ Hids) as Hemb.
  pose proof (embedded_shape (rnn_encoder.embedding e) Hin) as Hshape.
  pose proof (valid_lengths_repeat Ht Hb) as Hvalid.
  destruct (pack_unpack_shape (repeat t b) He Hshape Hvalid) as (p & Hpack & Hunp).
  eexists _, p. split; [exact Hemb|]. split; [exact Hpack|].
  assert (Hhd : hd 0 (repeat t b) = t) by (destruct b; [lia|reflexivity]).
  rewrite Hhd in Hunp.
  destruct Hunp as [Hlen Hmats]. pose proof Hshape as [Hlen' Hmats'].
  apply nth_ext with (d := []) (d' := []); [congruence|].
  intros i Hi. rewrite Hlen in Hi.
  destruct (Forall_nth_default [] (i := i) Hmats) as [Hbi _]; [lia|].
  destruct (Forall_nth_default [] (i := i) Hmats') as [Hbi' _]; [lia|].
  apply nth_ext with (d := []) (d' := []); [congruence|].
  intros j Hj. rewrite Hbi in Hj.
  rewrite (@unpack_pack_nth R _ _ (repeat t b) t b _ p i j He Hshape Hvalid Hpack)
    by (rewrite ?Hhd; lia).
  rewrite nth_repeat_lt by lia.
  apply Nat.ltb_lt in Hi. rewrite Hi. reflexivity.
Qed.
End Unpadded.

(** ** Evaluation mode and the generator *)

Section QuietMonad.
Context {R G X : Type} `{Scalar R} `{Sampler G R}.
Variable f : world R G -> X.

(** A computation that, when it returns, leaves [f] of the world as it
    was. *)
Local Abbreviation keeps c :=
  (forall (w w' : world R G) r, c w = Ok (r, w') -> f w' = f w).

Lemma keeps_ret A (a : A) : keeps (ret a).
Proof. intros w w' r [= _ <-]. reflexivity. Qed.

Lemma keeps_lift A (x : result A) : keeps (lift x).
Proof. intros w w' r. unfold lift. destruct x; intros [= _ <-]. reflexivity. Qed.

Lemma keeps_bind A B (c : M R G A) (k : A -> M R G B) :
  keeps c -> (forall a, keeps (k a)) -> keeps (bind c k).
Proof.
  intros Hc Hk w w' r Hrun.
  apply bind_ok in Hrun. destruct Hrun as (a & w1 & H1 & H2).
  rewrite (Hk a _ _ _ H2). exact (Hc _ _ _ H1).
Qed.

Lemma keeps_layers_forward S (step : nat -> bool -> list R -> S -> S) hid s0 p
      bidirectional ls :
  forall xs, keeps (nn.layers_forward step hid s0 p bidirectional false ls xs).
Proof.
  induction ls as [|l rest IH]; intros xs; simpl; [apply keeps_ret|].
  destruct (nn.layer_forward step hid s0 bidirectional l xs) as [out fin].
  apply keeps_bind.
  - destruct rest; apply keeps_ret.
  - intros out'. apply keeps_bind; [apply IH|].
    intros [y fins]. apply keeps_ret.
Qed.

Lemma keeps_rnn_forward S (step : nat -> bool -> list R -> S -> S) hid s0 p
      bidirectional input_size num_layers xs :
  keeps (nn.rnn_forward step hid s0 p bidirectional false input_size num_layers xs).
Proof.
  unfold nn.rnn_forward. destruct (forallb _ xs);
    [apply keeps_layers_forward | apply keeps_lift].
Qed.

Lemma keeps_Sequential_eval (ls : list (nn.layer R)) :
  forall x, keeps (nn.Sequential_forward (map nn.layer_eval ls) x).
Proof.
  induction ls as [|l rest IH]; intros x; simpl; [apply keeps_ret|].
  apply keeps_bind; [|intros y; apply IH].
  destruct l; simpl; [apply keeps_lift | apply keeps_ret | apply keeps_ret].
Qed.

Lemma keeps_encoder_eval (e : rnn_encoder.t R) inputs lengths :
  keeps (rnn_encoder.forward (rnn_encoder.eval e) inputs lengths).
Proof.
  unfold rnn_encoder.forward.
  apply keeps_bind; [apply keeps_lift|]. intros embedded.
  apply keeps_bind; [apply keeps_lift|]. intros embs.
  apply keeps_bind.
  { simpl. destruct (rnn_encoder.rnn e) as [g | l]; simpl.
    - apply keeps_bind; [apply keeps_rnn_forward|].
      intros [outputs h_n]. apply keeps_ret.
    - apply keeps_bind.
      + unfold nn.LSTM_forward. apply keeps_bind; [apply keeps_rnn_forward|].
        intros [out fins]. apply keeps_ret.
      + intros [outputs [h_n c_n]]. apply keeps_ret. }
  intros [outputs state].
  apply keeps_bind.
  { destruct (Config.bidirectional _); [apply keeps_lift | apply keeps_ret]. }
  intros outputs'.
  apply keeps_bind; [apply keeps_Sequential_eval|]. intros conv.
  apply keeps_bind; [apply keeps_lift|]. intros state'. apply keeps_ret.
Qed.

(** The decoder calls [nn.Dropout] modules, whose calls are on record in
    the world: what it keeps must not look at the record. *)
Hypothesis f_ignores_record :
  forall (w : world R G) x,
    f {| gen := gen w; dropout_calls := dropout_calls w ++ [x] |} = f w.

Lemma keeps_Dropout_eval (m : nn.Dropout R) x :
  keeps (nn.Dropout_forward (nn.Dropout_eval m) x).
Proof.
  unfold nn.Dropout_forward. apply keeps_bind; [|intros _; simpl; apply keeps_ret].
  intros w w' r. unfold record_dropout. intros [= _ <-]. apply f_ignores_record.
Qed.

Lemma keeps_StackedGRU_loop (g : StackedGRU.t R) h_0 ls :
  forall i input acc,
    keeps (StackedGRU.loop (StackedGRU.eval g) h_0 ls i input acc).
Proof.
  induction ls as [|layer rest IH]; intros i input acc; simpl;
    [apply keeps_ret|].
  apply keeps_bind; [apply keeps_lift|]. intros h_0_i.
  apply keeps_bind; [apply keeps_lift|]. intros h_1_i.
  apply keeps_bind; [|intros input'; apply IH].
  destruct (negb _); [apply keeps_Dropout_eval | apply keeps_ret].
Qed.

Lemma keeps_StackedLSTM_loop (l : StackedLSTM.t R) h_0 c_0 ls :
  forall i input acc accc,
    keeps (StackedLSTM.loop (StackedLSTM.eval l) h_0 c_0 ls i input acc accc).
Proof.
  induction ls as [|layer rest IH]; intros i input acc accc; simpl;
    [apply keeps_ret|].
  apply keeps_bind; [apply keeps_lift|]. intros h_0_i.
  apply keeps_bind; [apply keeps_lift|]. intros c_0_i.
  apply keeps_bind; [apply keeps_lift|]. intros [h_1_i c_1_i].
  apply keeps_bind; [|intros input'; apply IH].
  destruct (negb _); [apply keeps_Dropout_eval | apply keeps_ret].
Qed.

Lemma keeps_decoder_eval (d : rnn_decoder.t R) input state conv :
  keeps (rnn_decoder.forward (rnn_decoder.eval d) input state conv).
Proof.
  unfold rnn_decoder.forward.
  apply keeps_bind; [apply keeps_lift|]. intros embs.
  apply keeps_bind.
  { simpl. destruct (rnn_decoder.rnn d) as [g | l]; simpl.
    - unfold StackedGRU.forward.
      destruct state; [|destruct (StackedGRU.layers _); apply keeps_lift].
      apply keeps_bind; [apply keeps_StackedGRU_loop|]. intros [input' h_1].
      apply keeps_bind; [apply keeps_lift|]. intros h_1'. apply keeps_ret.
    - unfold StackedLSTM.forward.
      destruct state as [[|h_0 [|c_0 [|x y]]] | h_0 c_0];
        try apply keeps_lift;
        [destruct (StackedLSTM.layers _); [apply keeps_lift|];
         apply keeps_bind; [apply keeps_lift|]; intros hx;
         apply keeps_bind; [apply keeps_lift|]; intros cx; apply keeps_lift|].
      apply keeps_bind; [apply keeps_StackedLSTM_loop|].
      intros [input' [h_1 c_1]].
      apply keeps_bind; [apply keeps_lift|]. intros h_1'.
      apply keeps_bind; [apply keeps_lift|]. intros c_1'. apply keeps_ret. }
  intros [output state'].
  apply keeps_bind.
  { simpl. destruct (rnn_decoder.attention d) as [|[a|]];
      [apply keeps_lift | | apply keeps_ret].
    destruct (String.eqb _ _);
      (apply keeps_bind; [apply keeps_lift|]; intros [o wts]; apply keeps_ret). }
  intros [output' attn].
  apply keeps_bind; [apply keeps_lift|]. intros scores. apply keeps_ret.
Qed.
End QuietMonad.

Section QuietEvaluation.
Context {R G : Type} `{Scalar R} `{Sampler G R}.

(** X18.  In evaluation mode a forward pass draws nothing: when it returns,
    the encoder leaves the world exactly as it found it, and a decoder step
    leaves the generator in the state it found it in. So evaluating between
    two training steps does not shift the random stream of the second. *)
Theorem evaluation_leaves_the_generator_untouched
        (e : rnn_encoder.t R) (d : rnn_decoder.t R) :
  (forall inputs lengths (w w' : world R G) r,
      rnn_encoder.forward (rnn_encoder.eval e) inputs lengths w = Ok (r, w') ->
      w' = w)
  /\ (forall input state conv (w w' : world R G) r,
         rnn_decoder.forward (rnn_decoder.eval d) input state conv w = Ok (r, w') ->
         gen w' = gen w).
Proof.
  split.
  - intros inputs lengths.
    exact (keeps_encoder_eval (fun w => w) e inputs lengths).
  - intros input state conv.
    apply (keeps_decoder_eval (@gen R G)). reflexivity.
Qed.
End QuietEvaluation.

(** ** Which encoder layers the state comes from *)

Section FirstLayer.
Context {R G : Type} `{Scalar R} `{Sampler G R}.

Lemma mapR_ext A B (f g : A -> result B) l :
  (forall a, f a = g a) -> mapR f l = mapR g l.
Proof.
  intros Hfg. induction l as [|a l IH]; [reflexivity|].
  simpl. rewrite Hfg, IH. reflexivity.
Qed.

Lemma scan_ext S (f g : list R -> S -> S) :
  (forall x s, f x s = g x s) ->
  forall xs s, nn.scan f xs s = nn.scan g xs s.
Proof.
  intros Hfg. induction xs as [|x xs IH]; intros s; [reflexivity|].
  simpl. assert (Hstep : map2 f x s = map2 g x s).
  { unfold map2. apply map_ext. intros [a c]. apply Hfg. }
  rewrite Hstep, IH. reflexivity.
Qed.

Lemma layer_forward_ext S (step step' : nat -> bool -> list R -> S -> S) hid s0
      bidirectional l xs :
  (forall reverse x s, step l reverse x s = step' l reverse x s) ->
  nn.layer_forward step hid s0 bidirectional l xs
  = nn.layer_forward step' hid s0 bidirectional l xs.
Proof.
  intros Hstep. unfold nn.layer_forward.
  rewrite (scan_ext (step l false) (step' l false)) by (intros; apply Hstep).
  rewrite (scan_ext (step l true) (step' l true)) by (intros; apply Hstep).
  reflexivity.
Qed.

(** The final states the stack of layers returns start with those of its
    first layer. *)
Lemma layers_forward_first S (step : nat -> bool -> list R -> S -> S) hid s0 p
      bidirectional training l rest xs (w w' : world R G) y fins :
  nn.layers_forward step hid s0 p bidirectional training (l :: rest) xs w
  = Ok ((y, fins), w') ->
  exists more,
    fins = snd (nn.layer_forward step hid s0 bidirectional l xs) ++ more.
Proof.
  simpl. destruct (nn.layer_forward step hid s0 bidirectional l xs) as [out fin].
  intros Hrun.
  apply bind_ok in Hrun. destruct Hrun as (out' & w1 & _ & Hrun).
  apply bind_ok in Hrun. destruct Hrun as ([y' fins'] & w2 & _ & Hrun).
  unfold ret in Hrun. injection Hrun as _ <- _. exists fins'. reflexivity.
Qed.

(** The state a GRU encoder built by [__init__] hands over when the decoder
    has no more layers than the encoder has directions. *)
Lemma init_gru_handoff (cfg : Config.t R) emb (wts : rnn_encoder.weights R)
      (evaluating : bool) inputs lengths (w w' : world R G) outputs state conv :
  let e0 := rnn_encoder.__init__ cfg emb wts in
  let e := if evaluating then rnn_encoder.eval e0 else e0 in
  Config.cell cfg = "gru"%string ->
  1 <= Config.enc_num_layers cfg ->
  Config.dec_num_layers cfg <= (if Config.bidirectional cfg then 2 else 1) ->
  rnn_encoder.forward e inputs lengths w = Ok ((outputs, state, conv), w') ->
  exists embedded embs,
    mapR (mapR (nn.Embedding_lookup (rnn_encoder.embedding e))) inputs
    = Ok embedded
    /\ pack embedded lengths = Ok embs
    /\ state
       = StGRU (firstn (Config.dec_num_layers cfg)
                  (snd (nn.layer_forward
                          (fun l reverse x h =>
                             map (rnn_encoder.w_gru wts l reverse x h)
                                 (seq 0 (Config.hidden_size cfg)))
                          (fun h => h)
                          (repeat rzero (Config.hidden_size cfg))
                          (Config.bidirectional cfg) 0 (fst (unpack embs))))).
Proof.
  intros e0 e Hgru Hl Hdec Hrun.
  destruct (encoder_forward_inv _ _ _ _ Hrun)
    as (embedded & embs & raw & rawstate & w1 & conv0
        & Hemb & Hpack & Hrnn & _ & _ & _ & Hred).
  exists embedded, embs. split; [exact Hemb|]. split; [exact Hpack|].
  assert (Hcfg : rnn_encoder.config e = cfg)
    by (unfold e, e0; destruct evaluating; reflexivity).
  rewrite Hcfg in Hred. unfold rnn_encoder.reduce_state in Hred.
  rewrite Hgru in Hred. simpl in Hred.
  destruct rawstate as [h_n | h_n c_n]; [|discriminate].
  injection Hred as <-. f_equal.
  assert (Hfins : exists more,
             h_n = snd (nn.layer_forward
                          (fun l reverse x h =>
                             map (rnn_encoder.w_gru wts l reverse x h)
                                 (seq 0 (Config.hidden_size cfg)))
                          (fun h => h)
                          (repeat rzero (Config.hidden_size cfg))
                          (Config.bidirectional cfg) 0 (fst (unpack embs)))
                   ++ more).
  { assert (Hinit : rnn_encoder.rnn e
                     = rnn_encoder.RnnGRU
                         {| nn.gru_input_size := Config.emb_size cfg;
                            nn.gru_hidden_size := Config.hidden_size cfg;
                            nn.gru_num_layers := Config.enc_num_layers cfg;
                            nn.gru_dropout := Config.dropout cfg;
                            nn.gru_bidirectional := Config.bidirectional cfg;
                            nn.gru_training := negb evaluating;
                            nn.gru_cell := rnn_encoder.w_gru wts |}).
    { unfold e, e0. destruct evaluating; simpl; rewrite Hgru; reflexivity. }
    rewrite Hinit in Hrnn. unfold rnn_encoder.rnn_forward in Hrnn.
    apply bind_ok in Hrnn. destruct Hrnn as ([out fins] & w2 & Hlayers & Hret).
    unfold ret in Hret. injection Hret as _ <- _.
    unfold nn.GRU_forward, nn.rnn_forward in Hlayers.
    cbn [nn.gru_num_layers nn.gru_input_size] in Hlayers.
    destruct (forallb _ (fst (unpack embs))); [|discriminate].
    destruct (Config.enc_num_layers cfg) as [|n]; [lia|].
    change (seq 0 (S n)) with (0 :: seq 1 n) in Hlayers.
    apply layers_forward_first in Hlayers. exact Hlayers. }
  destruct Hfins as (more & ->).
  rewrite firstn_app, layer_forward_final_count.
  replace (Config.dec_num_layers cfg - (if Config.bidirectional cfg then 2 else 1))
    with 0 by lia.
  simpl. apply app_nil_r.
Qed.

(** X19.  With GRU cells and no more decoder layers than the encoder has
    directions (so for a bidirectional encoder and a two-layer decoder), the
    state handed over is made of the final states of the first encoder layer
    alone, the forward one and then the backward one. Two encoders that
    agree on the embedding table and on the cell of layer 0 hand over the
    same state, whatever the cells of their deeper layers, their modes and
    the generator states. *)
Theorem gru_handoff_reads_the_first_layer_only
        (cfg : Config.t R) emb (ew ew' : rnn_encoder.weights R)
        (evaluating evaluating' : bool) inputs lengths
        (w1 w1' w2 w2' : world R G)
        outputs1 state1 conv1 outputs2 state2 conv2 :
  let e1 := if evaluating
            then rnn_encoder.eval (rnn_encoder.__init__ cfg emb ew)
            else rnn_encoder.__init__ cfg emb ew in
  let e2 := if evaluating'
            then rnn_encoder.eval (rnn_encoder.__init__ cfg emb ew')
            else rnn_encoder.__init__ cfg emb ew' in
  Config.cell cfg = "gru"%string ->
  1 <= Config.enc_num_layers cfg ->
  Config.dec_num_layers cfg <= (if Config.bidirectional cfg then 2 else 1) ->
  (forall id j, rnn_encoder.w_embedding ew id j = rnn_encoder.w_embedding ew' id j) ->
  (forall reverse x h j,
      rnn_encoder.w_gru ew 0 reverse x h j = rnn_encoder.w_gru ew' 0 reverse x h j) ->
  rnn_encoder.forward e1 inputs lengths w1
  = Ok ((outputs1, state1, conv1), w1') ->
  rnn_encoder.forward e2 inputs lengths w2
  = Ok ((outputs2, state2, conv2), w2') ->
  state1 = state2.
Proof.
  intros e1 e2 Hgru Hl Hdec Htable Hcell Hrun1 Hrun2.
  apply init_gru_handoff in Hrun1; try assumption.
  apply init_gru_handoff in Hrun2; try assumption.
  destruct Hrun1 as (emb1 & embs1 & Hemb1 & Hpack1 & ->).
  destruct Hrun2 as (emb2 & embs2 & Hemb2 & Hpack2 & ->).
  assert (Hlookup : forall id,
             nn.Embedding_lookup
               (rnn_encoder.embedding
                  (if evaluating
                   then rnn_encoder.eval (rnn_encoder.__init__ cfg emb ew)
                   else rnn_encoder.__init__ cfg emb ew)) id
             = nn.Embedding_lookup
                 (rnn_encoder.embedding
                    (if evaluating'
                     then rnn_encoder.eval (rnn_encoder.__init__ cfg emb ew')
                     else rnn_encoder.__init__ cfg emb ew')) id).
  { intros id. destruct evaluating, evaluating', emb as [m|]; simpl;
      try reflexivity;
      unfold nn.Embedding_lookup; simpl;
      (destruct (Config.src_vocab_size cfg =? 0); [reflexivity|]);
      (destruct (id <? Config.src_vocab_size cfg); [|reflexivity]);
      f_equal; apply map_ext; intros j; apply Htable. }
  rewrite (mapR_ext _ _ _ (fun row => mapR_ext _ _ row Hlookup)) in Hemb1.
  rewrite Hemb1 in Hemb2. injection Hemb2 as <-.
  rewrite Hpack1 in Hpack2. injection Hpack2 as <-.
  f_equal. f_equal. f_equal. apply layer_forward_ext.
  intros reverse x s. apply map_ext. intros j. apply Hcell.
Qed.
End FirstLayer.

(** ** The claims on concrete runs *)

Import Sample.

Lemma uniform_attention_attends b h tc :
  attends_over_context uniform_attention b h tc.
Proof.
  intros output conv Hout Hconv.
  exists output, (map (map (fun _ => 1%Z)) conv).
  split; [reflexivity|]. split; [exact Hout|].
  apply shape3_true in Hconv. destruct Hconv as [Hlen Hmats].
  apply shape2_true. split; [rewrite length_map; exact Hlen|].
  rewrite Forall_forall in Hmats.
  apply Forall_forall. intros v Hv.
  apply in_map_iff in Hv. destruct Hv as (m & <- & Hm).
  rewrite length_map. apply Hmats, Hm.
Qed.

(** A mechanism of one width attends over the context at that width, and
    at no other. *)
Lemma sized_attention_attends h b tc :
  attends_over_context (sized_attention h) b h tc.
Proof.
  intros output conv Hout Hconv.
  exists output, (map (map (fun _ => 1%Z)) conv).
  pose proof Hout as Hout'. pose proof Hconv as Hconv'.
  apply shape2_true in Hout'. apply shape3_true in Hconv'.
  destruct Hout' as [Hlen Hrows]. destruct Hconv' as [Hclen Hmats].
  split.
  - unfold sized_attention. simpl.
    rewrite (forallb_width Hrows), Hclen, Hlen, Nat.eqb_refl. simpl.
    replace (forallb (forallb (fun v => length v =? h)) conv) with true;
      [reflexivity|].
    symmetry. apply forallb_forall. intros m Hm.
    rewrite Forall_forall in Hmats. destruct (Hmats m Hm) as [_ Hv].
    apply forallb_width, Hv.
  - split; [exact Hout|].
    apply shape2_true. split; [rewrite length_map; exact Hclen|].
    rewrite Forall_forall in Hmats.
    apply Forall_forall. intros v Hv.
    apply in_map_iff in Hv. destruct Hv as (m & <- & Hm).
    rewrite length_map. apply Hmats, Hm.
Qed.

Lemma sized_attention_refuses_other_widths :
  models.attend (sized_attention 8) [[1%Z]] (models.CtxConv [[[1%Z]]])
  = Err RuntimeError.
Proof. reflexivity. Qed.




(** C2, against the claim as it is worded.  With 20 time steps the outputs
    have 20 positions and the context 14; with 5 and with 1 the
    convolutions refuse their input. *)
Lemma conv_context_length_counterexample :
  (exists outputs state conv w',
      rnn_encoder.forward tiny_encoder (batch 20 1 3) [20] w0
      = Ok ((outputs, state, conv), w')
      /\ length outputs = 20
      /\ map (@length (list Z)) conv = [14])
  /\ rnn_encoder.forward tiny_encoder (batch 5 1 3) [5] w0 = Err RuntimeError
  /\ rnn_encoder.forward tiny_encoder (batch 1 1 3) [1] w0 = Err RuntimeError.
Proof.
  split; [|split; vm_compute; reflexivity].
  eexists _, _, _, _.
  split; [vm_compute; reflexivity|]. split; reflexivity.
Qed.

Lemma conv_context_six_positions_shorter_witness :
  exists outputs state conv world',
    rnn_encoder.forward tiny_encoder ragged [7; 1] w0
    = Ok ((outputs, state, conv), world')
    /\ length outputs = 7
    /\ Forall (Forall (fun v => length v = 1)) outputs
    /\ length conv = 2
    /\ Forall (fun example =>
                 length example + 6 = length outputs
                 /\ Forall (fun v => length v = 1) example)
              conv.
Proof.
  apply (@conv_context_six_positions_shorter
           Z nat _ _ (tiny "gru" "None") None enc_weights true ragged [7; 1] 7 2 w0).
  - reflexivity.
  - simpl. lia.
  - simpl. lia.
  - simpl. lia.
  - reflexivity.
  - reflexivity.
  - reflexivity.
  - simpl. lia.
Defined.

(** C3, against the claim as it is worded.  In the scenario as the
    specification gives it (lengths [[4, 2]], padded to 4 steps) the encoder
    does not return: the third convolution refuses its input. *)
Lemma scenario_encode_fails :
  rnn_encoder.forward (rnn_encoder.__init__ scenario None enc_weights)
                      (batch 4 2 3) [4; 2] w0
  = Err RuntimeError.
Proof. vm_compute. reflexivity. Qed.

Lemma end_to_end_shapes_witness :
  exists outputs state conv w1 scores state' attn w2,
    rnn_encoder.forward (rnn_encoder.__init__ scenario None enc_weights)
                        (batch 7 2 3) [7; 2] w0
    = Ok ((outputs, state, conv), w1)
    /\ shape3 7 2 8 outputs = true
    /\ shape3 2 (7 - 6) 8 conv = true
    /\ state_shape 2 2 8 state = true
    /\ rnn_decoder.forward
         (rnn_decoder.__init__ sized_pkg scenario None true dec_weights)
         [1; 2] state conv w1
       = Ok ((scores, state', Some attn), w2)
    /\ shape2 2 5 scores = true
    /\ state_shape 2 2 8 state' = true
    /\ shape2 2 (7 - 6) attn = true.
Proof.
  apply (@end_to_end_shapes Z nat _ _ sized_pkg 3 10 5 1 0%Z enc_weights
           dec_weights false (batch 7 2 3) 7 [1; 2] w0).
  - lia.
  - exact (sized_attention_attends 8 2 (7 - 6)).
  - lia.
  - reflexivity.
  - reflexivity.
  - reflexivity.
  - reflexivity.
Defined.

Lemma unrecognized_attention_fails_in_forward_witness :
  rnn_decoder.attention
    (rnn_decoder.__init__ pkg (tiny "gru" "foo") None true dec_weights)
  = rnn_decoder.Missing
  /\ rnn_decoder.forward
       (rnn_decoder.__init__ pkg (tiny "gru" "foo") None true dec_weights)
       [1; 2] (StGRU [[[1%Z]; [2%Z]]]) [] w0
     = Err AttributeError.
Proof.
  destruct (@unrecognized_attention_fails_in_forward
              Z nat _ _ pkg (tiny "gru" "foo") None dec_weights)
    as [Hmissing Hforward].
  - discriminate.
  - discriminate.
  - discriminate.
  - discriminate.
  - split; [exact Hmissing|].
    destruct (Hforward [1; 2] (StGRU [[[1%Z]; [2%Z]]]) [] w0) as [_ Hlate].
    eapply Hlate; vm_compute; reflexivity.
Defined.

(** C5, against the claim as it is worded: the state handed over does not
    have the decoder's layer count in general.  A unidirectional LSTM with
    two encoder and two decoder layers hands over one entry, one with three
    encoder layers and one decoder layer hands over two, and a GRU with one
    encoder layer and three decoder layers hands over one. *)
Lemma handoff_misses_the_decoder_layer_count :
  (exists outputs h c conv w',
      rnn_encoder.forward
        (rnn_encoder.__init__ (layered "lstm" 2 2 false) None enc_weights)
        (batch 7 2 3) [7; 2] w0
      = Ok ((outputs, StLSTM h c, conv), w')
      /\ length h = 1 /\ length c = 1
      /\ Config.dec_num_layers (layered "lstm" 2 2 false) = 2)
  /\ (exists outputs h c conv w',
         rnn_encoder.forward
           (rnn_encoder.__init__ (layered "lstm" 3 1 false) None enc_weights)
           (batch 7 2 3) [7; 2] w0
         = Ok ((outputs, StLSTM h c, conv), w')
         /\ length h = 2 /\ length c = 2
         /\ Config.dec_num_layers (layered "lstm" 3 1 false) = 1)
  /\ (exists outputs h conv w',
         rnn_encoder.forward
           (rnn_encoder.__init__ (layered "gru" 1 3 false) None enc_weights)
           (batch 7 2 3) [7; 2] w0
         = Ok ((outputs, StGRU h, conv), w')
         /\ length h = 1
         /\ Config.dec_num_layers (layered "gru" 1 3 false) = 3).
Proof.
  split; [|split].
  - eexists _, _, _, _, _. split; [vm_compute; reflexivity|].
    repeat split.
  - eexists _, _, _, _, _. split; [vm_compute; reflexivity|].
    repeat split.
  - eexists _, _, _, _. split; [vm_compute; reflexivity|].
    repeat split.
Qed.

Lemma state_handoff_policy_witness :
  (exists outputs state conv world' h_n,
      rnn_encoder.forward (rnn_encoder.__init__ scenario None enc_weights)
                          (batch 7 2 3) [7; 2] w0
      = Ok ((outputs, state, conv), world')
      /\ length h_n = 4
      /\ state = StGRU (firstn 2 h_n)
      /\ length (firstn 2 h_n) = 2)
  /\ (exists outputs state conv world' h_n c_n h c,
         rnn_encoder.forward
           (rnn_encoder.__init__ (layered "lstm" 3 1 false) None enc_weights)
           (batch 7 2 3) [7; 2] w0
         = Ok ((outputs, state, conv), world')
         /\ length h_n = 3 /\ length c_n = 3
         /\ state = StLSTM h c
         /\ nth_error h 1 = nth_error h_n 2
         /\ nth_error c 1 = nth_error c_n 2
         /\ length h = 2 /\ length c = 2).
Proof.
  split.
  - pose proof (@state_handoff_policy Z nat _ _ scenario None enc_weights false)
      as Hthm.
    cbv zeta in Hthm. destruct Hthm as [Hreturns Hpolicy].
    destruct (Hreturns (batch 7 2 3) [7; 2] 7 2 w0)
      as (outputs & state & conv & world' & Hrun).
    { reflexivity. }
    { simpl. lia. }
    { simpl. lia. }
    { simpl. lia. }
    { reflexivity. }
    { reflexivity. }
    { reflexivity. }
    { simpl. lia. }
    destruct (Hpolicy _ _ _ _ _ _ _ Hrun)
      as (embedded & embs & raw & rawstate & w1 & _ & _ & _ & Hgru & _).
    destruct (Hgru eq_refl) as (h_n & _ & Hlen & Hstate & Hcount).
    exists outputs, state, conv, world', h_n.
    split; [exact Hrun|]. split; [exact Hlen|].
    split; [exact Hstate | exact Hcount].
  - pose proof (@state_handoff_policy Z nat _ _ (layered "lstm" 3 1 false) None
                  enc_weights false) as Hthm.
    cbv zeta in Hthm. destruct Hthm as [Hreturns Hpolicy].
    destruct (Hreturns (batch 7 2 3) [7; 2] 7 2 w0)
      as (outputs & state & conv & world' & Hrun).
    { reflexivity. }
    { simpl. lia. }
    { simpl. lia. }
    { simpl. lia. }
    { reflexivity. }
    { reflexivity. }
    { reflexivity. }
    { simpl. lia. }
    destruct (Hpolicy _ _ _ _ _ _ _ Hrun)
      as (embedded & embs & raw & rawstate & w1 & _ & _ & _ & _ & Hlstm).
    destruct Hlstm
      as (h_n & c_n & h & c & _ & Hlen & Hlenc & Hstate & Hh & Hc & Hcount & Hcountc).
    { simpl. discriminate. }
    exists outputs, state, conv, world', h_n, c_n, h, c.
    split; [exact Hrun|]. split; [exact Hlen|]. split; [exact Hlenc|].
    split; [exact Hstate|]. split; [exact (Hh 1)|]. split; [exact (Hc 1)|].
    split; [exact Hcount | exact Hcountc].
Defined.

Lemma stacked_cell_dropout_between_layers_witness :
  exists h_1 w',
    StackedGRU.forward
      (StackedGRU.__init__ 2 1 1 0%Z (rnn_decoder.w_gru dec_weights))
      [[5%Z]] (StGRU [[[1%Z]]; [[2%Z]]]) w0
    = Ok ((last h_1 [], StGRU h_1), w')
    /\ length h_1 = 2
    /\ dropout_calls w' = dropout_calls w0 ++ removelast h_1
    /\ length (removelast h_1) = 1.
Proof.
  destruct (@stacked_cell_dropout_between_layers
              Z nat _ 2 1 1 0%Z (rnn_decoder.w_gru dec_weights)
              (rnn_decoder.w_lstm dec_weights) false) as [_ [Hgru _]].
  - lia.
  - assert (Hrun : StackedGRU.forward
                     (StackedGRU.__init__ 2 1 1 0%Z (rnn_decoder.w_gru dec_weights))
                     [[5%Z]] (StGRU [[[1%Z]]; [[2%Z]]]) w0
                   = Ok (([[3%Z]], StGRU [[[7%Z]]; [[3%Z]]]),
                         {| gen := 1; dropout_calls := [[[7%Z]]] |}))
      by (vm_compute; reflexivity).
    destruct (Hgru _ _ _ _ _ _ Hrun)
      as (h_0 & h_1 & _ & Hst & Hlen & Hout & Hlog & Hcount & _).
    injection Hst as <-.
    exists [[[7%Z]]; [[3%Z]]], {| gen := 1; dropout_calls := [[[7%Z]]] |}.
    split; [exact Hrun|].
    split; [exact Hlen|]. split; [exact Hlog | exact Hcount].
Defined.

Lemma bidirectional_halves_are_summed_witness :
  rnn_encoder.forward bi_encoder ragged [7; 1] w0 = Ok bi_run
  /\ Forall (Forall (fun v => length v = 1)) (fst (fst (fst bi_run))).
Proof.
  assert (Hrun : rnn_encoder.forward bi_encoder ragged [7; 1] w0 = Ok bi_run)
    by (vm_compute; reflexivity).
  split; [exact Hrun|].
  refine (proj1 (@bidirectional_halves_are_summed
                   Z nat _ _ _ None enc_weights false ragged [7; 1] w0
                   _ _ _ _ _ Hrun)).
  simpl. lia.
Defined.

Lemma decoder_without_attention_witness :
  rnn_decoder.forward
    (rnn_decoder.__init__ pkg (tiny "gru" "None") None true dec_weights)
    [1; 2] (StGRU [[[1%Z]; [2%Z]]]) [] w0
  = rnn_decoder.forward
      (rnn_decoder.__init__ pkg (tiny "gru" "None") None true dec_weights)
      [1; 2] (StGRU [[[1%Z]; [2%Z]]]) [[[7%Z]]; [[8%Z]]] w0
  /\ exists scores state' w',
      rnn_decoder.forward
        (rnn_decoder.__init__ pkg (tiny "gru" "None") None true dec_weights)
        [1; 2] (StGRU [[[1%Z]; [2%Z]]]) [] w0
      = Ok ((scores, state', None), w').
Proof.
  destruct (@decoder_without_attention
              Z nat _ _ pkg (tiny "gru" "None") None true dec_weights false
              (or_intror eq_refl)
              [1; 2] (StGRU [[[1%Z]; [2%Z]]]) [] [[[7%Z]]; [[8%Z]]] w0)
    as [Hsame _].
  split; [exact Hsame|].
  eexists _, _, _. vm_compute. reflexivity.
Defined.

(** In training mode the generator does matter: the same encoder on the same
    batch returns another context from another generator state. *)
Lemma training_mode_consults_the_generator :
  value (rnn_encoder.forward
           (rnn_encoder.__init__ (tiny "gru" "None") None enc_weights)
           (batch 9 1 3) [9] w0)
  <> value (rnn_encoder.forward
              (rnn_encoder.__init__ (tiny "gru" "None") None enc_weights)
              (batch 9 1 3) [9] {| gen := 1; dropout_calls := [] |}).
Proof. vm_compute. discriminate. Qed.

(** ** The further properties on concrete runs *)


Lemma rejected_lengths_raise_runtime_error_witness :
  rnn_encoder.forward tiny_encoder ragged [1; 7] w0 = Err RuntimeError.
Proof.
  apply (@rejected_lengths_raise_runtime_error Z nat _ _ tiny_encoder ragged
           [1; 7] 7 2 w0).
  - reflexivity.
  - reflexivity.
  - right. right. reflexivity.
Defined.

Lemma short_batch_raises_runtime_error_witness :
  rnn_encoder.forward (rnn_encoder.__init__ (tiny "gru" "None") None enc_weights)
                      (batch 6 2 3) [6; 2] w0
  = Err RuntimeError.
Proof.
  apply (@short_batch_raises_runtime_error Z nat _ _ (tiny "gru" "None") None
           enc_weights false (batch 6 2 3) [6; 2] 6 2 w0).
  - reflexivity.
  - simpl. lia.
  - simpl. lia.
  - simpl. lia.
  - reflexivity.
  - reflexivity.
  - reflexivity.
  - simpl. lia.
Defined.

Lemma short_state_raises_index_error_witness :
  StackedGRU.forward
    (StackedGRU.__init__ 2 1 1 0%Z (rnn_decoder.w_gru dec_weights))
    [[5%Z]] (StGRU [[[1%Z]]]) w0
  = Err IndexError
  /\ StackedLSTM.forward
       (StackedLSTM.__init__ 2 1 1 0%Z (rnn_decoder.w_lstm dec_weights))
       [[5%Z]] (StLSTM [[[1%Z]]] [[[1%Z]]]) w0
     = Err IndexError.
Proof.
  apply (@short_state_raises_index_error Z nat _ 2 1 1 0%Z
           (rnn_decoder.w_gru dec_weights) (rnn_decoder.w_lstm dec_weights) false
           [[5%Z]] [[[1%Z]]] [[[1%Z]]] 1 1 w0).
  - reflexivity.
  - reflexivity.
  - reflexivity.
  - lia.
Defined.

Lemma batch_mismatch_raises_runtime_error_witness :
  StackedGRU.forward
    (StackedGRU.__init__ 1 1 1 0%Z (rnn_decoder.w_gru dec_weights))
    [[5%Z]] (StGRU [[[1%Z]; [2%Z]]]) w0
  = Err RuntimeError
  /\ StackedLSTM.forward
       (StackedLSTM.__init__ 1 1 1 0%Z (rnn_decoder.w_lstm dec_weights))
       [[5%Z]] (StLSTM [[[1%Z]; [2%Z]]] [[[1%Z]; [2%Z]]]) w0
     = Err RuntimeError.
Proof.
  apply (@batch_mismatch_raises_runtime_error Z nat _ 1 1 1 0%Z
           (rnn_decoder.w_gru dec_weights) (rnn_decoder.w_lstm dec_weights) false
           [[5%Z]] [[[1%Z]; [2%Z]]] [[[1%Z]; [2%Z]]] 2 w0).
  - lia.
  - reflexivity.
  - reflexivity.
  - simpl. lia.
Defined.

Lemma context_is_read_by_luong_gate_only_witness :
  rnn_decoder.forward
    (rnn_decoder.__init__ pkg (tiny "gru" "luong") None true dec_weights)
    [1; 2] (StGRU [[[1%Z]; [2%Z]]]) [] w0
  = rnn_decoder.forward
      (rnn_decoder.__init__ pkg (tiny "gru" "luong") None true dec_weights)
      [1; 2] (StGRU [[[1%Z]; [2%Z]]]) [[[7%Z]]; [[8%Z]]] w0.
Proof.
  apply (@context_is_read_by_luong_gate_only Z nat _ _
           (rnn_decoder.__init__ pkg (tiny "gru" "luong") None true dec_weights)).
  simpl. discriminate.
Defined.

Lemma scores_project_the_top_hidden_state_witness :
  exists scores state' attn w',
    rnn_decoder.forward
      (rnn_decoder.__init__ pkg (tiny "gru" "None") None true dec_weights)
      [1; 2] (StGRU [[[1%Z]; [2%Z]]]) [] w0
    = Ok ((scores, state', attn), w')
    /\ exists h_1,
        (state' = StGRU h_1 \/ exists c_1, state' = StLSTM h_1 c_1)
        /\ length h_1 = 1
        /\ nn.Linear_forward
             (rnn_decoder.linear
                (rnn_decoder.__init__ pkg (tiny "gru" "None") None true dec_weights))
             (last h_1 [])
           = Ok scores.
Proof.
  assert (Hrun : exists r,
             rnn_decoder.forward
               (rnn_decoder.__init__ pkg (tiny "gru" "None") None true dec_weights)
               [1; 2] (StGRU [[[1%Z]; [2%Z]]]) [] w0
             = Ok r)
    by (eexists; vm_compute; reflexivity).
  destruct Hrun as [[[[scores state'] attn] w'] Hrun].
  exists scores, state', attn, w'. split; [exact Hrun|].
  apply (@scores_project_the_top_hidden_state Z nat _ _ pkg (tiny "gru" "None")
           None true dec_weights false [1; 2] (StGRU [[[1%Z]; [2%Z]]]) [] w0 w'
           scores state' attn).
  - right. reflexivity.
  - simpl. lia.
  - exact Hrun.
Defined.

Lemma cell_option_selects_the_state_kind_witness :
  exists outputs h c conv w',
    rnn_encoder.forward
      (rnn_encoder.eval (rnn_encoder.__init__ (tiny "GRU" "None") None enc_weights))
      ragged [7; 1] w0
    = Ok ((outputs, StLSTM h c, conv), w').
Proof.
  assert (Hrun : exists r,
             rnn_encoder.forward
               (rnn_encoder.eval
                  (rnn_encoder.__init__ (tiny "GRU" "None") None enc_weights))
               ragged [7; 1] w0
             = Ok r)
    by (eexists; vm_compute; reflexivity).
  destruct Hrun as [[[[outputs state] conv] w'] Hrun].
  destruct (proj1 (@cell_option_selects_the_state_kind Z nat _ _ pkg
                     (tiny "GRU" "None") None None true enc_weights dec_weights
                     true)
                  ragged [7; 1] w0 w' outputs state conv Hrun)
    as (h & c & Hstate).
  exists outputs, h, c, conv, w'. rewrite <- Hstate. exact Hrun.
Defined.

Lemma decoder_step_keeps_the_state_shape_witness :
  exists scores state' world',
    rnn_decoder.forward
      (rnn_decoder.__init__ pkg (tiny "gru" "None") None true dec_weights)
      [1; 2] (StGRU [[[1%Z]; [2%Z]]]) [] w0
    = Ok ((scores, state', None), world')
    /\ shape2 2 5 scores = true
    /\ state_shape 1 2 1 state' = true
    /\ exists h, state' = StGRU h.
Proof.
  apply (@decoder_step_keeps_the_state_shape Z nat _ _ pkg (tiny "gru" "None")
           true dec_weights false [1; 2] (StGRU [[[1%Z]; [2%Z]]]) [] 2 w0).
  - right. reflexivity.
  - simpl. lia.
  - reflexivity.
  - reflexivity.
  - reflexivity.
  - simpl. eexists. reflexivity.
Defined.

Lemma handoff_of_too_few_layers_fails_witness :
  exists outputs state conv w1,
    rnn_encoder.forward (rnn_encoder.__init__ (deep "lstm") None enc_weights)
                        (batch 7 2 3) [7; 2] w0
    = Ok ((outputs, state, conv), w1)
    /\ rnn_decoder.forward
         (rnn_decoder.__init__ pkg (deep "lstm") None true dec_weights)
         [1; 2] state conv w1
       = Err IndexError.
Proof.
  apply (@handoff_of_too_few_layers_fails Z nat _ _ pkg (deep "lstm") true
           enc_weights dec_weights false (batch 7 2 3) [7; 2] 7 2 [1; 2] w0).
  - simpl. lia.
  - simpl. lia.
  - simpl. lia.
  - reflexivity.
  - reflexivity.
  - reflexivity.
  - simpl. lia.
  - reflexivity.
  - reflexivity.
  - simpl. lia.
Defined.

Lemma single_layer_encoder_is_dropout_free_witness :
  exists outputs1 state1 conv1 w1' outputs2 state2 conv2 w2',
    rnn_encoder.forward
      (rnn_encoder.__init__ (tiny "gru" "None") None enc_weights)
      (batch 9 1 3) [9] w0
    = Ok ((outputs1, state1, conv1), w1')
    /\ rnn_encoder.forward
         (rnn_encoder.eval
            (rnn_encoder.__init__ (tiny "gru" "None") None enc_weights))
         (batch 9 1 3) [9] {| gen := 1; dropout_calls := [] |}
       = Ok ((outputs2, state2, conv2), w2')
    /\ outputs1 = outputs2 /\ state1 = state2.
Proof.
  assert (Hrun1 : exists r,
             rnn_encoder.forward
               (rnn_encoder.__init__ (tiny "gru" "None") None enc_weights)
               (batch 9 1 3) [9] w0
             = Ok r)
    by (eexists; vm_compute; reflexivity).
  assert (Hrun2 : exists r,
             rnn_encoder.forward
               (rnn_encoder.eval
                  (rnn_encoder.__init__ (tiny "gru" "None") None enc_weights))
               (batch 9 1 3) [9] {| gen := 1; dropout_calls := [] |}
             = Ok r)
    by (eexists; vm_compute; reflexivity).
  destruct Hrun1 as [[[[outputs1 state1] conv1] w1'] Hrun1].
  destruct Hrun2 as [[[[outputs2 state2] conv2] w2'] Hrun2].
  exists outputs1, state1, conv1, w1', outputs2, state2, conv2, w2'.
  split; [exact Hrun1|]. split; [exact Hrun2|].
  apply (@single_layer_encoder_is_dropout_free Z nat _ _ (tiny "gru" "None") None
           enc_weights (batch 9 1 3) [9] w0 w1'
           {| gen := 1; dropout_calls := [] |} w2'
           outputs1 state1 conv1 outputs2 state2 conv2).
  - reflexivity.
  - exact Hrun1.
  - exact Hrun2.
Defined.

Lemma unpadded_batch_survives_pack_and_unpack_witness :
  exists embedded embs,
    mapR (mapR (nn.Embedding_lookup (rnn_encoder.embedding tiny_encoder)))
         (batch 3 2 4)
    = Ok embedded
    /\ pack embedded (repeat 3 2) = Ok embs
    /\ fst (unpack embs) = embedded.
Proof.
  apply (@unpadded_batch_survives_pack_and_unpack Z _ tiny_encoder
           (batch 3 2 4) 3 2).
  - lia.
  - lia.
  - simpl. lia.
  - reflexivity.
  - reflexivity.
Defined.

Lemma evaluation_leaves_the_generator_untouched_witness :
  rnn_encoder.forward tiny_encoder ragged [7; 1] w0 = Ok tiny_run
  /\ snd tiny_run = w0.
Proof.
  assert (Hrun : rnn_encoder.forward tiny_encoder ragged [7; 1] w0 = Ok tiny_run)
    by (vm_compute; reflexivity).
  split; [exact Hrun|].
  exact (proj1 (@evaluation_leaves_the_generator_untouched Z nat _ _
                  (rnn_encoder.__init__ (tiny "gru" "None") None enc_weights)
                  (rnn_decoder.__init__ pkg (tiny "gru" "None") None true
                     dec_weights))
               ragged [7; 1] w0 (snd tiny_run) (fst tiny_run) Hrun).
Defined.

Lemma gru_handoff_reads_the_first_layer_only_witness :
  exists outputs1 state1 conv1 w1' outputs2 state2 conv2 w2',
    rnn_encoder.forward (rnn_encoder.__init__ scenario None enc_weights)
                        (batch 7 2 3) [7; 2] w0
    = Ok ((outputs1, state1, conv1), w1')
    /\ rnn_encoder.forward
         (rnn_encoder.eval (rnn_encoder.__init__ scenario None enc_weights_deep))
         (batch 7 2 3) [7; 2] w0
       = Ok ((outputs2, state2, conv2), w2')
    /\ outputs1 <> outputs2
    /\ state1 = state2.
Proof.
  assert (Hrun1 : exists r,
             rnn_encoder.forward (rnn_encoder.__init__ scenario None enc_weights)
                                 (batch 7 2 3) [7; 2] w0
             = Ok r)
    by (eexists; vm_compute; reflexivity).
  assert (Hrun2 : exists r,
             rnn_encoder.forward
               (rnn_encoder.eval
                  (rnn_encoder.__init__ scenario None enc_weights_deep))
               (batch 7 2 3) [7; 2] w0
             = Ok r)
    by (eexists; vm_compute; reflexivity).
  destruct Hrun1 as [[[[outputs1 state1] conv1] w1'] Hrun1].
  destruct Hrun2 as [[[[outputs2 state2] conv2] w2'] Hrun2].
  exists outputs1, state1, conv1, w1', outputs2, state2, conv2, w2'.
  split; [exact Hrun1|]. split; [exact Hrun2|]. split.
  - intros Hsame. subst outputs2. revert Hrun1 Hrun2.
    vm_compute. intros [= <- _ _ _] Hbad. discriminate Hbad.
  - apply (@gru_handoff_reads_the_first_layer_only Z nat _ _ scenario None
             enc_weights enc_weights_deep false true (batch 7 2 3) [7; 2]
             w0 w1' w0 w2' outputs1 state1 conv1 outputs2 state2 conv2).
    + reflexivity.
    + simpl. lia.
    + simpl. lia.
    + intros id j. reflexivity.
    + intros reverse x h j. reflexivity.
    + exact Hrun1.
    + exact Hrun2.
Defined.

Lemma handoff_of_enough_layers_goes_through_witness :
  exists outputs state conv w1 scores state' w2,
    rnn_encoder.forward (rnn_encoder.__init__ (deep "gru") None enc_weights)
                        (batch 7 2 3) [7; 2] w0
    = Ok ((outputs, state, conv), w1)
    /\ rnn_decoder.forward
         (rnn_decoder.__init__ pkg (deep "gru") None true dec_weights)
         [1; 2] state conv w1
       = Ok ((scores, state', None), w2)
    /\ shape2 2 5 scores = true
    /\ state_shape 2 2 1 state' = true.
Proof.
  apply (@handoff_of_enough_layers_goes_through Z nat _ _ pkg (deep "gru") true
           enc_weights dec_weights false (batch 7 2 3) [7; 2] 7 2 [1; 2] w0).
  - right. reflexivity.
  - simpl. lia.
  - simpl. lia.
  - simpl. lia.
  - simpl. lia.
  - reflexivity.
  - reflexivity.
  - reflexivity.
  - simpl. lia.
  - reflexivity.
  - reflexivity.
  - simpl. lia.
Defined.

Lemma mismatched_embedding_raises_runtime_error_witness :
  rnn_encoder.forward
    (rnn_encoder.__init__ (tiny "gru" "None") (Some wide_table) enc_weights)
    ragged [7; 1] w0
  = Err RuntimeError.
Proof.
  apply (@mismatched_embedding_raises_runtime_error Z nat _ _ (tiny "gru" "None")
           wide_table enc_weights false ragged [7; 1] 7 2 w0).
  - simpl. lia.
  - simpl. lia.
  - reflexivity.
  - reflexivity.
  - reflexivity.
Defined.

Lemma layerless_decoder_raises_runtime_error_witness :
  rnn_decoder.forward
    (rnn_decoder.__init__ pkg layerless None true dec_weights)
    [1; 2] (StGRU []) [] w0
  = Err RuntimeError.
Proof.
  apply (@layerless_decoder_raises_runtime_error Z nat _ _ pkg layerless None true
           dec_weights false [1; 2] (StGRU []) [] w0).
  - reflexivity.
  - reflexivity.
  - simpl. eexists. reflexivity.
Defined.

Lemma handed_over_state_shape_witness :
  exists outputs state conv world',
    rnn_encoder.forward (rnn_encoder.__init__ (deep "lstm") None enc_weights)
                        (batch 7 2 3) [7; 2] w0
    = Ok ((outputs, state, conv), world')
    /\ state_shape 1 2 1 state = true.
Proof.
  apply (@handed_over_state_shape Z nat _ _ (deep "lstm") None enc_weights false
           (batch 7 2 3) [7; 2] 7 2 w0).
  - reflexivity.
  - simpl. lia.
  - simpl. lia.
  - simpl. lia.
  - reflexivity.
  - reflexivity.
  - reflexivity.
  - simpl. lia.
Defined.
